(** * LocalKnowledge: a shallow embedding of the Zotero indexer, the
      retrieval engine, the metadata extractor and the MCP operations.

    The development follows the Python sources file by file:
    - [indexer.py]     : [parse_filename], [find_all_pdfs],
                         [extract_pdf_by_pages], [get_file_hash],
                         [index_papers];
    - [query.py]       : [retrieve_only], the query engine of
                         [_create_query_engine];
    - [zotero_meta.py] : [_load_creators];
    - [mcp_server.py]  : the four tools behind their [except Exception]
                         boundary.

    Python [str] values are lists of Unicode code points, [bytes] values
    are lists of [byte], dictionaries are [gmap]s, exceptions are the left
    summand of a sum type. *)

From Stdlib Require Import ZArith NArith QArith List String Ascii Lia Bool.
From Stdlib.Strings Require Import Byte.
From Stdlib.Sorting Require Import Sorted Permutation.
From stdpp Require Import base option list gmap.

Local Open Scope N_scope.
Local Open Scope list_scope.

(** ** Python strings *)

Module PyStr.

(** A [str] is a sequence of code points. *)
Abbreviation pystr := (list N).

(** Writing ASCII literals. *)
Definition str (s : string) : pystr :=
  List.map N_of_ascii (list_ascii_of_string s).

Definition LF : N := 10.
Definition DOT : N := 46.

(** [str.isspace] on one code point, which is also the class [\s] of
    [re] on [str] patterns (CPython: [Py_UNICODE_ISSPACE]). *)
Definition isspace (c : N) : bool :=
  ((9 <=? c) && (c <=? 13)) || ((28 <=? c) && (c <=? 32))
  || (c =? 133) || (c =? 160) || (c =? 5760)
  || ((8192 <=? c) && (c <=? 8202))
  || (c =? 8232) || (c =? 8233) || (c =? 8239) || (c =? 8287) || (c =? 12288).

(** [str.lstrip()], [str.rstrip()] and [str.strip()] without argument. *)
Fixpoint lstrip (s : pystr) : pystr :=
  match s with
  | c :: s' => if isspace c then lstrip s' else s
  | [] => []
  end.

Definition rstrip (s : pystr) : pystr := rev (lstrip (rev s)).

Definition strip (s : pystr) : pystr := rstrip (lstrip s).

(** Truth value of a [str]: non-empty. *)
Definition truthy (s : pystr) : bool :=
  match s with [] => false | _ => true end.

(** [s.endswith(suffix)]. *)
Definition endswith (s suffix : pystr) : bool :=
  bool_decide (drop (length s - length suffix)%nat s = suffix).

(** ASCII lower-casing of one code point.  On the four code points that
    [lower()] can send to one of [.], [p], [d], [f] this is what
    [str.lower] does, and no other code point lower-cases to a string
    containing one of them. *)
Definition lower_ascii (c : N) : N :=
  if (65 <=? c) && (c <=? 90) then c + 32 else c.

(** [filename.lower().endswith('.pdf')]. *)
Definition lower_endswith_pdf (s : pystr) : bool :=
  endswith (List.map lower_ascii s) (str ".pdf").

(** [s.rsplit('.', 1)[0]]: what precedes the last dot, the whole string
    when there is no dot. *)
Fixpoint before_last_dot (s : pystr) : option pystr :=
  match s with
  | [] => None
  | c :: s' =>
      match before_last_dot s' with
      | Some h => Some (c :: h)
      | None => if c =? DOT then Some [] else None
      end
  end.

Definition rsplit_dot_head (s : pystr) : pystr :=
  default s (before_last_dot s).

End PyStr.
Import PyStr.

(** ** The fragment of [re] the sources use

    Patterns of the repository are concatenations of anchors, character
    classes, quantified character classes and capturing groups.  The
    matcher is the backtracking matcher of [re]: alternatives are tried in
    priority order (greedy: longest first; lazy: shortest first) and the
    first complete match wins. *)

Module Re.

Definition cls := N -> bool.

Inductive quant := Greedy | Lazy.

Inductive re :=
| Bol                          (* ^ *)
| Eol                          (* $ *)
| Cls (p : cls)                (* [...] , \d, \s, . *)
| Star (p : cls)               (* p* , greedy *)
| Plus (q : quant) (p : cls)   (* p+ and p+? *)
| Rep (n : nat) (p : cls)      (* p{n} *)
| Grp (r : re)                 (* ( r ) *)
| Cat (r1 r2 : re).

Infix "⋅" := Cat (at level 60, right associativity).

(** [.] without [re.DOTALL]: anything but a line feed. *)
Definition dot : cls := fun c => negb (c =? LF).

Section Engine.
Context {R : Type}.
(** The subject string, against which [^] is decided. *)
Variable subject : pystr.

Definition one (p : cls) (s : pystr) (k : pystr -> option R) : option R :=
  match s with
  | c :: s' => if p c then k s' else None
  | [] => None
  end.

Fixpoint star_greedy (p : cls) (s : pystr) (k : pystr -> option R) : option R :=
  match s with
  | c :: s' =>
      if p c then
        match star_greedy p s' k with
        | Some r => Some r
        | None => k s
        end
      else k s
  | [] => k s
  end.

Fixpoint star_lazy (p : cls) (s : pystr) (k : pystr -> option R) : option R :=
  match k s with
  | Some r => Some r
  | None =>
      match s with
      | c :: s' => if p c then star_lazy p s' k else None
      | [] => None
      end
  end.

Fixpoint rep (n : nat) (p : cls) (s : pystr) (k : pystr -> option R) : option R :=
  match n with
  | O => k s
  | S n' => one p s (fun s' => rep n' p s' k)
  end.

Definition plus (q : quant) (p : cls) (s : pystr) (k : pystr -> option R) : option R :=
  one p s (fun s' =>
    match q with
    | Greedy => star_greedy p s' k
    | Lazy => star_lazy p s' k
    end).

(** [exec r s caps k]: match [r] at the suffix [s] of the subject, the
    groups closed so far being [caps]; [k] is the rest of the pattern. *)
Fixpoint exec (r : re) (s : pystr) (caps : list pystr)
    (k : pystr -> list pystr -> option R) : option R :=
  match r with
  | Bol => if (length s =? length subject)%nat then k s caps else None
  | Eol =>
      match s with
      | [] => k s caps
      | [c] => if c =? LF then k s caps else None
      | _ => None
      end
  | Cls p => one p s (fun s' => k s' caps)
  | Star p => star_greedy p s (fun s' => k s' caps)
  | Plus q p => plus q p s (fun s' => k s' caps)
  | Rep n p => rep n p s (fun s' => k s' caps)
  | Grp r1 =>
      exec r1 s caps (fun s' caps' =>
        k s' (caps' ++ [take (length s - length s')%nat s]))
  | Cat r1 r2 => exec r1 s caps (fun s' caps' => exec r2 s' caps' k)
  end.
End Engine.

(** [re.match(pattern, s)]: anchored at the start of [s], not at its end;
    the result is the list of groups, [group(1)] first. *)
Definition re_match (r : re) (s : pystr) : option (list pystr) :=
  exec s r s [] (fun _ caps => Some caps).

(** [m.group(i)] for [i >= 1]. *)
Definition group (m : list pystr) (i : nat) : pystr :=
  nth (i - 1) m [].

End Re.
Import Re.


(** ** Exceptions

    A computation that may raise is a value of [exn + A].  [exn] stands
    for the instances of Python's [Exception], the class every handler of
    the repository names. *)

Module Exc.

Inductive exn := Raise (kind msg : pystr).

(** [str(e)] *)
Definition exn_str (e : exn) : pystr :=
  match e with Raise _ msg => msg end.

#[global] Instance exn_ret : MRet (sum exn) := fun A a => inr a.
#[global] Instance exn_bind : MBind (sum exn) :=
  fun A B f m => match m with inl e => inl e | inr a => f a end.

(** [try: body  except Exception as e: handler(e)] *)
Definition try_except {A} (body : exn + A) (handler : exn -> exn + A) : exn + A :=
  match body with
  | inl e => handler e
  | inr v => inr v
  end.

Definition returns {A} (m : exn + A) : bool :=
  match m with inr _ => true | inl _ => false end.

End Exc.
Import Exc.

(** ** hashlib.md5 (RFC 1321)

    [hashlib] is not part of the repository; its [md5] object is modelled
    by its contract: the digest of the concatenation of everything fed
    through [update]. *)

Module MD5.

Definition mask32 (x : N) : N := N.land x 4294967295.
Definition add32 (x y : N) : N := mask32 (x + y).
Definition not32 (x : N) : N := N.lxor x 4294967295.
Definition rotl32 (x s : N) : N :=
  mask32 (N.lor (N.shiftl x s) (N.shiftr (mask32 x) (32 - s))).

Definition K : list N :=
  [ 3614090360; 3905402710; 606105819; 3250441966;
    4118548399; 1200080426; 2821735955; 4249261313;
    1770035416; 2336552879; 4294925233; 2304563134;
    1804603682; 4254626195; 2792965006; 1236535329;
    4129170786; 3225465664; 643717713; 3921069994;
    3593408605; 38016083; 3634488961; 3889429448;
    568446438; 3275163606; 4107603335; 1163531501;
    2850285829; 4243563512; 1735328473; 2368359562;
    4294588738; 2272392833; 1839030562; 4259657740;
    2763975236; 1272893353; 4139469664; 3200236656;
    681279174; 3936430074; 3572445317; 76029189;
    3654602809; 3873151461; 530742520; 3299628645;
    4096336452; 1126891415; 2878612391; 4237533241;
    1700485571; 2399980690; 4293915773; 2240044497;
    1873313359; 4264355552; 2734768916; 1309151649;
    4149444226; 3174756917; 718787259; 3951481745 ].

Definition S : list N :=
  [ 7; 12; 17; 22; 7; 12; 17; 22; 7; 12; 17; 22; 7; 12; 17; 22;
    5; 9; 14; 20; 5; 9; 14; 20; 5; 9; 14; 20; 5; 9; 14; 20;
    4; 11; 16; 23; 4; 11; 16; 23; 4; 11; 16; 23; 4; 11; 16; 23;
    6; 10; 15; 21; 6; 10; 15; 21; 6; 10; 15; 21; 6; 10; 15; 21 ].

Record regs := { rA : N; rB : N; rC : N; rD : N }.

Definition init : regs :=
  {| rA := 1732584193; rB := 4023233417; rC := 2562383102; rD := 271733878 |}.

(** One of the 64 steps on the 16 words [m] of a block. *)
Definition step (m : list N) (r : regs) (i : nat) : regs :=
  let '(Build_regs a b c d) := r in
  let '(f, g) :=
    if (i <? 16)%nat then (N.lor (N.land b c) (N.land (not32 b) d), i)
    else if (i <? 32)%nat then
      (N.lor (N.land d b) (N.land (not32 d) c), ((5 * i + 1) mod 16)%nat)
    else if (i <? 48)%nat then
      (N.lxor b (N.lxor c d), ((3 * i + 5) mod 16)%nat)
    else (N.lxor c (N.lor b (not32 d)), ((7 * i) mod 16)%nat) in
  let f' := add32 (add32 (add32 f a) (nth i K 0)) (nth g m 0) in
  {| rA := d; rB := add32 b (rotl32 f' (nth i S 0)); rC := b; rD := c |}.

(** Little-endian words of a block. *)
Fixpoint words (bs : list N) : list N :=
  match bs with
  | b0 :: b1 :: b2 :: b3 :: rest =>
      (b0 + 256 * b1 + 65536 * b2 + 16777216 * b3) :: words rest
  | _ => []
  end.

Definition block (r : regs) (bs : list N) : regs :=
  let r' := fold_left (step (words bs)) (seq 0 64) r in
  {| rA := add32 (rA r) (rA r'); rB := add32 (rB r) (rB r');
     rC := add32 (rC r) (rC r'); rD := add32 (rD r) (rD r') |}.

Fixpoint blocks (fuel : nat) (r : regs) (bs : list N) : regs :=
  match fuel with
  | O => r
  | Datatypes.S fuel' =>
      match bs with
      | [] => r
      | _ => blocks fuel' (block r (take 64 bs)) (drop 64 bs)
      end
  end.

Definition le_bytes (n : nat) (x : N) : list N :=
  List.map (fun i => (N.shiftr x (8 * N.of_nat i)) mod 256) (seq 0 n).

Definition pad (msg : list N) : list N :=
  let len := length msg in
  let zeros := ((119 - len mod 64) mod 64)%nat in
  msg ++ [128] ++ repeat 0 zeros
      ++ le_bytes 8 ((8 * N.of_nat len) mod 18446744073709551616).

Definition digest (msg : list byte) : list N :=
  let bs := pad (List.map Byte.to_N msg) in
  let r := blocks (length bs) init bs in
  le_bytes 4 (rA r) ++ le_bytes 4 (rB r) ++ le_bytes 4 (rC r) ++ le_bytes 4 (rD r).

Definition hexdigit (x : N) : N := if x <? 10 then 48 + x else 87 + x.

Definition hex (bs : list N) : pystr :=
  flat_map (fun b => [hexdigit (b / 16); hexdigit (b mod 16)]) bs.

(** The [hashlib.md5()] object: what [update] has been given so far. *)
Definition md5 := list byte.
Definition new : md5 := [].
Definition update (h : md5) (chunk : list byte) : md5 := h ++ chunk.
Definition hexdigest (h : md5) : pystr := hex (digest h).

End MD5.


(** ** The file system under the Zotero storage directory

    A path is the list of its components below the storage root.  The
    entries of a directory are listed in the order [iterdir] yields them. *)

Module FS.

#[warnings="-register-all"]
Inductive node :=
| File (content : list byte)
| Dir (entries : list (pystr * node)).

Abbreviation path := (list pystr).

Fixpoint lookup_entry (name : pystr) (entries : list (pystr * node)) : option node :=
  match entries with
  | [] => None
  | (n, nd) :: rest => if bool_decide (n = name) then Some nd else lookup_entry name rest
  end.

(** The node a two-component path [key/filename] names below [root]. *)
Definition resolve (root : option node) (p : path) : option node :=
  match root, p with
  | Some (Dir entries), [d; f] =>
      match lookup_entry d entries with
      | Some (Dir files) => lookup_entry f files
      | _ => None
      end
  | _, _ => None
  end.

(** [open(p, "rb")] followed by reading: the content of a regular file. *)
Definition read_bytes (root : option node) (p : path) : exn + list byte :=
  match resolve root p with
  | Some (File content) => inr content
  | Some (Dir _) => inl (Raise (str "IsADirectoryError") (str "Is a directory"))
  | None => inl (Raise (str "FileNotFoundError") (str "No such file or directory"))
  end.

(** [p.name] and [str(p)]. *)
Definition name (p : path) : pystr := List.last p [].

Fixpoint path_str (p : path) : pystr :=
  match p with
  | [] => []
  | [c] => c
  | c :: rest => c ++ str "/" ++ path_str rest
  end.

End FS.
Import FS.

(** ** indexer.py *)

Module Indexer.

Record PaperInfo := {
  authors : pystr;
  year : pystr;
  title : pystr;
  zotero_key : pystr;
  file_path : path;
}.

(** The dashes of [[-–—]]: hyphen-minus, en dash, em dash. *)
Definition isdash (c : N) : bool := (c =? 45) || (c =? 8211) || (c =? 8212).

(** [[A-Z0-9]] *)
Definition iskeychar (c : N) : bool :=
  ((65 <=? c) && (c <=? 90)) || ((48 <=? c) && (c <=? 57)).

(** [r'^[A-Z0-9]{8}$'] *)
Definition key_pattern : re := Bol ⋅ Rep 8 iskeychar ⋅ Eol.

Record IndexedFileRecord := {
  rec_hash : option pystr;       (* .get("hash") *)
  rec_indexed_at : pystr;
  rec_title : pystr;
  rec_authors : pystr;
  rec_year : pystr;
  rec_pages : nat;
}.

(** The metadata dictionary of a page. *)
Record PageMeta := {
  m_title : pystr;
  m_authors : pystr;
  m_year : pystr;
  m_zotero_key : pystr;
  m_source : pystr;
  m_file_path : pystr;
  m_page : nat;
  m_total_pages : nat;
}.

(** llama_index [Document] as the indexer builds it. *)
Record Document := {
  doc_text : pystr;
  doc_metadata : PageMeta;
  excluded_llm_metadata_keys : list pystr;
  excluded_embed_metadata_keys : list pystr;
}.

(** [index_state.json] *)
Record IndexState := {
  indexed_files : gmap pystr IndexedFileRecord;
  last_indexed : option pystr;
}.

(** Everything a run reads and writes: the storage directory, the state
    file in the cache directory, the persisted vector store. *)
Record Disk := {
  storage : option node;
  state_file : option IndexState;
  vector_db : option (list Document);
}.

(** [iter(lambda: f.read(4096), b"")]: the successive reads of a file. *)
Fixpoint read_chunks (fuel : nat) (size : nat) (content : list byte) : list (list byte) :=
  match fuel with
  | O => []
  | S fuel' =>
      match content with
      | [] => []
      | _ => take size content :: read_chunks fuel' size (drop size content)
      end
  end.

Definition get_file_hash (root : option node) (filepath : path) : exn + pystr :=
  content ← read_bytes root filepath;
  mret (MD5.hexdigest
          (fold_left MD5.update (read_chunks (length content) 4096 content) MD5.new)).

(** [load_index_state] *)
Definition load_index_state (d : Disk) : IndexState :=
  match state_file d with
  | Some st => st
  | None => {| indexed_files := ∅; last_indexed := None |}
  end.

(** The test of lines 218-219 that sends a document to [continue]. *)
Definition skip_document (force : bool) (files : gmap pystr IndexedFileRecord)
    (key : pystr) (file_hash : pystr) : bool :=
  negb force &&
  match files !! key with
  | Some r => bool_decide (rec_hash r = Some file_hash)
  | None => false
  end.

Section Pipeline.
(** [\d] on a [str] pattern: the decimal digits of the Unicode database of
    the interpreter. *)
Variable isdecimal : N -> bool.
(** Whether [Path.glob] compares names case-sensitively (POSIX) or not. *)
Variable posix : bool.
(** PyMuPDF: the pages of a document given its bytes, each with the outcome
    of [get_text()]; [fitz.open] itself may raise. *)
Variable fitz_open : list byte -> exn + list (exn + pystr).
(** [VectorStoreIndex.from_documents] followed by [persist]: the exception
    raised, if any. *)
Variable embed : list Document -> option exn.
(** [datetime.now().isoformat()] at the n-th reading of the clock. *)
Variable now : nat -> pystr.

(** [r'^(.+?)\s*[-–—]\s*(\d{4})\s*[-–—]\s*(.+)$'] *)
Definition filename_pattern : re :=
  Bol ⋅ Grp (Plus Lazy dot) ⋅ Star isspace ⋅ Cls isdash ⋅ Star isspace
      ⋅ Grp (Rep 4 isdecimal) ⋅ Star isspace ⋅ Cls isdash ⋅ Star isspace
      ⋅ Grp (Plus Greedy dot) ⋅ Eol.

(** The stem [name] of line 65. *)
Definition stem (filename : pystr) : pystr :=
  if lower_endswith_pdf filename then rsplit_dot_head filename else filename.

Definition parse_filename (filename : pystr) (zotero_key : pystr)
    (file_path : path) : PaperInfo :=
  let name := stem filename in
  match re_match filename_pattern name with
  | Some m =>
      {| authors := strip (group m 1); year := group m 2;
         title := strip (group m 3);
         zotero_key := zotero_key; file_path := file_path |}
  | None =>
      {| authors := str "Unknown"; year := []; title := name;
         zotero_key := zotero_key; file_path := file_path |}
  end.

(** [item_dir.glob("*.pdf")] on the name of an entry. *)
Definition glob_pdf (name : pystr) : bool :=
  if posix then endswith name (str ".pdf") else lower_endswith_pdf name.

Definition pdfs_of_item (zotero_key : pystr) (nd : node) : list PaperInfo :=
  match nd with
  | File _ => []
  | Dir files =>
      match re_match key_pattern zotero_key with
      | Some _ =>
          List.map (fun e => parse_filename (fst e) zotero_key [zotero_key; fst e])
                   (List.filter (fun e => glob_pdf (fst e)) files)
      | None => []
      end
  end.

Definition find_all_pdfs (root : option node) : exn + list PaperInfo :=
  match root with
  | None => inr []
  | Some (File _) => inl (Raise (str "NotADirectoryError") (str "Not a directory"))
  | Some (Dir entries) =>
      inr (flat_map (fun e => pdfs_of_item (fst e) (snd e)) entries)
  end.

Definition page_meta (paper : PaperInfo) (page total : nat) : PageMeta :=
  {| m_title := title paper; m_authors := authors paper; m_year := year paper;
     m_zotero_key := zotero_key paper; m_source := FS.name (file_path paper);
     m_file_path := path_str (file_path paper);
     m_page := page; m_total_pages := total |}.

(** The loop of [extract_pdf_by_pages] from page index [page_num] on. *)
Fixpoint extract_pages (paper : PaperInfo) (total : nat) (page_num : nat)
    (doc : list (exn + pystr)) : exn + list (pystr * PageMeta) :=
  match doc with
  | [] => inr []
  | page :: rest =>
      text ← page;
      pages ← extract_pages paper total (S page_num) rest;
      mret (if truthy (strip text)
            then (text, page_meta paper (page_num + 1) total) :: pages
            else pages)
  end.

Definition extract_pdf_by_pages (root : option node) (paper : PaperInfo)
    : exn + list (pystr * PageMeta) :=
  content ← read_bytes root (file_path paper);
  doc ← fitz_open content;
  extract_pages paper (length doc) 0 doc.

Definition make_document (p : pystr * PageMeta) : Document :=
  {| doc_text := fst p; doc_metadata := snd p;
     excluded_llm_metadata_keys := [str "file_path"];
     excluded_embed_metadata_keys := [str "file_path"] |}.

(** The local variables the loop of [index_papers] updates. *)
Record LoopState := {
  files : gmap pystr IndexedFileRecord;   (* state["indexed_files"] *)
  all_documents : list Document;
  indexed_count : nat;
  ticks : nat;                            (* readings of the clock so far *)
}.

(** What happened to one document. *)
Inductive outcome := Skipped | Indexed | Failed.

(** One iteration of [for paper in papers].  [get_file_hash] is outside
    the [try]: its exception leaves the loop. *)
Definition index_one (root : option node) (force : bool) (s : LoopState)
    (paper : PaperInfo) : exn + (outcome * LoopState) :=
  file_hash ← get_file_hash root (file_path paper);
  if skip_document force (files s) (zotero_key paper) file_hash then
    mret (Skipped, s)
  else
    match extract_pdf_by_pages root paper with
    | inr pages =>
        mret (Indexed,
          {| files := <[ zotero_key paper :=
                 {| rec_hash := Some file_hash;
                    rec_indexed_at := now (ticks s);
                    rec_title := title paper; rec_authors := authors paper;
                    rec_year := year paper; rec_pages := length pages |} ]> (files s);
             all_documents := all_documents s ++ List.map make_document pages;
             indexed_count := S (indexed_count s);
             ticks := S (ticks s) |})
    | inl _ => mret (Failed, s)
    end.

Fixpoint index_loop (root : option node) (force : bool) (papers : list PaperInfo)
    (s : LoopState) : exn + (list outcome * LoopState) :=
  match papers with
  | [] => inr ([], s)
  | paper :: rest =>
      r ← index_one root force s paper;
      r' ← index_loop root force rest (snd r);
      mret (fst r :: fst r', snd r')
  end.

(** [index_papers(config, force)]: the value returned or the exception
    raised, and the disk the run leaves.  The configuration is taken to
    be complete, the cache and vector-store directories to be creatable,
    and the state file, when present, to be one [save_index_state] wrote;
    console output is not part of the model. *)
Definition index_papers (d : Disk) (force : bool) : (exn + nat) * Disk :=
  match find_all_pdfs (storage d) with
  | inl e => (inl e, d)
  | inr [] => (inr O, d)
  | inr papers =>
      let state :=
        if force then {| indexed_files := ∅; last_indexed := None |}
        else load_index_state d in
      match index_loop (storage d) force papers
              {| files := indexed_files state; all_documents := [];
                 indexed_count := O; ticks := O |} with
      | inl e => (inl e, d)
      | inr (_, s) =>
          match (match all_documents s with
                 | [] => None
                 | docs => embed docs
                 end) with
          | Some e => (inl e, d)
          | None =>
              (inr (indexed_count s),
               {| storage := storage d;
                  state_file :=
                    Some {| indexed_files := files s;
                            last_indexed := Some (now (ticks s)) |};
                  vector_db :=
                    match all_documents s with
                    | [] => vector_db d
                    | docs => Some docs
                    end |})
          end
      end
  end.

End Pipeline.

(** The ASCII digits, a digit class to run examples with. *)
Definition ascii_digit (c : N) : bool := (48 <=? c) && (c <=? 57).

End Indexer.

(** ** Python values as they appear in metadata dictionaries and in JSON *)

Module Py.

#[warnings="-register-all"]
Inductive value :=
| VNone
| VBool (b : bool)
| VInt (z : Z)
| VFloat (q : Q)
| VStr (s : pystr)
| VList (l : list value)
| VDict (d : list (pystr * value)).

Abbreviation dict := (list (pystr * value)).

Fixpoint dict_lookup (k : pystr) (d : dict) : option value :=
  match d with
  | [] => None
  | (k', v) :: rest => if bool_decide (k' = k) then Some v else dict_lookup k rest
  end.

(** [d.get(k, dflt)] *)
Definition dict_get (d : dict) (k : pystr) (dflt : value) : value :=
  default dflt (dict_lookup k d).

(** [json.dumps(v, ensure_ascii=False, indent=2)]: the text is kept as the
    value it serialises. *)
Inductive json_text := Dumps (v : value).

(** [a < b] on [str]: lexicographic on code points. *)
Fixpoint str_lt (a b : pystr) : bool :=
  match a, b with
  | _, [] => false
  | [], _ :: _ => true
  | x :: a', y :: b' => (x <? y) || ((x =? y) && str_lt a' b')
  end.

(** [needle in haystack] on [str]. *)
Fixpoint is_prefix (p s : pystr) : bool :=
  match p, s with
  | [], _ => true
  | _ :: _, [] => false
  | x :: p', y :: s' => (x =? y) && is_prefix p' s'
  end.

Fixpoint contains (needle haystack : pystr) : bool :=
  is_prefix needle haystack ||
  match haystack with
  | [] => false
  | _ :: rest => contains needle rest
  end.

(** [sorted(l, reverse=True)] and [l.sort(reverse=True)] for a strict order
    [lt]: descending, elements that compare equal keep their order. *)
Fixpoint insert_desc {A} (lt : A -> A -> bool) (x : A) (l : list A) : list A :=
  match l with
  | [] => [x]
  | y :: l' => if lt y x then x :: l else y :: insert_desc lt x l'
  end.

Definition sort_desc {A} (lt : A -> A -> bool) (l : list A) : list A :=
  fold_left (fun acc x => insert_desc lt x acc) l [].

End Py.
Import Py.

(** ** query.py *)

Module Query.

Record TextNode := { metadata : dict; text : pystr }.

Record NodeWithScore := { node : TextNode; score : option Q }.

Record Citation := {
  c_source : value;
  c_page : value;
  c_title : value;
  c_authors : value;
  c_year : value;
  c_text_snippet : pystr;
  c_score : Q;
}.

Record RAGResponse := { answer : pystr; citations : list Citation }.

(** [config["rag"]]: the entries the engine reads. *)
Record RagConfig := { top_k : nat; similarity_threshold : option Q }.

(** The engine.  [index] is the persisted vector store seen through a
    question: all its chunks, most similar first; [synthesize] is the
    response synthesizer behind the LLM. *)
Record ZoteroRAG := {
  rag_config : RagConfig;
  index : pystr -> list NodeWithScore;
  synthesize : pystr -> list NodeWithScore -> pystr;
}.

(** [VectorIndexRetriever(index, similarity_top_k).retrieve(question)]
    for [similarity_top_k >= 1], which is what the callers pass (the
    defaults 5 and 10, [rag_config["top_k"]]); what the library does at 0
    is not modelled. *)
Definition retrieve (rag : ZoteroRAG) (similarity_top_k : nat) (question : pystr)
    : list NodeWithScore :=
  take similarity_top_k (index rag question).

(** [node.score if node.score else 0.0] *)
Definition score_or_zero (s : option Q) : Q :=
  match s with
  | Some q => if Qeq_bool q 0 then 0%Q else q
  | None => 0%Q
  end.

Definition citation_of (n : NodeWithScore) : Citation :=
  let meta := metadata (node n) in
  {| c_source := dict_get meta (str "source") (VStr (str "Unknown"));
     c_page := dict_get meta (str "page") (VInt 0);
     c_title := dict_get meta (str "title") (VStr (str "Unknown"));
     c_authors := dict_get meta (str "authors") (VStr (str "Unknown"));
     c_year := dict_get meta (str "year") (VStr []);
     c_text_snippet := text (node n);
     c_score := score_or_zero (score n) |}.

Definition retrieve_only (rag : ZoteroRAG) (question : pystr) (top_k : nat)
    : list Citation :=
  List.map citation_of (retrieve rag top_k question).

(** Modelled from the llama_index library, which is not part of the
    repository: [SimilarityPostprocessor(similarity_cutoff)] keeps a node
    unless a cutoff is set and the node has no score or a score below it. *)
Definition similarity_postprocess (cutoff : option Q) (nodes : list NodeWithScore)
    : list NodeWithScore :=
  match cutoff with
  | None => nodes
  | Some c =>
      List.filter
        (fun n => match score n with
                  | Some q => Qle_bool c q
                  | None => false
                  end) nodes
  end.

(** [query]: the engine of [_create_query_engine] retrieves
    [rag_config["top_k"]] nodes, post-processes them, synthesises. *)
Definition query (rag : ZoteroRAG) (question : pystr) : RAGResponse :=
  let source_nodes :=
    similarity_postprocess (similarity_threshold (rag_config rag))
      (retrieve rag (top_k (rag_config rag)) question) in
  {| answer := synthesize rag question source_nodes;
     citations := List.map citation_of source_nodes |}.

End Query.

(** ** zotero_meta.py *)

Module ZoteroMeta.

Record itemCreators_row := {
  ic_itemID : Z; ic_creatorID : Z; ic_creatorTypeID : Z; ic_orderIndex : Z }.

Record creators_row := {
  c_creatorID : Z; firstName : option pystr; lastName : option pystr }.

Record creatorTypes_row := { ct_creatorTypeID : Z; creatorType : pystr }.

(** The three tables [_load_creators] reads. *)
Record Database := {
  itemCreators : list itemCreators_row;
  creators : list creators_row;
  creatorTypes : list creatorTypes_row;
}.

(** The fields of [PaperMetadata] the loader touches. *)
Record PaperMetadata := { item_key : pystr; authors : list pystr }.

(** A row of the join, with the column it is ordered by. *)
Record creator_row := {
  orderIndex : Z;
  row_firstName : option pystr;
  row_lastName : option pystr;
  row_creatorType : pystr;
}.

(** [FROM itemCreators ic JOIN creators c ON ... JOIN creatorTypes ct ON ...
     WHERE ic.itemID = ?] *)
Definition joined (db : Database) (item_id : Z) : list creator_row :=
  flat_map (fun ic =>
    flat_map (fun c =>
      flat_map (fun ct =>
        if bool_decide (ic_creatorID ic = c_creatorID c)
           && bool_decide (ic_creatorTypeID ic = ct_creatorTypeID ct)
           && bool_decide (ic_itemID ic = item_id)
        then [ {| orderIndex := ic_orderIndex ic; row_firstName := firstName c;
                  row_lastName := lastName c; row_creatorType := creatorType ct |} ]
        else [])
      (creatorTypes db))
    (creators db))
  (itemCreators db).

(** [ORDER BY ic.orderIndex]: ascending; rows with the same index stay in
    the order of the join. *)
Fixpoint insert_row (r : creator_row) (l : list creator_row) : list creator_row :=
  match l with
  | [] => [r]
  | r' :: l' =>
      if (orderIndex r <? orderIndex r')%Z then r :: l else r' :: insert_row r l'
  end.

Definition order_by_orderIndex (l : list creator_row) : list creator_row :=
  fold_left (fun acc r => insert_row r acc) l [].

(** The body of the [for row in cursor.fetchall()] loop: the name a row
    contributes, if any. *)
Definition creator_name (row : creator_row) : option pystr :=
  let first := default [] (row_firstName row) in
  let last := default [] (row_lastName row) in
  let name :=
    if truthy first && truthy last then first ++ str " " ++ last
    else if truthy last then last else first in
  if truthy name then Some name else None.

Definition _load_creators (db : Database) (item_id : Z) (md : PaperMetadata)
    : PaperMetadata :=
  {| item_key := item_key md;
     authors := authors md
                ++ omap creator_name (order_by_orderIndex (joined db item_id)) |}.

End ZoteroMeta.

(** ** mcp_server.py *)

Module Server.
Import Query.

Definition msg_no_results : pystr :=
  [26410; 25214; 21040; 30456; 20851; 25991; 29486].
Definition msg_no_state : pystr :=
  [32034; 24341; 29366; 24577; 25991; 20214; 19981; 23384; 22312; 65292;
   35831; 20808; 36816; 34892; 32; 105; 110; 100; 101; 120; 101; 114; 46;
   112; 121].
Definition msg_not_found_pre : pystr :=
  [26410; 25214; 21040; 26631; 39064; 21253; 21547; 32; 39].
Definition msg_not_found_post : pystr := [39; 32; 30340; 35770; 25991].

(** One entry of ["indexed_files"] as [indexer.py] writes it, with its
    four keys [title], [authors], [year] and [pages].  The defaults the
    tools pass to [.get] for an entry that lacks one of them (lines
    284-305, 430-434) are never reached on such a file and are not
    modelled; a file that is no JSON object is among the exceptions of
    [load_state] below. *)
Record FileInfo := {
  info_title : pystr;
  info_authors : pystr;
  info_year : pystr;
  info_pages : Z;
}.

(** [index_state.json] once loaded; the entries are in file order. *)
Record State := {
  state_indexed_files : list (pystr * FileInfo);
  state_last_indexed : value;
}.

(** [config.yaml]: the entry the tools read; [None] when
    [config["paths"]["cache_dir"]] is missing. *)
Record Config := { cache_dir : option pystr }.

(** What the tools reach outside themselves.  Each capability either gives
    its result or raises. *)
Record World := {
  (** [get_index()]: the exception raised, if any *)
  get_index : option exn;
  (** [VectorIndexRetriever(index, similarity_top_k=k).retrieve(q)] *)
  retriever_retrieve : nat -> pystr -> exn + list NodeWithScore;
  (** [load_config()] *)
  load_config : exn + Config;
  (** [state_file.exists()] for the state file of a cache directory *)
  state_file_exists : pystr -> bool;
  (** [open] and [json.load] of that file *)
  load_state : pystr -> exn + State;
  (** [round(x, 3)] on a float *)
  round3 : Q -> Q;
  (** [str.lower] *)
  lower : pystr -> pystr;
}.

Record SearchInput := { query : pystr; top_k : nat }.
Record GetPaperInput := { title_keyword : pystr }.
Record ListPapersInput := { year : option pystr; limit : nat }.

Definition VS (s : string) : value := VStr (str s).

(** The dictionary of every [except Exception as e] handler. *)
Definition error_envelope (e : exn) : value :=
  VDict [ (str "status", VS "error"); (str "message", VStr (exn_str e)) ].

Definition handler (e : exn) : exn + json_text :=
  mret (Dumps (error_envelope e)).

Definition raise_opt (o : option exn) : exn + unit :=
  match o with Some e => inl e | None => inr tt end.

(** [config["paths"]["cache_dir"]] *)
Definition config_cache_dir (c : Config) : exn + pystr :=
  match cache_dir c with
  | Some p => inr p
  | None => inl (Raise (str "KeyError") (str "'cache_dir'"))
  end.

(** [title.lower()], which only a [str] has; the message of the
    exception is kept without the name of the type. *)
Definition as_str (v : value) : exn + pystr :=
  match v with
  | VStr s => inr s
  | _ => inl (Raise (str "AttributeError") (str "object has no attribute 'lower'"))
  end.

(** [node.node.text[:500] + "..." if len(node.node.text) > 500 else node.node.text] *)
Definition snippet (t : pystr) : pystr :=
  if (500 <? length t)%nat then take 500 t ++ str "..." else t.

Definition search_result (w : World) (n : NodeWithScore) : value :=
  let meta := metadata (node n) in
  VDict [ (str "title", dict_get meta (str "title") (VS "Unknown"));
          (str "authors", dict_get meta (str "authors") (VS "Unknown"));
          (str "year", dict_get meta (str "year") (VStr []));
          (str "page", dict_get meta (str "page") (VInt 0));
          (str "relevance_score",
             match score n with
             | Some q => if Qeq_bool q 0 then VInt 0 else VFloat (round3 w q)
             | None => VInt 0
             end);
          (str "snippet", VStr (snippet (text (node n)))) ].

(** The [try] block of [zotero_search]. *)
Definition zotero_search_body (w : World) (params : SearchInput) : exn + json_text :=
  _ ← raise_opt (get_index w);
  nodes ← retriever_retrieve w (top_k params) (query params);
  match nodes with
  | [] =>
      mret (Dumps (VDict [ (str "status", VS "no_results");
                           (str "message", VStr msg_no_results);
                           (str "query", VStr (query params)) ]))
  | _ =>
      let results := List.map (search_result w) nodes in
      mret (Dumps (VDict [ (str "status", VS "success");
                           (str "query", VStr (query params));
                           (str "total_results", VInt (Z.of_nat (length results)));
                           (str "results", VList results) ]))
  end.

Definition zotero_search (w : World) (params : SearchInput) : exn + json_text :=
  try_except (zotero_search_body w params) handler.

(** [years[y] = years.get(y, 0) + 1] *)
Fixpoint count_year (y : pystr) (years : list (pystr * Z)) : list (pystr * Z) :=
  match years with
  | [] => [(y, 1%Z)]
  | (y', n) :: rest =>
      if bool_decide (y' = y) then (y', (n + 1)%Z) :: rest
      else (y', n) :: count_year y rest
  end.

Definition year_histogram (fs : list (pystr * FileInfo)) : list (pystr * Z) :=
  fold_left (fun years e => count_year (info_year (snd e)) years) fs [].

(** [dict(sorted(years.items(), reverse=True))] *)
Definition papers_by_year (fs : list (pystr * FileInfo)) : value :=
  VDict (List.map (fun e => (fst e, VInt (snd e)))
           (sort_desc (fun a b => str_lt (fst a) (fst b)) (year_histogram fs))).

Definition paper_entry (e : pystr * FileInfo) : (pystr * pystr) * value :=
  ((info_year (snd e), info_title (snd e)),
   VDict [ (str "title", VStr (info_title (snd e)));
           (str "authors", VStr (info_authors (snd e)));
           (str "year", VStr (info_year (snd e)));
           (str "pages", VInt (info_pages (snd e)));
           (str "zotero_key", VStr (fst e)) ]).

(** The sort key [(year, title)] compared as tuples. *)
Definition key_lt (a b : pystr * pystr) : bool :=
  str_lt (fst a) (fst b)
  || (bool_decide (fst a = fst b) && str_lt (snd a) (snd b)).

(** [if params.year and info.get("year") != params.year: continue] *)
Definition year_selected (filter : option pystr) (e : pystr * FileInfo) : bool :=
  match filter with
  | Some y => negb (truthy y) || bool_decide (info_year (snd e) = y)
  | None => true
  end.

(** The [try] block of [zotero_list_papers]. *)
Definition zotero_list_papers_body (w : World) (params : ListPapersInput)
    : exn + json_text :=
  config ← load_config w;
  dir ← config_cache_dir config;
  if negb (state_file_exists w dir) then
    mret (Dumps (VDict [ (str "status", VS "error");
                         (str "message", VStr msg_no_state) ]))
  else
    state ← load_state w dir;
    let fs := state_indexed_files state in
    let papers :=
      List.map paper_entry (List.filter (year_selected (year params)) fs) in
    let papers := sort_desc (fun a b => key_lt (fst a) (fst b)) papers in
    let papers := take (limit params) (List.map snd papers) in
    mret (Dumps (VDict [
      (str "status", VS "success");
      (str "total_in_library", VInt (Z.of_nat (length fs)));
      (str "returned", VInt (Z.of_nat (length papers)));
      (str "year_filter", match year params with Some y => VStr y | None => VNone end);
      (str "papers_by_year", papers_by_year fs);
      (str "papers", VList papers) ])).

Definition zotero_list_papers (w : World) (params : ListPapersInput)
    : exn + json_text :=
  try_except (zotero_list_papers_body w params) handler.

(** One value of the [papers] dictionary of [zotero_get_paper_content]. *)
Record PaperGroup := {
  g_title : pystr;
  g_authors : value;
  g_year : value;
  g_total_pages : value;
  excerpts : list value;
}.

(** [papers[title]["excerpts"].append(x)], creating [papers[title]] first
    when the title is new. *)
Fixpoint add_excerpt (title : pystr) (fresh : PaperGroup) (x : value)
    (papers : list (pystr * PaperGroup)) : list (pystr * PaperGroup) :=
  match papers with
  | [] =>
      [(title, {| g_title := g_title fresh; g_authors := g_authors fresh;
                  g_year := g_year fresh; g_total_pages := g_total_pages fresh;
                  excerpts := excerpts fresh ++ [x] |})]
  | (t, g) :: rest =>
      if bool_decide (t = title) then
        (t, {| g_title := g_title g; g_authors := g_authors g;
               g_year := g_year g; g_total_pages := g_total_pages g;
               excerpts := excerpts g ++ [x] |}) :: rest
      else (t, g) :: add_excerpt title fresh x rest
  end.

(** The [for node in nodes] loop of [zotero_get_paper_content]. *)
Fixpoint group_by_title (w : World) (keyword : pystr) (nodes : list NodeWithScore)
    (papers : list (pystr * PaperGroup)) : exn + list (pystr * PaperGroup) :=
  match nodes with
  | [] => inr papers
  | n :: rest =>
      let meta := metadata (node n) in
      title ← as_str (dict_get meta (str "title") (VS "Unknown"));
      if negb (contains (lower w keyword) (lower w title)) then
        group_by_title w keyword rest papers
      else
        group_by_title w keyword rest
          (add_excerpt title
             {| g_title := title;
                g_authors := dict_get meta (str "authors") (VS "Unknown");
                g_year := dict_get meta (str "year") (VStr []);
                g_total_pages := dict_get meta (str "total_pages") (VInt 0);
                excerpts := [] |}
             (VDict [ (str "page", dict_get meta (str "page") (VInt 0));
                      (str "content", VStr (text (node n))) ])
             papers)
  end.

Definition group_value (g : PaperGroup) : value :=
  VDict [ (str "title", VStr (g_title g)); (str "authors", g_authors g);
          (str "year", g_year g); (str "total_pages", g_total_pages g);
          (str "excerpts", VList (excerpts g)) ].

(** The [try] block of [zotero_get_paper_content]. *)
Definition zotero_get_paper_content_body (w : World) (params : GetPaperInput)
    : exn + json_text :=
  _ ← raise_opt (get_index w);
  nodes ← retriever_retrieve w 10 (title_keyword params);
  papers ← group_by_title w (title_keyword params) nodes [];
  match papers with
  | [] =>
      mret (Dumps (VDict [
        (str "status", VS "not_found");
        (str "message",
           VStr (msg_not_found_pre ++ title_keyword params ++ msg_not_found_post)) ]))
  | _ =>
      mret (Dumps (VDict [
        (str "status", VS "success");
        (str "papers", VList (List.map (fun e => group_value (snd e)) papers)) ]))
  end.

Definition zotero_get_paper_content (w : World) (params : GetPaperInput)
    : exn + json_text :=
  try_except (zotero_get_paper_content_body w params) handler.





End Server.

(** ** Concrete inputs used in examples *)

Module Examples.
Import Indexer.

Definition KEY : pystr := str "3GPQD2K2".

(** A parser that rejects an empty file and finds three pages, the second
    one blank, in any other. *)
Definition fitz_demo (content : list byte) : exn + list (exn + pystr) :=
  match content with
  | [] => inl (Raise (str "FileDataError") (str "cannot open empty document"))
  | _ => inr [inr (str "Intro"); inr (str "  "); inr (str "End")]
  end.

Definition embed_ok (docs : list Document) : option exn := None.

Definition clock (n : nat) : pystr := str "2025-01-01T00:00:00".

(** [storage/3GPQD2K2/Lee - 2025 - Dropout.pdf] *)
Definition storage_one : option node :=
  Some (Dir [ (KEY, Dir [ (str "Lee - 2025 - Dropout.pdf", File [x01]) ]) ]).

Definition paper_lee : PaperInfo :=
  {| authors := str "Lee"; year := str "2025"; title := str "Dropout";
     zotero_key := KEY; file_path := [KEY; str "Lee - 2025 - Dropout.pdf"] |}.

(** Two different PDFs in the directory of one item. *)
Definition storage_two : option node :=
  Some (Dir [ (KEY, Dir [ (str "a.pdf", File [x01]); (str "b.pdf", File [x02]) ]) ]).

(** A directory whose name is a key followed by a line feed. *)
Definition storage_newline_key : option node :=
  Some (Dir [ (KEY ++ [LF], Dir [ (str "paper.pdf", File [x01]) ]) ]).

Definition stale_record : IndexedFileRecord :=
  {| rec_hash := Some (str "0123456789abcdef0123456789abcdef");
     rec_indexed_at := str "2024-06-01T12:00:00";
     rec_title := str "Gone"; rec_authors := str "Nobody";
     rec_year := str "2020"; rec_pages := 3%nat |}.

Definition stale_state : IndexState :=
  {| indexed_files := {[ str "OLDKEY01" := stale_record ]};
     last_indexed := Some (str "2024-06-01T12:00:00") |}.

Definition disk_fresh (root : option node) : Disk :=
  {| storage := root; state_file := None; vector_db := None |}.

(** A storage directory emptied since the last run. *)
Definition disk_emptied : Disk :=
  {| storage := Some (Dir []); state_file := Some stale_state; vector_db := None |}.

Definition disk_stale_one : Disk :=
  {| storage := storage_one; state_file := Some stale_state; vector_db := None |}.

Definition run (d : Disk) (force : bool) : (exn + nat) * Disk :=
  index_papers ascii_digit true fitz_demo embed_ok clock d force.




(** A chunk of the store with a similarity score. *)
Definition chunk (page : Z) (s : Q) : Query.NodeWithScore :=
  {| Query.node :=
       {| Query.metadata :=
            [ (str "title", VStr (str "Dropout")); (str "authors", VStr (str "Lee"));
              (str "year", VStr (str "2025")); (str "page", VInt page) ];
          Query.text := str "chunk" |};
     Query.score := Some s |}.

(** An engine with cutoff 0.5 whose store ranks three chunks with scores
    0.9, 0.75 and 0.4. *)
Definition rag_demo : Query.ZoteroRAG :=
  {| Query.rag_config :=
       {| Query.top_k := 5%nat; Query.similarity_threshold := Some (1 # 2)%Q |};
     Query.index := fun _ => [chunk 1 (9 # 10); chunk 2 (3 # 4); chunk 3 (2 # 5)];
     Query.synthesize := fun _ _ => str "answer" |}.

End Examples.

(** ** Vocabulary of the statements *)

Module Spec.
Import Indexer.

(** [matches subject r s s' cs]: [r] can consume the prefix of [s] that
    leaves [s'], closing the groups [cs] on the way. *)
Fixpoint matches (subject : pystr) (r : re) (s s' : pystr) (cs : list pystr) : Prop :=
  match r with
  | Bol => s' = s /\ cs = [] /\ length s = length subject
  | Eol => s' = s /\ cs = [] /\ (s = [] \/ s = [LF])
  | Cls p => exists c, s = c :: s' /\ p c = true /\ cs = []
  | Star p => exists w, s = w ++ s' /\ forallb p w = true /\ cs = []
  | Plus _ p => exists w, s = w ++ s' /\ w <> [] /\ forallb p w = true /\ cs = []
  | Rep n p => exists w, s = w ++ s' /\ length w = n /\ forallb p w = true /\ cs = []
  | Grp r1 =>
      exists cs1, matches subject r1 s s' cs1
                  /\ cs = cs1 ++ [take (length s - length s') s]
  | Cat r1 r2 =>
      exists s1 c1 c2, matches subject r1 s s1 c1 /\ matches subject r2 s1 s' c2
                       /\ cs = c1 ++ c2
  end.

(** What follows the authors in a stem that reads
    [authors dash year dash title]: blanks, a dash, blanks, four digits,
    blanks, a dash, blanks, a title without line feed, and the end of the
    string or the line feed that ends it. *)
Definition reads_tail (isdecimal : N -> bool) (s y t : pystr) : Prop :=
  exists ws1 d1 ws2 ws3 d2 ws4 nl,
    s = ws1 ++ d1 :: ws2 ++ y ++ ws3 ++ d2 :: ws4 ++ t ++ nl
    /\ forallb isspace ws1 = true /\ isdash d1 = true
    /\ forallb isspace ws2 = true
    /\ length y = 4%nat /\ forallb isdecimal y = true
    /\ forallb isspace ws3 = true /\ isdash d2 = true
    /\ forallb isspace ws4 = true
    /\ t <> [] /\ forallb dot t = true
    /\ (nl = [] \/ nl = [LF]).

(** The pattern after its first group. *)
Definition filename_tail (isdecimal : N -> bool) : re :=
  Star isspace ⋅ Cls isdash ⋅ Star isspace ⋅ Grp (Rep 4 isdecimal)
    ⋅ Star isspace ⋅ Cls isdash ⋅ Star isspace ⋅ Grp (Plus Greedy dot) ⋅ Eol.

(** [name] reads [a dash y dash t]. *)
Definition reads_as (isdecimal : N -> bool) (name a y t : pystr) : Prop :=
  exists rest, name = a ++ rest /\ a <> [] /\ forallb dot a = true
               /\ reads_tail isdecimal rest y t.

(** [a] is the shortest authors part under which [name] can be read. *)
Definition shortest_authors (isdecimal : N -> bool) (name a : pystr) : Prop :=
  forall a' y' t', reads_as isdecimal name a' y' t' -> (length a <= length a')%nat.

(** The pages of a document that are not made of blanks only, each with
    its 1-based number, in page order. *)
Definition nonblank_pages (texts : list pystr) : list (nat * pystr) :=
  List.filter (fun it => negb (forallb isspace (snd it)))
    (combine (seq 1 (length texts)) texts).

(** A document needs no work in a run that does not force: its
    fingerprint is the recorded one, or its extraction fails. *)
Definition settled (fitz_open : list byte -> exn + list (exn + pystr))
    (root : option node) (fs : gmap pystr IndexedFileRecord) (p : PaperInfo) : Prop :=
  exists h, get_file_hash root (file_path p) = inr h
    /\ ((exists r, fs !! zotero_key p = Some r /\ rec_hash r = Some h)
        \/ returns (extract_pdf_by_pages fitz_open root p) = false).

(** A name column that is neither NULL nor empty. *)
Definition present (o : option pystr) : bool := truthy (default [] o).

(** A creator with at least one of its two names. *)
Definition has_name (r : ZoteroMeta.creator_row) : bool :=
  present (ZoteroMeta.row_firstName r) || present (ZoteroMeta.row_lastName r).

(** The entry a creator with a name contributes to the authors list. *)
Definition listed_as (r : ZoteroMeta.creator_row) (n : pystr) : Prop :=
  let first := default [] (ZoteroMeta.row_firstName r) in
  let last := default [] (ZoteroMeta.row_lastName r) in
  match present (ZoteroMeta.row_firstName r), present (ZoteroMeta.row_lastName r) with
  | true, true => n = first ++ str " " ++ last
  | true, false => n = first
  | false, true => n = last
  | false, false => False
  end.

Definition by_orderIndex (a b : ZoteroMeta.creator_row) : Prop :=
  (ZoteroMeta.orderIndex a <= ZoteroMeta.orderIndex b)%Z.


End Spec.
Import Spec.

(** ** [re.search] and [re.sub] *)

Module ReMore.

(** [re.search(pattern, s)]: the groups of the first position, from the
    left, at which the pattern matches. *)
Fixpoint search_from (subject : pystr) (r : re) (s : pystr) : option (list pystr) :=
  match exec subject r s [] (fun _ caps => Some caps) with
  | Some m => Some m
  | None =>
      match s with
      | [] => None
      | _ :: s' => search_from subject r s'
      end
  end.

Definition re_search (r : re) (s : pystr) : option (list pystr) :=
  search_from s r s.

(** [re.sub(pattern, repl, s)] with a literal replacement, for a pattern
    that matches no empty string (the one pattern the sources substitute
    needs three characters): at each position the match, if any, is
    replaced and scanning resumes after it; otherwise the character is
    kept. *)
Fixpoint sub_from (fuel : nat) (subject : pystr) (r : re) (repl : pystr)
    (s : pystr) : pystr :=
  match fuel with
  | O => s
  | S fuel' =>
      match s with
      | [] => []
      | c :: s' =>
          match exec subject r s [] (fun rest _ => Some rest) with
          | Some rest => repl ++ sub_from fuel' subject r repl rest
          | None => c :: sub_from fuel' subject r repl s'
          end
      end
  end.

Definition re_sub (r : re) (repl : pystr) (s : pystr) : pystr :=
  sub_from (length s) s r repl s.

End ReMore.
Import ReMore.

(** ** zotero_meta.py: the items of the library *)

Module ZoteroItems.

Definition LT : N := 60.
Definition GT : N := 62.
Definition SLASH : N := 47.

(** The tables of [zotero.sqlite] the extractor reads, beside those of the
    creators. *)
Record items_row := { itemID : Z; key : pystr; itemTypeID : Z }.
Record itemTypes_row := { it_itemTypeID : Z; typeName : pystr }.
Record itemData_row := { id_itemID : Z; id_fieldID : Z; id_valueID : Z }.
Record itemDataValues_row := { valueID : Z; value : pystr }.
Record fields_row := { fieldID : Z; fieldName : pystr }.
Record itemTags_row := { tag_itemID : Z; tag_tagID : Z }.
Record tags_row := { tagID : Z; name : pystr }.
Record itemNotes_row := {
  in_itemID : Z; in_parentItemID : option Z; note : option pystr }.
Record itemAttachments_row := {
  ia_itemID : Z; ia_parentItemID : option Z; path : option pystr }.

Record Library := {
  creator_tables : ZoteroMeta.Database;
  items : list items_row;
  itemTypes : list itemTypes_row;
  deletedItems : list Z;
  itemData : list itemData_row;
  itemDataValues : list itemDataValues_row;
  fields : list fields_row;
  itemTags : list itemTags_row;
  tags_table : list tags_row;
  itemNotes : list itemNotes_row;
  itemAttachments : list itemAttachments_row;
}.

(** The dataclass [PaperMetadata] with all its fields. *)
Record PaperMetadata := {
  item_key : pystr;
  title : pystr;
  authors : list pystr;
  year : pystr;
  date : pystr;
  journal : pystr;
  volume : pystr;
  issue : pystr;
  pages : pystr;
  doi : pystr;
  url : pystr;
  isbn : pystr;
  issn : pystr;
  abstract : pystr;
  tags : list pystr;
  notes : list pystr;
  item_type : pystr;
  attachments : list pystr;
}.

Definition set_title (v : pystr) (m : PaperMetadata) : PaperMetadata :=
  {| item_key := item_key m; title := v; authors := authors m;
     year := year m; date := date m; journal := journal m;
     volume := volume m; issue := issue m; pages := pages m; doi := doi m;
     url := url m; isbn := isbn m; issn := issn m; abstract := abstract m;
     tags := tags m; notes := notes m; item_type := item_type m;
     attachments := attachments m |}.

Definition set_authors (v : list pystr) (m : PaperMetadata) : PaperMetadata :=
  {| item_key := item_key m; title := title m; authors := v; year := year m;
     date := date m; journal := journal m; volume := volume m;
     issue := issue m; pages := pages m; doi := doi m; url := url m;
     isbn := isbn m; issn := issn m; abstract := abstract m; tags := tags m;
     notes := notes m; item_type := item_type m;
     attachments := attachments m |}.

Definition set_year (v : pystr) (m : PaperMetadata) : PaperMetadata :=
  {| item_key := item_key m; title := title m; authors := authors m;
     year := v; date := date m; journal := journal m; volume := volume m;
     issue := issue m; pages := pages m; doi := doi m; url := url m;
     isbn := isbn m; issn := issn m; abstract := abstract m; tags := tags m;
     notes := notes m; item_type := item_type m;
     attachments := attachments m |}.

Definition set_date (v : pystr) (m : PaperMetadata) : PaperMetadata :=
  {| item_key := item_key m; title := title m; authors := authors m;
     year := year m; date := v; journal := journal m; volume := volume m;
     issue := issue m; pages := pages m; doi := doi m; url := url m;
     isbn := isbn m; issn := issn m; abstract := abstract m; tags := tags m;
     notes := notes m; item_type := item_type m;
     attachments := attachments m |}.

Definition set_journal (v : pystr) (m : PaperMetadata) : PaperMetadata :=
  {| item_key := item_key m; title := title m; authors := authors m;
     year := year m; date := date m; journal := v; volume := volume m;
     issue := issue m; pages := pages m; doi := doi m; url := url m;
     isbn := isbn m; issn := issn m; abstract := abstract m; tags := tags m;
     notes := notes m; item_type := item_type m;
     attachments := attachments m |}.

Definition set_volume (v : pystr) (m : PaperMetadata) : PaperMetadata :=
  {| item_key := item_key m; title := title m; authors := authors m;
     year := year m; date := date m; journal := journal m; volume := v;
     issue := issue m; pages := pages m; doi := doi m; url := url m;
     isbn := isbn m; issn := issn m; abstract := abstract m; tags := tags m;
     notes := notes m; item_type := item_type m;
     attachments := attachments m |}.

Definition set_issue (v : pystr) (m : PaperMetadata) : PaperMetadata :=
  {| item_key := item_key m; title := title m; authors := authors m;
     year := year m; date := date m; journal := journal m;
     volume := volume m; issue := v; pages := pages m; doi := doi m;
     url := url m; isbn := isbn m; issn := issn m; abstract := abstract m;
     tags := tags m; notes := notes m; item_type := item_type m;
     attachments := attachments m |}.

Definition set_pages (v : pystr) (m : PaperMetadata) : PaperMetadata :=
  {| item_key := item_key m; title := title m; authors := authors m;
     year := year m; date := date m; journal := journal m;
     volume := volume m; issue := issue m; pages := v; doi := doi m;
     url := url m; isbn := isbn m; issn := issn m; abstract := abstract m;
     tags := tags m; notes := notes m; item_type := item_type m;
     attachments := attachments m |}.

Definition set_doi (v : pystr) (m : PaperMetadata) : PaperMetadata :=
  {| item_key := item_key m; title := title m; authors := authors m;
     year := year m; date := date m; journal := journal m;
     volume := volume m; issue := issue m; pages := pages m; doi := v;
     url := url m; isbn := isbn m; issn := issn m; abstract := abstract m;
     tags := tags m; notes := notes m; item_type := item_type m;
     attachments := attachments m |}.

Definition set_url (v : pystr) (m : PaperMetadata) : PaperMetadata :=
  {| item_key := item_key m; title := title m; authors := authors m;
     year := year m; date := date m; journal := journal m;
     volume := volume m; issue := issue m; pages := pages m; doi := doi m;
     url := v; isbn := isbn m; issn := issn m; abstract := abstract m;
     tags := tags m; notes := notes m; item_type := item_type m;
     attachments := attachments m |}.

Definition set_isbn (v : pystr) (m : PaperMetadata) : PaperMetadata :=
  {| item_key := item_key m; title := title m; authors := authors m;
     year := year m; date := date m; journal := journal m;
     volume := volume m; issue := issue m; pages := pages m; doi := doi m;
     url := url m; isbn := v; issn := issn m; abstract := abstract m;
     tags := tags m; notes := notes m; item_type := item_type m;
     attachments := attachments m |}.

Definition set_issn (v : pystr) (m : PaperMetadata) : PaperMetadata :=
  {| item_key := item_key m; title := title m; authors := authors m;
     year := year m; date := date m; journal := journal m;
     volume := volume m; issue := issue m; pages := pages m; doi := doi m;
     url := url m; isbn := isbn m; issn := v; abstract := abstract m;
     tags := tags m; notes := notes m; item_type := item_type m;
     attachments := attachments m |}.

Definition set_abstract (v : pystr) (m : PaperMetadata) : PaperMetadata :=
  {| item_key := item_key m; title := title m; authors := authors m;
     year := year m; date := date m; journal := journal m;
     volume := volume m; issue := issue m; pages := pages m; doi := doi m;
     url := url m; isbn := isbn m; issn := issn m; abstract := v;
     tags := tags m; notes := notes m; item_type := item_type m;
     attachments := attachments m |}.

Definition set_tags (v : list pystr) (m : PaperMetadata) : PaperMetadata :=
  {| item_key := item_key m; title := title m; authors := authors m;
     year := year m; date := date m; journal := journal m;
     volume := volume m; issue := issue m; pages := pages m; doi := doi m;
     url := url m; isbn := isbn m; issn := issn m; abstract := abstract m;
     tags := v; notes := notes m; item_type := item_type m;
     attachments := attachments m |}.

Definition set_notes (v : list pystr) (m : PaperMetadata) : PaperMetadata :=
  {| item_key := item_key m; title := title m; authors := authors m;
     year := year m; date := date m; journal := journal m;
     volume := volume m; issue := issue m; pages := pages m; doi := doi m;
     url := url m; isbn := isbn m; issn := issn m; abstract := abstract m;
     tags := tags m; notes := v; item_type := item_type m;
     attachments := attachments m |}.

Definition set_attachments (v : list pystr) (m : PaperMetadata) : PaperMetadata :=
  {| item_key := item_key m; title := title m; authors := authors m;
     year := year m; date := date m; journal := journal m;
     volume := volume m; issue := issue m; pages := pages m; doi := doi m;
     url := url m; isbn := isbn m; issn := issn m; abstract := abstract m;
     tags := tags m; notes := notes m; item_type := item_type m;
     attachments := v |}.

(** [PaperMetadata(item_key=item_key, item_type=item_type)] *)
Definition new_metadata (item_key item_type : pystr) : PaperMetadata :=
  {| item_key := item_key; title := []; authors := []; year := []; date := [];
     journal := []; volume := []; issue := []; pages := []; doi := [];
     url := []; isbn := []; issn := []; abstract := []; tags := [];
     notes := []; item_type := item_type; attachments := [] |}.

(** [itemID NOT IN (SELECT itemID FROM deletedItems)] *)
Definition not_deleted (lib : Library) (id : Z) : bool :=
  negb (bool_decide (id ∈ deletedItems lib)).

(** The query of [_load_fields]: the (fieldName, value) rows of an item. *)
Definition field_rows (lib : Library) (item_id : Z) : list (pystr * pystr) :=
  flat_map (fun d =>
    flat_map (fun iv =>
      flat_map (fun f =>
        if bool_decide (id_valueID d = valueID iv)
           && bool_decide (id_fieldID d = fieldID f)
           && bool_decide (id_itemID d = item_id)
        then [ (fieldName f, value iv) ] else [])
      (fields lib))
    (itemDataValues lib))
  (itemData lib).

(** The [if]/[elif] chain of [_load_fields]. *)
Definition set_field (row : pystr * pystr) (m : PaperMetadata) : PaperMetadata :=
  let field_name := fst row in
  let value := snd row in
  if bool_decide (field_name = str "title") then set_title value m
  else if bool_decide (field_name = str "date") then set_date value m
  else if bool_decide (field_name = str "DOI") then set_doi value m
  else if bool_decide (field_name = str "url") then set_url value m
  else if bool_decide (field_name = str "abstractNote") then set_abstract value m
  else if bool_decide (field_name = str "publicationTitle") then set_journal value m
  else if bool_decide (field_name = str "volume") then set_volume value m
  else if bool_decide (field_name = str "issue") then set_issue value m
  else if bool_decide (field_name = str "pages") then set_pages value m
  else if bool_decide (field_name = str "ISBN") then set_isbn value m
  else if bool_decide (field_name = str "ISSN") then set_issn value m
  else m.

Definition _load_fields (lib : Library) (item_id : Z) (m : PaperMetadata)
    : PaperMetadata :=
  fold_left (fun m row => set_field row m) (field_rows lib item_id) m.

(** [_load_creators], through the loader of the creators' tables. *)
Definition _load_creators (lib : Library) (item_id : Z) (m : PaperMetadata)
    : PaperMetadata :=
  set_authors
    (ZoteroMeta.authors
       (ZoteroMeta._load_creators (creator_tables lib) item_id
          {| ZoteroMeta.item_key := item_key m; ZoteroMeta.authors := authors m |}))
    m.

(** [_load_tags]; the query has no [ORDER BY]: the rows are taken in the
    order of the [itemTags] table, where SQLite may return them in the
    order of its primary key. *)
Definition _load_tags (lib : Library) (item_id : Z) (m : PaperMetadata)
    : PaperMetadata :=
  set_tags
    (tags m ++
     flat_map (fun it =>
       flat_map (fun t =>
         if bool_decide (tag_tagID it = tagID t)
            && bool_decide (tag_itemID it = item_id)
         then [name t] else [])
       (tags_table lib))
     (itemTags lib))
    m.

(** [r'<[^>]+>'] *)
Definition tag_pattern : re :=
  Cls (fun c => c =? LT) ⋅ Plus Greedy (fun c => negb (c =? GT))
    ⋅ Cls (fun c => c =? GT).

(** The body of the loop of [_load_notes]: what a note adds, if anything. *)
Definition clean_note (note : option pystr) : option pystr :=
  match note with
  | None => None
  | Some n =>
      if truthy n then
        let clean := strip (re_sub tag_pattern [] n) in
        if truthy clean then Some clean else None
      else None
  end.

(** The query of [_load_notes]. *)
Definition note_rows (lib : Library) (item_id : Z) : list (option pystr) :=
  flat_map (fun n =>
    flat_map (fun i =>
      if bool_decide (in_itemID n = itemID i)
         && bool_decide (in_parentItemID n = Some item_id)
         && not_deleted lib (itemID i)
      then [note n] else [])
    (items lib))
  (itemNotes lib).

Definition _load_notes (lib : Library) (item_id : Z) (m : PaperMetadata)
    : PaperMetadata :=
  set_notes (notes m ++ omap clean_note (note_rows lib item_id)) m.

(** The query of [_load_attachments]: (path, key) rows. *)
Definition attachment_rows (lib : Library) (item_id : Z)
    : list (option pystr * pystr) :=
  flat_map (fun a =>
    flat_map (fun i =>
      if bool_decide (ia_itemID a = itemID i)
         && bool_decide (ia_parentItemID a = Some item_id)
         && not_deleted lib (itemID i)
      then [(path a, key i)] else [])
    (items lib))
  (itemAttachments lib).

(** The body of the loop of [_load_attachments]: [key/filename] for a
    path of the form [storage:filename]. *)
Definition attachment_entry (row : option pystr * pystr) : option pystr :=
  match fst row with
  | None => None
  | Some p =>
      if truthy p && is_prefix (str "storage:") p
      then Some (snd row ++ [SLASH] ++ drop 8 p)
      else None
  end.

Definition _load_attachments (lib : Library) (item_id : Z) (m : PaperMetadata)
    : PaperMetadata :=
  set_attachments
    (attachments m ++ omap attachment_entry (attachment_rows lib item_id)) m.

Section Items.
(** [\d] on a [str] pattern. *)
Variable isdecimal : N -> bool.

(** [r'(\d{4})'] *)
Definition year_pattern : re := Grp (Rep 4 isdecimal).

(** The year of lines 174-177. *)
Definition parse_year (m : PaperMetadata) : PaperMetadata :=
  if truthy (date m) then
    match re_search year_pattern (date m) with
    | Some year_match => set_year (group year_match 1) m
    | None => m
    end
  else m.

(** The rows of the first query of [get_all_items]. *)
Definition item_rows (lib : Library) : list (Z * pystr * pystr) :=
  flat_map (fun i =>
    flat_map (fun it =>
      if bool_decide (itemTypeID i = it_itemTypeID it)
         && negb (bool_decide
                    (typeName it ∈ [str "attachment"; str "note"; str "annotation"]))
         && not_deleted lib (itemID i)
      then [(itemID i, key i, typeName it)] else [])
    (itemTypes lib))
  (items lib).

(** [d[k] = v] on a dictionary kept as the list of its entries in
    insertion order. *)
Fixpoint dict_set {A} (k : pystr) (v : A) (d : list (pystr * A)) : list (pystr * A) :=
  match d with
  | [] => [(k, v)]
  | (k', v') :: rest =>
      if bool_decide (k' = k) then (k', v) :: rest else (k', v') :: dict_set k v rest
  end.

(** [d.get(k)] *)
Fixpoint dict_find {A} (k : pystr) (d : list (pystr * A)) : option A :=
  match d with
  | [] => None
  | (k', v) :: rest => if bool_decide (k' = k) then Some v else dict_find k rest
  end.

(** The metadata [get_all_items] builds for one row. *)
Definition item_metadata (lib : Library) (row : Z * pystr * pystr) : PaperMetadata :=
  let '(item_id, item_key, item_type) := row in
  parse_year
    (_load_attachments lib item_id
       (_load_notes lib item_id
          (_load_tags lib item_id
             (_load_creators lib item_id
                (_load_fields lib item_id (new_metadata item_key item_type)))))).

Definition get_all_items (lib : Library) : list (pystr * PaperMetadata) :=
  fold_left (fun items row => dict_set (snd (fst row)) (item_metadata lib row) items)
    (item_rows lib) [].

(** [get_item_by_attachment_key]: [fetchone] is the first row. *)
Definition get_item_by_attachment_key (lib : Library) (attachment_key : pystr)
    : option PaperMetadata :=
  let rows :=
    flat_map (fun a =>
      flat_map (fun i =>
        if bool_decide (ia_itemID a = itemID i)
           && bool_decide (key i = attachment_key)
        then [ia_parentItemID a] else [])
      (items lib))
    (itemAttachments lib) in
  match rows with
  | [] => None
  | None :: _ => None
  | Some parent_id :: _ =>
      if bool_decide (parent_id = 0%Z) then None
      else
        match List.filter (fun i => bool_decide (itemID i = parent_id)) (items lib) with
        | [] => None
        | parent :: _ => dict_find (key parent) (get_all_items lib)
        end
  end.

End Items.

(** [attachment.split('/')[0]] *)
Fixpoint before_slash (s : pystr) : pystr :=
  match s with
  | [] => []
  | c :: s' => if c =? SLASH then [] else c :: before_slash s'
  end.

(** [build_attachment_mapping] *)
Definition build_attachment_mapping (items : list (pystr * PaperMetadata))
    : list (pystr * PaperMetadata) :=
  fold_left (fun mapping item =>
    fold_left (fun mapping attachment =>
                 dict_set (before_slash attachment) (snd item) mapping)
      (attachments (snd item)) mapping)
    items [].

End ZoteroItems.

(** ** Concrete inputs of the further examples *)

Module MoreExamples.
Import Indexer Examples.

(** An item directory in which an entry named [*.pdf] is a directory. *)
Definition storage_pdf_dir : option node :=
  Some (Dir [ (KEY, Dir [ (str "a.pdf", File [x01]); (str "b.pdf", Dir []) ]) ]).

(** What [parse_filename] makes of [b.pdf] in the directory of [KEY]. *)
Definition paper_b : PaperInfo :=
  {| authors := str "Unknown"; year := []; title := str "b";
     zotero_key := KEY; file_path := [KEY; str "b.pdf"] |}.

(** A state file with three entries, two of them of 2025. *)
Definition state_demo : Server.State :=
  {| Server.state_indexed_files :=
       [ (KEY, {| Server.info_title := str "Dropout"; Server.info_authors := str "Lee";
                  Server.info_year := str "2025"; Server.info_pages := 12 |});
         (str "AAAAAAAA",
              {| Server.info_title := str "Attention"; Server.info_authors := str "Vaswani";
                 Server.info_year := str "2017"; Server.info_pages := 15 |});
         (str "BBBBBBBB",
              {| Server.info_title := str "Scaling"; Server.info_authors := str "Kaplan";
                 Server.info_year := str "2025"; Server.info_pages := 30 |}) ];
     Server.state_last_indexed := VStr (str "2025-01-01T00:00:00") |}.

(** A world in which everything loads and the store ranks two chunks. *)
Definition world_demo : Server.World :=
  {| Server.get_index := None;
     Server.retriever_retrieve :=
       fun k _ => inr (take k [chunk 1 (9 # 10); chunk 2 (3 # 4)]);
     Server.load_config := inr {| Server.cache_dir := Some (str "cache") |};
     Server.state_file_exists := fun _ => true;
     Server.load_state := fun _ => inr state_demo;
     Server.round3 := fun q => q;
     Server.lower := List.map lower_ascii |}.

End MoreExamples.

(** ** Vocabulary of the further statements *)

Module MoreSpec.
Import Indexer.

(** A lowercase hexadecimal digit. *)
Definition ishex (c : N) : bool :=
  ((48 <=? c) && (c <=? 57)) || ((97 <=? c) && (c <=? 102)).

(** A chunk as the pipeline may hand it to the embedder: the text of a
    page that is not blank, numbered within its document, of a located
    document whose extraction returned. *)
Definition chunk_of (fitz_open : list byte -> exn + list (exn + pystr))
    (root : option node) (papers : list PaperInfo) (doc : Document) : Prop :=
  forallb isspace (doc_text doc) = false
  /\ (1 <= m_page (doc_metadata doc) <= m_total_pages (doc_metadata doc))%nat
  /\ excluded_llm_metadata_keys doc = [str "file_path"]
  /\ excluded_embed_metadata_keys doc = [str "file_path"]
  /\ exists p, p ∈ papers
       /\ returns (extract_pdf_by_pages fitz_open root p) = true
       /\ m_zotero_key (doc_metadata doc) = zotero_key p
       /\ m_title (doc_metadata doc) = title p
       /\ m_source (doc_metadata doc) = FS.name (file_path p).

(** How many entries of the state have the year [y]. *)
Definition year_count (y : pystr) (fs : list (pystr * Server.FileInfo)) : Z :=
  Z.of_nat (length (List.filter
                      (fun e => bool_decide (Server.info_year (snd e) = y)) fs)).

(** An entry of the envelope a tool returned. *)
Definition field (t : json_text) (k : string) : option value :=
  match t with
  | Dumps (VDict d) => dict_lookup (str k) d
  | _ => None
  end.

(** The sort key of an entry of the state: [(year, title)]. *)
Definition entry_key (e : pystr * Server.FileInfo) : pystr * pystr :=
  (Server.info_year (snd e), Server.info_title (snd e)).

(** Whether the title of a retrieved node contains the keyword, letter
    case apart. *)
Definition title_matches (w : Server.World) (keyword : pystr)
    (n : Query.NodeWithScore) : bool :=
  match dict_get (Query.metadata (Query.node n)) (str "title")
          (VStr (str "Unknown")) with
  | VStr t => contains (Server.lower w keyword) (Server.lower w t)
  | _ => false
  end.

(** First value under a key in a list of pairs. *)
Fixpoint assoc {A} (k : pystr) (l : list (pystr * A)) : option A :=
  match l with
  | [] => None
  | (k', v) :: rest => if bool_decide (k' = k) then Some v else assoc k rest
  end.

(** The title of a retrieved node is a string. *)
Definition has_str_title (n : Query.NodeWithScore) : Prop :=
  exists t, dict_get (Query.metadata (Query.node n)) (str "title")
              (VStr (str "Unknown")) = VStr t.

(** A group of [zotero_get_paper_content]: filed under its own title,
    which contains the keyword, and with at least one excerpt. *)
Definition group_ok (w : Server.World) (keyword : pystr)
    (tg : pystr * Server.PaperGroup) : Prop :=
  Server.g_title (snd tg) = fst tg
  /\ contains (Server.lower w keyword) (Server.lower w (fst tg)) = true
  /\ Server.excerpts (snd tg) <> [].

(** The number of excerpts in the groups of [zotero_get_paper_content]. *)
Definition excerpt_count (papers : list (pystr * Server.PaperGroup)) : nat :=
  length (flat_map (fun tg => Server.excerpts (snd tg)) papers).

End MoreSpec.
Import MoreSpec.

(** ** Concrete library of the examples on [zotero_meta.py] *)

Module ItemsExamples.
Import ZoteroItems.

(** A library with one article, its attachment and its note, and one
    deleted article. *)
Definition lib_demo : Library :=
  {| creator_tables :=
       {| ZoteroMeta.itemCreators :=
            [ {| ZoteroMeta.ic_itemID := 1; ZoteroMeta.ic_creatorID := 5;
                 ZoteroMeta.ic_creatorTypeID := 1; ZoteroMeta.ic_orderIndex := 0 |} ];
          ZoteroMeta.creators :=
            [ {| ZoteroMeta.c_creatorID := 5;
                 ZoteroMeta.firstName := Some (str "Nitish");
                 ZoteroMeta.lastName := Some (str "Srivastava") |} ];
          ZoteroMeta.creatorTypes :=
            [ {| ZoteroMeta.ct_creatorTypeID := 1;
                 ZoteroMeta.creatorType := str "author" |} ] |};
     items :=
       [ {| itemID := 1; key := str "PARENT01"; itemTypeID := 2 |};
         {| itemID := 2; key := str "ATTACH01"; itemTypeID := 14 |};
         {| itemID := 3; key := str "NOTE0001"; itemTypeID := 1 |};
         {| itemID := 4; key := str "DELETED1"; itemTypeID := 2 |} ];
     itemTypes :=
       [ {| it_itemTypeID := 1; typeName := str "note" |};
         {| it_itemTypeID := 2; typeName := str "journalArticle" |};
         {| it_itemTypeID := 14; typeName := str "attachment" |} ];
     deletedItems := [4%Z];
     itemData :=
       [ {| id_itemID := 1; id_fieldID := 1; id_valueID := 10 |};
         {| id_itemID := 1; id_fieldID := 2; id_valueID := 11 |};
         {| id_itemID := 1; id_fieldID := 3; id_valueID := 12 |} ];
     itemDataValues :=
       [ {| valueID := 10; value := str "Dropout" |};
         {| valueID := 11; value := str "June 2014" |};
         {| valueID := 12; value := str "shelf 3" |} ];
     fields :=
       [ {| fieldID := 1; fieldName := str "title" |};
         {| fieldID := 2; fieldName := str "date" |};
         {| fieldID := 3; fieldName := str "extra" |} ];
     itemTags := [ {| tag_itemID := 1; tag_tagID := 7 |} ];
     tags_table := [ {| tagID := 7; name := str "ml" |} ];
     itemNotes :=
       [ {| in_itemID := 3; in_parentItemID := Some 1%Z;
            note := Some (str "<p>Read <b>twice</b></p> ") |} ];
     itemAttachments :=
       [ {| ia_itemID := 2; ia_parentItemID := Some 1%Z;
            path := Some (str "storage:lee.pdf") |} ] |}.

(** The article of [lib_demo]. *)
Definition article : items_row :=
  {| itemID := 1; key := str "PARENT01"; itemTypeID := 2 |}.

(** What [get_all_items] makes of the article. *)
Definition article_metadata : PaperMetadata :=
  {| item_key := str "PARENT01"; title := str "Dropout";
     authors := [str "Nitish Srivastava"]; year := str "2014";
     date := str "June 2014"; journal := []; volume := []; issue := [];
     pages := []; doi := []; url := []; isbn := []; issn := []; abstract := [];
     tags := [str "ml"]; notes := [str "Read twice"];
     item_type := str "journalArticle";
     attachments := [str "ATTACH01/lee.pdf"] |}.

End ItemsExamples.

(** ** Vocabulary of the statements on [zotero_meta.py] *)

Module ItemsSpec.
Import ZoteroItems.

(** [d] is the leftmost run of four decimal digits in [s]. *)
Definition leftmost_year (isdecimal : N -> bool) (s d : pystr) : Prop :=
  exists pre post,
    s = pre ++ d ++ post /\ length d = 4%nat /\ forallb isdecimal d = true
    /\ forall pre' d' post',
         s = pre' ++ d' ++ post' -> length d' = 4%nat ->
         forallb isdecimal d' = true -> (length pre <= length pre')%nat.

(** [s] has no run of four decimal digits. *)
Definition no_year (isdecimal : N -> bool) (s : pystr) : Prop :=
  forall pre d post,
    s = pre ++ d ++ post -> length d = 4%nat -> forallb isdecimal d = false.

(** [s] begins with a tag: [<], one or more characters other than [>],
    then [>]. *)
Definition tag_at (s : pystr) : Prop :=
  exists w rest, s = LT :: w ++ GT :: rest /\ w <> [] /\ (GT ∉ w).

(** A tag occurs somewhere in [s]. *)
Definition has_tag (s : pystr) : Prop :=
  exists pre suf, s = pre ++ suf /\ tag_at suf.

(** [s] neither begins nor ends with a blank. *)
Definition stripped (s : pystr) : Prop :=
  (forall c s', s = c :: s' -> isspace c = false)
  /\ (forall c s', s = s' ++ [c] -> isspace c = false).

(** The rows [get_all_items] turns into entries: the items that are not
    deleted and whose type, named [ty], is none of attachment, note and
    annotation. *)
Definition listed (lib : Library) (i : items_row) (ty : pystr) : Prop :=
  (i ∈ items lib)
  /\ (itemID i ∉ deletedItems lib)
  /\ (ty ∉ [str "attachment"; str "note"; str "annotation"])
  /\ exists it, it ∈ itemTypes lib /\ itemTypeID i = it_itemTypeID it
                /\ typeName it = ty.

(** The attachment rows [_load_attachments] keeps for the item [item_id]:
    the attachment is a child of the item, its own item, of key [k], is
    not deleted, and its path is [storage:] followed by [filename]. *)
Definition stored_attachment (lib : Library) (item_id : Z) (k filename : pystr)
    : Prop :=
  exists a i,
    a ∈ itemAttachments lib /\ i ∈ items lib
    /\ ia_itemID a = itemID i /\ ia_parentItemID a = Some item_id
    /\ (itemID i ∉ deletedItems lib) /\ key i = k
    /\ path a = Some (str "storage:" ++ filename).

(** The metadata of the last entry of [items] one of whose attachments is
    filed under the key [k]. *)
Definition last_owner (k : pystr) (items : list (pystr * PaperMetadata))
    : option PaperMetadata :=
  last (List.map snd
          (List.filter
             (fun item =>
                existsb (fun a => bool_decide (before_slash a = k))
                        (attachments (snd item)))
             items)).

(** The keys of the database are what Zotero keeps them to be: an item has
    one identifier and one key, an attachment one row, and no key contains
    a slash. *)
Definition well_keyed (lib : Library) : Prop :=
  NoDup (List.map itemID (items lib))
  /\ NoDup (List.map key (items lib))
  /\ NoDup (List.map ia_itemID (itemAttachments lib))
  /\ Forall (fun i => SLASH ∉ key i) (items lib).

End ItemsSpec.
Import ItemsSpec.

(** ** indexer.py: the statistics of the index *)

Module Stats.
Import Indexer.

(** The dictionary [get_index_stats] returns.  [by_year] is kept as a
    finite map: the order of its keys, that of the first occurrence of
    each year in the state file, is not modelled. *)
Record IndexStats := {
  total_papers : nat;
  total_pages : nat;
  by_year : gmap pystr nat;
  stats_last_indexed : option pystr;
}.

(** [years[y] = years.get(y, 0) + 1] *)
Definition count_year (years : gmap pystr nat) (f : IndexedFileRecord)
    : gmap pystr nat :=
  <[ rec_year f := (default O (years !! rec_year f) + 1)%nat ]> years.

(** [files.values()] *)
Definition values (files : gmap pystr IndexedFileRecord) : list IndexedFileRecord :=
  List.map snd (map_to_list files).

Definition get_index_stats (d : Disk) : IndexStats :=
  let state := load_index_state d in
  let files := indexed_files state in
  {| total_papers := size files;
     total_pages := fold_left (fun acc f => (acc + rec_pages f)%nat) (values files) O;
     by_year := fold_left count_year (values files) ∅;
     stats_last_indexed := last_indexed state |}.

(** How many recorded documents have the year [y]. *)
Definition of_year (y : pystr) (files : gmap pystr IndexedFileRecord) : nat :=
  length (List.filter (fun f => bool_decide (rec_year f = y)) (values files)).

End Stats.

(** ** Vocabulary of the statements on the loop of [index_papers] *)

Module RunSpec.
Import Indexer.







End RunSpec.
Import RunSpec.

(** ** Vocabulary of the statements on [_load_creators] *)

Module CreatorSpec.
Import ZoteroMeta.

(** [row] is a creator of the item [item_id]: a link of the item in
    [itemCreators], with the names of the creator and the type the link
    refers to. *)
Definition creator_of (db : Database) (item_id : Z) (row : creator_row) : Prop :=
  exists ic c ct,
    ic ∈ itemCreators db /\ c ∈ creators db /\ ct ∈ creatorTypes db
    /\ ic_itemID ic = item_id
    /\ ic_creatorID ic = c_creatorID c
    /\ ic_creatorTypeID ic = ct_creatorTypeID ct
    /\ row = {| orderIndex := ic_orderIndex ic; row_firstName := firstName c;
                row_lastName := lastName c; row_creatorType := creatorType ct |}.

(** The links of the item in [itemCreators]. *)
Definition links (db : Database) (item_id : Z) : list itemCreators_row :=
  List.filter (fun ic => bool_decide (ic_itemID ic = item_id)) (itemCreators db).

(** The keys of the three tables are what the schema of Zotero makes
    them: a creator and a creator type have one row each, and every link
    refers to a creator and to a type that exist. *)
Definition referential (db : Database) : Prop :=
  NoDup (List.map c_creatorID (creators db))
  /\ NoDup (List.map ct_creatorTypeID (creatorTypes db))
  /\ Forall (fun ic =>
               Exists (fun c => ic_creatorID ic = c_creatorID c) (creators db)
               /\ Exists (fun ct => ic_creatorTypeID ic = ct_creatorTypeID ct)
                         (creatorTypes db))
            (itemCreators db).

(** Item 1 has three creators, declared in the order 2, 0, 1: one with
    both names, one with a last name only, one without name; item 2 has
    one creator. *)
Definition db_creators : Database :=
  {| itemCreators :=
       [ {| ic_itemID := 1; ic_creatorID := 10; ic_creatorTypeID := 1;
            ic_orderIndex := 2 |};
         {| ic_itemID := 2; ic_creatorID := 13; ic_creatorTypeID := 1;
            ic_orderIndex := 0 |};
         {| ic_itemID := 1; ic_creatorID := 11; ic_creatorTypeID := 2;
            ic_orderIndex := 0 |};
         {| ic_itemID := 1; ic_creatorID := 12; ic_creatorTypeID := 1;
            ic_orderIndex := 1 |} ];
     creators :=
       [ {| c_creatorID := 10; firstName := Some (str "Ada");
            lastName := Some (str "Lovelace") |};
         {| c_creatorID := 11; firstName := Some [];
            lastName := Some (str "Consortium") |};
         {| c_creatorID := 12; firstName := None; lastName := Some [] |};
         {| c_creatorID := 13; firstName := Some (str "Alan");
            lastName := Some (str "Turing") |} ];
     creatorTypes :=
       [ {| ct_creatorTypeID := 1; creatorType := str "author" |};
         {| ct_creatorTypeID := 2; creatorType := str "editor" |} ] |}.

End CreatorSpec.
Import CreatorSpec.

(** ** Vocabulary of the statements on the groups of
       [zotero_get_paper_content] *)

Module GroupSpec.
Import Query Server.

(** The title of a retrieved node, when it is a string. *)
Definition node_title (n : NodeWithScore) : option pystr :=
  match dict_get (metadata (node n)) (str "title") (VStr (str "Unknown")) with
  | VStr t => Some t
  | _ => None
  end.

(** The excerpt a retrieved node stands for: its page and its text. *)
Definition excerpt_of (n : NodeWithScore) : value :=
  VDict [ (str "page", dict_get (metadata (node n)) (str "page") (VInt 0));
          (str "content", VStr (text (node n))) ].

(** The retrieved nodes of title [t], when [t] contains the keyword, in
    retrieval order. *)
Definition titled (w : World) (keyword t : pystr) (nodes : list NodeWithScore)
    : list NodeWithScore :=
  List.filter (fun n => title_matches w keyword n
                        && bool_decide (node_title n = Some t)) nodes.

(** The distinct elements of a list, in the order of their first
    occurrence. *)
Definition first_seen (l : list pystr) : list pystr :=
  fold_left (fun acc x => if bool_decide (x ∈ acc) then acc else acc ++ [x]) l [].

(** The group of a title: it carries the title, the authors, year and page
    count of the first retrieved node of that title, and the excerpts of
    all the retrieved nodes of that title, and of no other, in retrieval
    order. *)
Definition group_of (w : World) (keyword : pystr) (nodes : list NodeWithScore)
    (tg : pystr * PaperGroup) : Prop :=
  g_title (snd tg) = fst tg
  /\ excerpts (snd tg) = List.map excerpt_of (titled w keyword (fst tg) nodes)
  /\ exists n,
       head (titled w keyword (fst tg) nodes) = Some n
       /\ g_authors (snd tg)
          = dict_get (metadata (node n)) (str "authors") (VStr (str "Unknown"))
       /\ g_year (snd tg) = dict_get (metadata (node n)) (str "year") (VStr [])
       /\ g_total_pages (snd tg)
          = dict_get (metadata (node n)) (str "total_pages") (VInt 0).

(** A retrieved chunk of the paper [title]. *)
Definition chunk_of_title (title : string) (page : Z) : NodeWithScore :=
  {| node := {| metadata := [ (str "title", VStr (str title));
                              (str "page", VInt page) ];
                text := str "text" |};
     score := Some (1 # 2)%Q |}.

(** A world whose store ranks chunks of two papers, interleaved, and one
    chunk of a third. *)
Definition world_two_titles : World :=
  {| get_index := None;
     retriever_retrieve :=
       fun _ _ => inr [ chunk_of_title "Dropout" 1; chunk_of_title "Dropout rates" 7;
                        chunk_of_title "Attention" 2; chunk_of_title "Dropout" 3 ];
     load_config := inr {| cache_dir := Some (str "cache") |};
     state_file_exists := fun _ => true;
     load_state := fun _ => inl (Raise (str "OSError") (str "unreadable"));
     round3 := fun q => q;
     lower := List.map lower_ascii |}.

End GroupSpec.
Import GroupSpec.

(** * Properties *)

(** ** The matcher *)

Section EngineFacts.
Context {R : Type}.
Implicit Types (p : cls) (s w : pystr) (k : pystr -> option R).

Lemma one_Some p s k r :
  one p s k = Some r -> exists c s', s = c :: s' /\ p c = true /\ k s' = Some r.
Proof.
  destruct s as [|c s']; simpl; [discriminate|].
  destruct (p c) eqn:Hp; [|discriminate]. eauto.
Qed.

Lemma one_cons p c s k : p c = true -> one p (c :: s) k = k s.
Proof. intros Hp. simpl. by rewrite Hp. Qed.

Lemma star_greedy_Some p s k r :
  star_greedy p s k = Some r ->
  exists w s', s = w ++ s' /\ forallb p w = true /\ k s' = Some r.
Proof.
  induction s as [|c s IH]; simpl.
  - intros H. exists [], []. auto.
  - destruct (p c) eqn:Hp.
    + destruct (star_greedy p s k) as [r'|] eqn:Hg.
      * intros [= <-]. destruct (IH eq_refl) as (w & s' & -> & Hw & Hk).
        exists (c :: w), s'. simpl. rewrite Hp, Hw. auto.
      * intros H. exists [], (c :: s). auto.
    + intros H. exists [], (c :: s). auto.
Qed.

Lemma star_greedy_is_Some p w s' k :
  forallb p w = true -> is_Some (k s') -> is_Some (star_greedy p (w ++ s') k).
Proof.
  induction w as [|c w IH]; simpl; intros Hw Hk.
  - destruct s' as [|c s']; simpl; [done|].
    destruct (p c); [|done]. destruct (star_greedy p s' k); [eauto|done].
  - apply andb_true_iff in Hw as [Hc Hw]. rewrite Hc.
    destruct (IH Hw Hk) as [r ->]. eauto.
Qed.

(** The lazy star stops at the first suffix the continuation accepts. *)
Lemma star_lazy_Some p s k r :
  star_lazy p s k = Some r ->
  exists w s', s = w ++ s' /\ forallb p w = true /\ k s' = Some r
    /\ forall w1 s1, s = w1 ++ s1 -> (length w1 < length w)%nat -> k s1 = None.
Proof.
  induction s as [|c s IH]; simpl.
  - destruct (k []) eqn:Hk; [|discriminate]. intros [= <-].
    exists [], []. repeat split; auto. simpl. lia.
  - destruct (k (c :: s)) eqn:Hk.
    + intros [= <-]. exists [], (c :: s). repeat split; auto. simpl. lia.
    + destruct (p c) eqn:Hp; [|discriminate]. intros H.
      destruct (IH H) as (w & s' & -> & Hw & Hks & Hmin).
      exists (c :: w), s'. simpl. rewrite Hp, Hw. repeat split; auto.
      intros w1 s1 Heq Hlen. destruct w1 as [|c1 w1]; simpl in *.
      * by subst s1.
      * injection Heq as <- Heq. apply (Hmin w1 s1 Heq). lia.
Qed.

Lemma star_lazy_is_Some p w s' k :
  forallb p w = true -> is_Some (k s') -> is_Some (star_lazy p (w ++ s') k).
Proof.
  induction w as [|c w IH]; simpl; intros Hw Hk.
  - destruct Hk as [r Hk]. destruct s'; simpl; rewrite Hk; eauto.
  - apply andb_true_iff in Hw as [Hc Hw]. rewrite Hc.
    destruct (k (c :: w ++ s')); [eauto|]. by apply IH.
Qed.

Lemma rep_Some n p s k r :
  rep n p s k = Some r ->
  exists w s', s = w ++ s' /\ length w = n /\ forallb p w = true /\ k s' = Some r.
Proof.
  revert s. induction n as [|n IH]; simpl; intros s H.
  - exists [], s. auto.
  - apply one_Some in H as (c & s1 & -> & Hp & H).
    destruct (IH _ H) as (w & s' & -> & Hlen & Hw & Hk).
    exists (c :: w), s'. simpl. rewrite Hp, Hw, Hlen. auto.
Qed.

Lemma rep_app p w s' k :
  forallb p w = true -> rep (length w) p (w ++ s') k = k s'.
Proof.
  induction w as [|c w IH]; simpl; [done|].
  intros [Hc Hw]%andb_true_iff. rewrite Hc. by apply IH.
Qed.

Lemma plus_Some q p s k r :
  plus q p s k = Some r ->
  exists w s', s = w ++ s' /\ w <> [] /\ forallb p w = true /\ k s' = Some r.
Proof.
  unfold plus. intros (c & s1 & -> & Hp & H)%one_Some.
  assert (exists w s', s1 = w ++ s' /\ forallb p w = true /\ k s' = Some r)
    as (w & s' & -> & Hw & Hk).
  { destruct q.
    - by apply star_greedy_Some.
    - apply star_lazy_Some in H as (w & s' & ? & ? & ? & _). eauto. }
  exists (c :: w), s'. simpl. rewrite Hp, Hw. auto.
Qed.

Lemma plus_is_Some q p w s' k :
  w <> [] -> forallb p w = true -> is_Some (k s') -> is_Some (plus q p (w ++ s') k).
Proof.
  destruct w as [|c w]; [done|]. simpl. intros _ [Hc Hw]%andb_true_iff Hk.
  unfold plus. simpl. rewrite Hc. destruct q.
  - by apply star_greedy_is_Some.
  - by apply star_lazy_is_Some.
Qed.

(** [p+?] commits to the shortest non-empty run after which the rest of
    the pattern succeeds. *)
Lemma plus_lazy_Some p s k r :
  plus Lazy p s k = Some r ->
  exists w s', s = w ++ s' /\ w <> [] /\ forallb p w = true /\ k s' = Some r
    /\ forall w1 s1, s = w1 ++ s1 -> w1 <> [] -> (length w1 < length w)%nat ->
                     k s1 = None.
Proof.
  unfold plus. intros (c & s1 & -> & Hp & H)%one_Some.
  apply star_lazy_Some in H as (w & s' & -> & Hw & Hk & Hmin).
  exists (c :: w), s'. simpl. rewrite Hp, Hw. repeat split; auto.
  intros w1 s2 Heq Hne Hlen. destruct w1 as [|c1 w1]; [done|].
  simpl in *. injection Heq as <- Heq. apply (Hmin w1 s2 Heq). lia.
Qed.

End EngineFacts.

Section ExecFacts.
Context {R : Type} (subject : pystr).
Implicit Types (r : re) (s : pystr) (caps cs : list pystr)
  (k : pystr -> list pystr -> option R).

(** Whatever the matcher returns comes from a way to match the pattern. *)
Lemma exec_sound r : forall s caps k res,
  exec subject r s caps k = Some res ->
  exists s' cs, matches subject r s s' cs /\ k s' (caps ++ cs) = Some res.
Proof.
  induction r as [| |p|p|q p|n p|r1 IH1|r1 IH1 r2 IH2]; intros s caps k res H;
    simpl in H.
  - destruct (Nat.eqb_spec (length s) (length subject)) as [Hl|]; [|discriminate].
    exists s, []. rewrite app_nil_r. simpl. auto.
  - exists s, []. rewrite app_nil_r. simpl.
    destruct s as [|c [|c' s]]; [auto| |discriminate].
    destruct (N.eqb_spec c LF) as [->|]; [auto|discriminate].
  - apply one_Some in H as (c & s' & -> & Hp & H).
    exists s', []. rewrite app_nil_r. simpl. eauto.
  - apply star_greedy_Some in H as (w & s' & -> & Hw & H).
    exists s', []. rewrite app_nil_r. simpl. eauto.
  - apply plus_Some in H as (w & s' & -> & Hne & Hw & H).
    exists s', []. rewrite app_nil_r. simpl. eauto 10.
  - apply rep_Some in H as (w & s' & -> & Hn & Hw & H).
    exists s', []. rewrite app_nil_r. simpl. eauto 10.
  - apply IH1 in H as (s' & cs1 & Hm & H).
    exists s', (cs1 ++ [take (length s - length s') s]).
    rewrite app_assoc. simpl. eauto.
  - apply IH1 in H as (s1 & c1 & Hm1 & H).
    apply IH2 in H as (s' & c2 & Hm2 & H).
    exists s', (c1 ++ c2). rewrite app_assoc. simpl. eauto 10.
Qed.

(** A way to match the pattern that the continuation accepts makes the
    matcher return. *)
Lemma exec_complete r : forall s s' caps cs k,
  matches subject r s s' cs -> is_Some (k s' (caps ++ cs)) ->
  is_Some (exec subject r s caps k).
Proof.
  induction r as [| |p|p|q p|n p|r1 IH1|r1 IH1 r2 IH2];
    intros s s' caps cs k Hm Hk; simpl in Hm |- *.
  - destruct Hm as (-> & -> & Hl). rewrite app_nil_r in Hk.
    by rewrite Hl, Nat.eqb_refl.
  - destruct Hm as (-> & -> & Hs). rewrite app_nil_r in Hk.
    by destruct Hs as [->| ->].
  - destruct Hm as (c & -> & Hp & ->). rewrite app_nil_r in Hk.
    by rewrite one_cons.
  - destruct Hm as (w & -> & Hw & ->). rewrite app_nil_r in Hk.
    by apply star_greedy_is_Some.
  - destruct Hm as (w & -> & Hne & Hw & ->). rewrite app_nil_r in Hk.
    by apply plus_is_Some.
  - destruct Hm as (w & -> & <- & Hw & ->). rewrite app_nil_r in Hk.
    by rewrite rep_app.
  - destruct Hm as (cs1 & Hm & ->). rewrite app_assoc in Hk.
    by apply (IH1 _ _ _ _ _ Hm).
  - destruct Hm as (s1 & c1 & c2 & Hm1 & Hm2 & ->). rewrite app_assoc in Hk.
    apply (IH1 _ _ _ _ _ Hm1). by apply (IH2 _ _ _ _ _ Hm2).
Qed.

End ExecFacts.

(** ** Strings *)

Section StringFacts.
Implicit Types (s t u w : pystr) (p : N -> bool).

Lemma lstrip_app_space u s :
  forallb isspace u = true -> lstrip (u ++ s) = lstrip s.
Proof.
  induction u as [|c u IH]; simpl; [done|].
  intros [Hc Hu]%andb_true_iff. rewrite Hc. auto.
Qed.

Lemma strip_app_space u s :
  forallb isspace u = true -> strip (u ++ s) = strip s.
Proof. intros Hu. unfold strip. by rewrite lstrip_app_space. Qed.

Lemma lstrip_nil_inv s : lstrip s = [] -> forallb isspace s = true.
Proof.
  induction s as [|c s IH]; simpl; [done|].
  destruct (isspace c); [auto|discriminate].
Qed.

Lemma lstrip_nil s : lstrip s = [] <-> forallb isspace s = true.
Proof.
  induction s as [|c s IH]; simpl; [done|].
  destruct (isspace c); simpl; [done|]. split; discriminate.
Qed.

Lemma forallb_lstrip s : forallb isspace (lstrip s) = forallb isspace s.
Proof.
  induction s as [|c s IH]; simpl; [done|].
  destruct (isspace c) eqn:Hc; simpl; [done|]. by rewrite Hc.
Qed.

Lemma forallb_rev p s : forallb p (rev s) = forallb p s.
Proof.
  induction s as [|c s IH]; simpl; [done|].
  rewrite forallb_app, IH. simpl. rewrite andb_true_r. apply andb_comm.
Qed.

(** [s.strip()] is empty exactly when [s] is made of blanks only. *)
Lemma truthy_strip s : truthy (strip s) = negb (forallb isspace s).
Proof.
  rewrite <- (forallb_lstrip s), <- (forallb_rev isspace (lstrip s)).
  unfold strip, rstrip.
  destruct (lstrip (rev (lstrip s))) as [|c r] eqn:Hl.
  - apply lstrip_nil in Hl. by rewrite Hl.
  - destruct (forallb isspace (rev (lstrip s))) eqn:Hf.
    + apply lstrip_nil in Hf. congruence.
    + by destruct (rev (c :: r)) eqn:Hr; [apply (f_equal (@length N)) in Hr;
        rewrite length_rev in Hr|].
Qed.

(** A run of [p] followed by something outside [p] splits in one way. *)
Lemma span_unique p w w' (x x' : N) (r r' : pystr) :
  forallb p w = true -> forallb p w' = true -> p x = false -> p x' = false ->
  w ++ x :: r = w' ++ x' :: r' -> w = w' /\ x = x' /\ r = r'.
Proof.
  revert w'. induction w as [|c w IH]; intros [|c' w']; simpl;
    intros Hw Hw' Hx Hx' Heq.
  - by injection Heq as -> ->.
  - injection Heq as -> _. apply andb_true_iff in Hw' as [? _]. congruence.
  - injection Heq as -> _. apply andb_true_iff in Hw as [? _]. congruence.
  - injection Heq as -> Heq.
    apply andb_true_iff in Hw as [_ Hw]. apply andb_true_iff in Hw' as [_ Hw'].
    destruct (IH w' Hw Hw' Hx Hx' Heq) as (-> & -> & ->). done.
Qed.

Lemma dash_not_space c : Indexer.isdash c = true -> isspace c = false.
Proof.
  unfold Indexer.isdash. rewrite !orb_true_iff, !N.eqb_eq.
  by intros [[->| ->]| ->].
Qed.

Lemma dot_no_LF s : forallb dot s = true -> LF ∉ s.
Proof.
  intros H Hin. rewrite forallb_forall in H.
  apply list_elem_of_In in Hin. by apply H in Hin.
Qed.

End StringFacts.

(** ** [parse_filename] *)

Ltac destruct_ex_and :=
  repeat match goal with
         | H : exists _, _ |- _ => destruct H
         | H : _ /\ _ |- _ => destruct H
         end.

Section ParseFilename.
Import Indexer.
Context (isdecimal : N -> bool).

Lemma filename_pattern_eq :
  filename_pattern isdecimal = Bol ⋅ Grp (Plus Lazy dot) ⋅ filename_tail isdecimal.
Proof. reflexivity. Qed.

Lemma take_captured (w s' : pystr) :
  take (length (w ++ s') - length s') (w ++ s') = w.
Proof.
  rewrite length_app. replace (length w + length s' - length s')%nat with (length w) by lia.
  apply take_app_length.
Qed.

Lemma tail_matches_reads subject s s' cs :
  matches subject (filename_tail isdecimal) s s' cs ->
  exists y t, cs = [y; t] /\ reads_tail isdecimal s y t.
Proof.
  unfold filename_tail. simpl. intros H. destruct_ex_and. subst.
  rewrite !take_captured. simpl.
  eexists _, _. split; [reflexivity|].
  unfold reads_tail. eexists _, _, _, _, _, _, _.
  repeat split; eauto.
Qed.

Lemma matches_cat subject r1 r2 s s1 s' c1 c2 :
  matches subject r1 s s1 c1 -> matches subject r2 s1 s' c2 ->
  matches subject (r1 ⋅ r2) s s' (c1 ++ c2).
Proof. simpl. eauto 10. Qed.

Lemma matches_star subject p w s' :
  forallb p w = true -> matches subject (Star p) (w ++ s') s' [].
Proof. simpl. eauto. Qed.

Lemma matches_cls subject p c s' :
  p c = true -> matches subject (Cls p) (c :: s') s' [].
Proof. simpl. eauto. Qed.

Lemma matches_rep subject p w s' :
  forallb p w = true -> matches subject (Rep (length w) p) (w ++ s') s' [].
Proof. simpl. eauto 10. Qed.

Lemma matches_plus subject q p w s' :
  w <> [] -> forallb p w = true -> matches subject (Plus q p) (w ++ s') s' [].
Proof. simpl. eauto 10. Qed.

Lemma matches_grp subject r s s' cs :
  matches subject r s s' cs ->
  matches subject (Grp r) s s' (cs ++ [take (length s - length s') s]).
Proof. simpl. eauto. Qed.

Lemma matches_eol subject s :
  s = [] \/ s = [LF] -> matches subject Eol s s [].
Proof. simpl. auto. Qed.

Lemma reads_tail_matches subject s y t :
  reads_tail isdecimal s y t ->
  exists s', matches subject (filename_tail isdecimal) s s' [y; t].
Proof.
  intros (ws1 & d1 & ws2 & ws3 & d2 & ws4 & nl & -> & H1 & H2 & H3 & Hy & H4
          & H5 & H6 & H7 & Ht & H8 & Hnl).
  exists nl.
  assert (exists cs, matches subject (filename_tail isdecimal)
            (ws1 ++ d1 :: ws2 ++ y ++ ws3 ++ d2 :: ws4 ++ t ++ nl) nl cs
            /\ cs = [y; t]) as (cs & Hm & ->); [|done].
  unfold filename_tail. rewrite <- Hy. eexists. split.
  - eapply matches_cat; [by apply matches_star|].
    eapply matches_cat; [by apply matches_cls|].
    eapply matches_cat; [by apply matches_star|].
    eapply matches_cat; [by apply matches_grp, matches_rep|].
    eapply matches_cat; [by apply matches_star|].
    eapply matches_cat; [by apply matches_cls|].
    eapply matches_cat; [by apply matches_star|].
    eapply matches_cat; [by apply matches_grp, matches_plus|].
    by apply matches_eol.
  - simpl. by rewrite !take_captured.
Qed.

(** What [re.match] does with the pattern of [parse_filename]: the groups
    of the reading with the shortest authors part, or [None] when the
    stem cannot be read at all. *)
Lemma re_match_filename name :
  match re_match (filename_pattern isdecimal) name with
  | Some m =>
      exists a y t, m = [a; y; t] /\ reads_as isdecimal name a y t
                    /\ shortest_authors isdecimal name a
  | None => forall a y t, ~ reads_as isdecimal name a y t
  end.
Proof.
  unfold re_match. rewrite filename_pattern_eq.
  cbn [exec]. rewrite Nat.eqb_refl.
  set (K := fun s' : pystr =>
              exec name (filename_tail isdecimal) s'
                ([] ++ [take (length name - length s') name])
                (fun _ caps => Some caps)).
  change (match plus Lazy dot name K with
          | Some m =>
              exists a y t, m = [a; y; t] /\ reads_as isdecimal name a y t
                            /\ shortest_authors isdecimal name a
          | None => forall a y t, ~ reads_as isdecimal name a y t
          end).
  assert (HK : forall a rest y t, name = a ++ rest ->
               reads_tail isdecimal rest y t -> is_Some (K rest)).
  { intros a rest y t -> Ht. unfold K.
    destruct (reads_tail_matches (a ++ rest) _ _ _ Ht) as (s' & Hm).
    eapply exec_complete; [exact Hm|]. eauto. }
  destruct (plus Lazy dot name K) as [m|] eqn:Hp.
  - apply plus_lazy_Some in Hp as (w & s' & Hname & Hne & Hw & Hk & Hmin).
    unfold K in Hk. apply exec_sound in Hk as (s'' & cs & Hm & [= <-]).
    apply tail_matches_reads in Hm as (y & t & -> & Ht).
    exists w, y, t. split; [|split].
    + rewrite Hname, take_captured. done.
    + exists s'. auto.
    + intros a' y' t' (rest' & Heq & Hne' & Ha' & Ht').
      destruct (Nat.le_gt_cases (length w) (length a')) as [|Hlt]; [done|].
      destruct (HK a' rest' y' t' Heq Ht') as [r Hr].
      rewrite (Hmin a' rest' Heq Hne' Hlt) in Hr. discriminate.
  - intros a y t (rest & Heq & Hne & Ha & Ht).
    assert (is_Some (plus Lazy dot name K)) as [? Hs]; [|congruence].
    rewrite Heq. apply plus_is_Some; eauto.
Qed.

(** Blanks, a title and the optional final line feed: whichever way the
    blanks are divided, the stripped title is the same. *)
Lemma title_unique_aux (k t t' nl nl' : pystr) :
  forallb isspace k = true ->
  t' <> [] -> forallb dot t = true -> forallb dot t' = true ->
  (nl = [] \/ nl = [LF]) -> (nl' = [] \/ nl' = [LF]) ->
  t ++ nl = k ++ t' ++ nl' -> strip t = strip t'.
Proof.
  intros Hk Hne Ht Ht' [->| ->] [->| ->] Heq.
  - rewrite !app_nil_r in Heq. subst t. by apply strip_app_space.
  - rewrite app_nil_r in Heq. subst t. apply dot_no_LF in Ht.
    exfalso. apply Ht. rewrite !elem_of_app. right. right. by left.
  - rewrite app_nil_r in Heq.
    destruct (exists_last Hne) as (t0 & x & ->).
    rewrite app_assoc in Heq. apply app_inj_tail in Heq as [_ <-].
    apply dot_no_LF in Ht'. exfalso. apply Ht'.
    rewrite elem_of_app. right. by left.
  - rewrite app_assoc in Heq. apply app_inj_tail in Heq as [-> _].
    by apply strip_app_space.
Qed.

Lemma title_unique (u u' t t' nl nl' : pystr) :
  forallb isspace u = true -> forallb isspace u' = true ->
  t <> [] -> t' <> [] -> forallb dot t = true -> forallb dot t' = true ->
  (nl = [] \/ nl = [LF]) -> (nl' = [] \/ nl' = [LF]) ->
  u ++ t ++ nl = u' ++ t' ++ nl' -> strip t = strip t'.
Proof.
  intros Hu Hu' Hne Hne' Ht Ht' Hnl Hnl' Heq.
  apply app_eq_inv in Heq as [(k & -> & Hk)|(k & -> & Hk)].
  - rewrite forallb_app in Hu. apply andb_true_iff in Hu as [_ Hk'].
    symmetry. by eapply (title_unique_aux k t' t nl' nl).
  - rewrite forallb_app in Hu'. apply andb_true_iff in Hu' as [_ Hk'].
    by eapply (title_unique_aux k t t' nl nl').
Qed.

Hypothesis decimal_not_space : forall c, isdecimal c = true -> isspace c = false.

(** After a given authors part the year is determined, and so is the
    stripped title. *)
Lemma reads_tail_unique s y t y' t' :
  reads_tail isdecimal s y t -> reads_tail isdecimal s y' t' ->
  y = y' /\ strip t = strip t'.
Proof.
  intros (ws1 & d1 & ws2 & ws3 & d2 & ws4 & nl & -> & H1 & H2 & H3 & Hy & H4
          & H5 & H6 & H7 & Ht & H8 & Hnl).
  intros (ws1' & d1' & ws2' & ws3' & d2' & ws4' & nl' & Heq & H1' & H2' & H3'
          & Hy' & H4' & H5' & H6' & H7' & Ht' & H8' & Hnl').
  apply span_unique with (p := isspace) in Heq as (_ & _ & Heq);
    auto using dash_not_space.
  destruct y as [|y0 y]; [done|]. destruct y' as [|y0' y']; [done|].
  simpl in H4, H4'. apply andb_true_iff in H4 as [Hd H4].
  apply andb_true_iff in H4' as [Hd' H4'].
  simpl in Heq. apply span_unique with (p := isspace) in Heq as (_ & -> & Heq);
    auto.
  apply app_inj_1 in Heq as [-> Heq]; [|simpl in *; lia].
  apply span_unique with (p := isspace) in Heq as (_ & _ & Heq);
    auto using dash_not_space.
  split; [done|]. eapply (title_unique ws4 ws4' t t' nl nl'); eauto.
Qed.

(** C5. For every filename whose stem reads [authors dash year dash title]
    (dash a hyphen, an en dash or an em dash; the year four digits; the
    authors part taken as short as possible), [parse_filename] returns the
    stripped authors, the year and the stripped title; every stem that can
    be read at all has such a shortest reading; for every stem that cannot
    be read it returns ["Unknown"], the empty year and the whole stem.
    [parse_filename] is a total function: it never raises. *)
Theorem parse_filename_spec filename key path :
  let name := stem filename in
  (forall a y t,
      reads_as isdecimal name a y t -> shortest_authors isdecimal name a ->
      parse_filename isdecimal filename key path
      = {| authors := strip a; year := y; title := strip t;
           zotero_key := key; file_path := path |})
  /\ (forall a y t,
      reads_as isdecimal name a y t ->
      exists a0 y0 t0, reads_as isdecimal name a0 y0 t0
                       /\ shortest_authors isdecimal name a0)
  /\ ((forall a y t, ~ reads_as isdecimal name a y t) ->
      parse_filename isdecimal filename key path
      = {| authors := str "Unknown"; year := []; title := name;
           zotero_key := key; file_path := path |}).
Proof.
  intros name. unfold parse_filename. fold name.
  pose proof (re_match_filename name) as Hre.
  destruct (re_match (filename_pattern isdecimal) name) as [m|].
  - destruct Hre as (a1 & y1 & t1 & -> & Hr1 & Hs1). split; [|split].
    + intros a y t Hr Hs.
      assert (length a = length a1) as Hlen.
      { apply Nat.le_antisymm; [by eapply Hs | by eapply Hs1]. }
      destruct Hr as (rest & Hn & _ & _ & Ht).
      destruct Hr1 as (rest1 & Hn1 & _ & _ & Ht1).
      rewrite Hn in Hn1. apply app_inj_1 in Hn1 as [-> ->]; [|done].
      destruct (reads_tail_unique _ _ _ _ _ Ht Ht1) as [-> Hst].
      unfold group. simpl. by rewrite Hst.
    + intros a y t _. eauto.
    + intros Hno. by destruct (Hno _ _ _ Hr1).
  - split; [|split].
    + intros a y t Hr. by destruct (Hre _ _ _ Hr).
    + intros a y t Hr. by destruct (Hre _ _ _ Hr).
    + done.
Qed.

End ParseFilename.

Lemma ascii_digit_not_space c :
  Indexer.ascii_digit c = true -> isspace c = false.
Proof.
  unfold Indexer.ascii_digit, isspace.
  rewrite andb_true_iff, !N.leb_le. intros [H1 H2].
  repeat match goal with
         | |- context [(?a <=? ?b)] => destruct (N.leb_spec a b); try lia
         | |- context [(?a =? ?b)] => destruct (N.eqb_spec a b); try lia
         end; reflexivity.
Qed.

(** The file name of the module's own example, [Lee 等 - 2025 - ...]. *)
Lemma parse_filename_spec_witness :
  Indexer.parse_filename Indexer.ascii_digit
    (str "Lee " ++ [31561] ++ str " - 2025 - Dropout Connects Transformers.pdf")
    (str "3GPQD2K2") []
  = {| Indexer.authors := str "Lee " ++ [31561];
       Indexer.year := str "2025";
       Indexer.title := str "Dropout Connects Transformers";
       Indexer.zotero_key := str "3GPQD2K2";
       Indexer.file_path := [] |}.
Proof.
  pose proof (parse_filename_spec Indexer.ascii_digit ascii_digit_not_space
    (str "Lee " ++ [31561] ++ str " - 2025 - Dropout Connects Transformers.pdf")
    (str "3GPQD2K2") []) as (H & _ & _).
  apply (H (str "Lee " ++ [31561]) (str "2025")
           (str "Dropout Connects Transformers")).
  - exists (str " - 2025 - Dropout Connects Transformers").
    split; [vm_compute; reflexivity|]. split; [discriminate|].
    split; [vm_compute; reflexivity|].
    exists (str " "), 45, (str " "), (str " "), 45, (str " "), [].
    repeat split; try (vm_compute; reflexivity); try discriminate. by left.
  - pose proof (re_match_filename Indexer.ascii_digit
      (Indexer.stem
         (str "Lee " ++ [31561] ++ str " - 2025 - Dropout Connects Transformers.pdf")))
      as Hre.
    replace (re_match (Indexer.filename_pattern Indexer.ascii_digit)
               (Indexer.stem
                  (str "Lee " ++ [31561]
                   ++ str " - 2025 - Dropout Connects Transformers.pdf")))
      with (Some [str "Lee " ++ [31561]; str "2025";
                  str "Dropout Connects Transformers"]) in Hre
      by (vm_compute; reflexivity).
    destruct Hre as (a & y & t & Heq & _ & Hs).
    injection Heq as <- <- <-. exact Hs.
Defined.

(** ** [extract_pdf_by_pages] *)

Section ExtractPages.
Import Indexer.
Context (fitz_open : list byte -> exn + list (exn + pystr)).

Lemma extract_pages_numbered paper total : forall texts i,
  extract_pages paper total i (List.map inr texts)
  = inr (List.map (fun it => (snd it, page_meta paper (fst it) total))
           (List.filter (fun it => truthy (strip (snd it)))
              (combine (seq (i + 1) (length texts)) texts))).
Proof.
  induction texts as [|text texts IH]; intros i; simpl; [done|].
  rewrite (IH (S i)). simpl. replace (S i + 1)%nat with (S (i + 1)) by lia.
  by destruct (truthy (strip text)).
Qed.

Lemma combine_seq_lookup {A} (l : list A) : forall a j (x : A),
  (j, x) ∈ combine (seq a (length l)) l ->
  (a <= j < a + length l)%nat /\ l !! (j - a)%nat = Some x.
Proof.
  induction l as [|y l IH]; intros a j x; simpl.
  - by intros ?%elem_of_nil.
  - intros [[= -> ->]|Hin]%elem_of_cons.
    + replace (a - a)%nat with 0%nat by lia. split; [lia|done].
    + apply IH in Hin as [Hj Hl]. split; [lia|].
      replace (j - a)%nat with (S (j - S a)) by lia. done.
Qed.

(** C4. For every source PDF that opens and whose pages all yield their
    text, page extraction returns exactly one (text, metadata) pair per
    page that is not made of blanks only, in page order; every pair has a
    non-empty text and a 1-based page number between 1 and the number of
    pages of the document, and a page made of blanks only produces no
    pair. *)
Theorem extract_pdf_by_pages_spec root paper content texts :
  read_bytes root (file_path paper) = inr content ->
  fitz_open content = inr (List.map inr texts) ->
  exists pages,
    extract_pdf_by_pages fitz_open root paper = inr pages
    /\ List.map (fun pg => (m_page (snd pg), fst pg)) pages = nonblank_pages texts
    /\ (forall text meta, (text, meta) ∈ pages ->
         text <> [] /\ forallb isspace text = false
         /\ (1 <= m_page meta <= m_total_pages meta)%nat
         /\ m_total_pages meta = length texts)
    /\ (forall i text, texts !! i = Some text -> forallb isspace text = true ->
         forall pg, pg ∈ pages -> m_page (snd pg) <> S i).
Proof.
  intros Hread Hopen. unfold extract_pdf_by_pages. rewrite Hread. simpl.
  rewrite Hopen. simpl. rewrite extract_pages_numbered, length_map. simpl.
  eexists. split; [reflexivity|].
  assert (Hfilter :
    List.filter (fun it : nat * pystr => truthy (strip (snd it)))
      (combine (seq 1 (length texts)) texts) = nonblank_pages texts).
  { unfold nonblank_pages. apply filter_ext. intros [j t]. apply truthy_strip. }
  rewrite Hfilter.
  assert (Hin : forall j t, (j, t) ∈ nonblank_pages texts ->
            forallb isspace t = false
            /\ (1 <= j <= length texts)%nat /\ texts !! (j - 1)%nat = Some t).
  { intros j t Hjt. unfold nonblank_pages in Hjt.
    apply list_elem_of_In, filter_In in Hjt as [Hc Hnb]. simpl in Hnb.
    apply list_elem_of_In, combine_seq_lookup in Hc as [Hj Hl].
    split; [by apply negb_true_iff|]. split; [lia|done]. }
  split; [|split].
  - rewrite map_map. simpl. rewrite <- (map_id (nonblank_pages texts)) at 2.
    apply map_ext. by intros [j t].
  - intros text meta Hm. apply list_elem_of_In, in_map_iff in Hm as ([j t] & [= <- <-] & Hjt).
    apply list_elem_of_In, Hin in Hjt as (Hnb & Hj & _). simpl.
    split; [|split; [done|split; [lia|done]]].
    intros ->. discriminate.
  - intros i text Hi Hblank pg Hpg Hnum.
    apply list_elem_of_In, in_map_iff in Hpg as ([j t] & <- & Hjt).
    simpl in Hnum. subst j.
    apply list_elem_of_In, Hin in Hjt as (Hnb & _ & Hl).
    replace (S i - 1)%nat with i in Hl by lia. congruence.
Qed.

End ExtractPages.

(** ** [index_papers] *)

Section PipelineFacts.
Import Indexer.
Context (isdecimal : N -> bool) (posix : bool)
  (fitz_open : list byte -> exn + list (exn + pystr))
  (embed : list Document -> option exn) (now : nat -> pystr).

Local Abbreviation extract := (extract_pdf_by_pages fitz_open).
Local Abbreviation index_one := (index_one fitz_open now).
Local Abbreviation index_loop := (index_loop fitz_open now).
Local Abbreviation find_all_pdfs := (find_all_pdfs isdecimal posix).
Local Abbreviation index_papers := (index_papers isdecimal posix fitz_open embed now).

Lemma skip_document_true (force : bool) (fs : gmap pystr IndexedFileRecord)
    (key file_hash : pystr) :
  skip_document force fs key file_hash = true
  <-> (exists r, fs !! key = Some r /\ rec_hash r = Some file_hash) /\ force = false.
Proof.
  unfold skip_document. rewrite andb_true_iff, negb_true_iff. split.
  - intros [-> H]. split; [|done]. destruct (fs !! key) as [r|]; [|done].
    apply bool_decide_eq_true in H. eauto.
  - intros [(r & -> & Hr) ->]. split; [done|]. by apply bool_decide_eq_true.
Qed.

(** A document the test does not skip goes to extraction. *)
Lemma index_one_not_skipped root (force : bool) s paper h :
  get_file_hash root (file_path paper) = inr h ->
  skip_document force (files s) (zotero_key paper) h = false ->
  exists o s', index_one root force s paper = inr (o, s')
    /\ o <> Skipped
    /\ (o = Indexed <-> returns (extract root paper) = true).
Proof.
  intros Hh Hs. unfold Indexer.index_one. rewrite Hh. simpl. rewrite Hs.
  destruct (extract root paper) as [e|pages]; simpl; eexists _, _;
    (split; [reflexivity|]); split; done.
Qed.

(** One iteration.  The test of lines 218-219 reads the dictionary the
    loop holds when it reaches the document: the document is sent to
    [continue] exactly when that dictionary has a record under the key
    with the current fingerprint and [force] is false; otherwise it goes
    through extraction, which either adds it to the batch or fails. *)
Lemma index_one_skip_iff root (force : bool) s paper file_hash :
  get_file_hash root (file_path paper) = inr file_hash ->
  exists o s',
    index_one root force s paper = inr (o, s')
    /\ (o = Skipped
         <-> (exists r, files s !! zotero_key paper = Some r
                        /\ rec_hash r = Some file_hash) /\ force = false)
    /\ (o = Skipped -> s' = s)
    /\ (o = Indexed <-> o <> Skipped /\ returns (extract root paper) = true)
    /\ (o = Failed <-> o <> Skipped /\ returns (extract root paper) = false).
Proof.
  intros Hh. unfold Indexer.index_one. rewrite Hh. simpl.
  pose proof (skip_document_true force (files s) (zotero_key paper) file_hash) as Hs.
  destruct (skip_document force (files s) (zotero_key paper) file_hash).
  - exists Skipped, s. split; [done|]. split; [|split; [done|]].
    + split; [intros _; by apply Hs | done].
    + split; (split; [done | by intros []]).
  - assert (~ ((exists r, files s !! zotero_key paper = Some r
                          /\ rec_hash r = Some file_hash) /\ force = false))
      as Hn by (intros H; apply Hs in H; discriminate).
    destruct (extract root paper) as [e|pages]; simpl; eexists _, _;
      (split; [reflexivity|]); repeat split; try done; try tauto;
      try (by intros []).
Qed.

Lemma index_one_inv root (force : bool) s paper o s' :
  index_one root force s paper = inr (o, s') ->
  exists h, get_file_hash root (file_path paper) = inr h /\
    ((o = Skipped /\ s' = s
      /\ skip_document force (files s) (zotero_key paper) h = true)
     \/ (o = Failed /\ s' = s
         /\ skip_document force (files s) (zotero_key paper) h = false
         /\ returns (extract root paper) = false)
     \/ (o = Indexed
         /\ skip_document force (files s) (zotero_key paper) h = false
         /\ exists pages r, extract root paper = inr pages
              /\ rec_hash r = Some h
              /\ files s' = <[zotero_key paper := r]> (files s)
              /\ all_documents s'
                 = all_documents s ++ List.map make_document pages
              /\ indexed_count s' = S (indexed_count s))).
Proof.
  unfold Indexer.index_one.
  destruct (get_file_hash root (file_path paper)) as [e|h]; simpl; [done|].
  intros H. exists h. split; [done|].
  destruct (skip_document force (files s) (zotero_key paper) h).
  - injection H as <- <-. auto.
  - destruct (extract root paper) as [e|pages]; simpl in H; injection H as <- <-.
    + right. left. auto.
    + right. right. repeat split; try done. eexists _, _. repeat split; done.
Qed.

Lemma index_loop_cons_inv root (force : bool) paper rest s os s' :
  index_loop root force (paper :: rest) s = inr (os, s') ->
  exists o s1 os1, os = o :: os1
    /\ index_one root force s paper = inr (o, s1)
    /\ index_loop root force rest s1 = inr (os1, s').
Proof.
  simpl. destruct (index_one root force s paper) as [e|[o s1]]; simpl; [done|].
  destruct (index_loop root force rest s1) as [e|[os1 s2]] eqn:Hl; simpl; [done|].
  intros [= <- <-]. by exists o, s1, os1.
Qed.

(** The loop touches no record under a key that none of its documents has. *)
Lemma index_loop_frame root (force : bool) papers : forall s os s' k,
  index_loop root force papers s = inr (os, s') ->
  k ∉ List.map zotero_key papers -> files s' !! k = files s !! k.
Proof.
  induction papers as [|paper rest IH]; intros s os s' k H Hk.
  - by injection H as <- <-.
  - apply index_loop_cons_inv in H as (o & s1 & os1 & -> & H1 & Hrest).
    simpl in Hk. apply not_elem_of_cons in Hk as [Hne Hk].
    rewrite (IH _ _ _ _ Hrest Hk).
    apply index_one_inv in H1
      as (h & _ & [(_ & -> & _)|[(_ & -> & _)|(_ & _ & pg & r & _ & _ & -> & _)]]);
      [done|done|].
    by rewrite lookup_insert_ne.
Qed.

(** A document whose key no earlier document of the run has is tested
    against the state as it was loaded. *)
Lemma index_loop_tests_loaded root (force : bool) earlier s os s' key h :
  index_loop root force earlier s = inr (os, s') ->
  key ∉ List.map zotero_key earlier ->
  skip_document force (files s') key h = skip_document force (files s) key h.
Proof.
  intros Hloop Hkey. unfold skip_document.
  by rewrite (index_loop_frame _ _ _ _ _ _ _ Hloop Hkey).
Qed.




(** After a run that does not force, every document with a key of its own
    is settled. *)
Lemma index_loop_settles root papers : forall s os s',
  index_loop root false papers s = inr (os, s') ->
  NoDup (List.map zotero_key papers) ->
  forall p, p ∈ papers -> settled fitz_open root (files s') p.
Proof.
  induction papers as [|paper rest IH]; intros s os s' H Hnd p Hp.
  - by apply elem_of_nil in Hp.
  - apply index_loop_cons_inv in H as (o & s1 & os1 & -> & H1 & Hrest).
    simpl in Hnd. apply NoDup_cons in Hnd as [Hfresh Hnd].
    apply elem_of_cons in Hp as [->|Hp]; [|by eapply IH].
    pose proof (index_loop_frame _ _ _ _ _ _ _ Hrest Hfresh) as Hframe.
    apply index_one_inv in H1 as (h & Hh & Hcases).
    exists h. split; [done|]. rewrite Hframe.
    destruct Hcases
      as [(_ & -> & Hs)|[(_ & _ & _ & Hf)|(_ & _ & pg & r & _ & Hr & -> & _)]].
    + left. by apply skip_document_true in Hs as [? _].
    + by right.
    + left. exists r. by rewrite lookup_insert_eq.
Qed.

(** A run that does not force over settled documents changes nothing. *)
Lemma index_loop_settled root papers s :
  (forall p, p ∈ papers -> settled fitz_open root (files s) p) ->
  exists os, index_loop root false papers s = inr (os, s)
             /\ Forall (fun o => o <> Indexed) os.
Proof.
  induction papers as [|paper rest IH]; intros Hall.
  - exists []. by split.
  - destruct IH as (os & Hloop & Hos).
    { intros p Hp. apply Hall. by right. }
    destruct (Hall paper) as (h & Hh & Hcase); [by left|].
    assert (exists o, index_one root false s paper = inr (o, s) /\ o <> Indexed)
      as (o & Ho & Hne).
    { unfold Indexer.index_one. rewrite Hh. simpl.
      destruct (skip_document false (files s) (zotero_key paper) h) eqn:Hs.
      - by exists Skipped.
      - destruct Hcase as [Hrec|Hfail].
        + assert (skip_document false (files s) (zotero_key paper) h = true)
            by (by apply skip_document_true). congruence.
        + destruct (extract root paper); [|done]. by exists Failed. }
    exists (o :: os). split; [|by constructor].
    simpl. rewrite Ho. simpl. by rewrite Hloop.
Qed.

Lemma index_papers_nonempty d (force : bool) papers :
  find_all_pdfs (storage d) = inr papers -> papers <> [] ->
  index_papers d force
  = match index_loop (storage d) force papers
            {| files := indexed_files
                          (if force
                           then {| indexed_files := ∅; last_indexed := None |}
                           else load_index_state d);
               all_documents := []; indexed_count := O; ticks := O |} with
    | inl e => (inl e, d)
    | inr (_, s) =>
        match (match all_documents s with
               | [] => None
               | docs => embed docs
               end) with
        | Some e => (inl e, d)
        | None =>
            (inr (indexed_count s),
             {| storage := storage d;
                state_file :=
                  Some {| indexed_files := files s;
                          last_indexed := Some (now (ticks s)) |};
                vector_db :=
                  match all_documents s with
                  | [] => vector_db d
                  | docs => Some docs
                  end |})
        end
    end.
Proof.
  intros Hfind Hne. unfold Indexer.index_papers. rewrite Hfind.
  destruct papers; [done|]. reflexivity.
Qed.

Lemma index_papers_empty d (force : bool) :
  find_all_pdfs (storage d) = inr [] -> index_papers d force = (inr O, d).
Proof. intros Hfind. unfold Indexer.index_papers. by rewrite Hfind. Qed.

(** C2, amended. When no two located documents share an identity key,
    running [index_papers] twice with [force=false], the first run
    returning and no file changing under the storage root in between,
    yields 0 on the second run, which leaves the recorded fingerprints and
    the vector store as they were. *)
Theorem index_papers_idempotent d papers n1 d1 :
  find_all_pdfs (storage d) = inr papers ->
  NoDup (List.map zotero_key papers) ->
  index_papers d false = (inr n1, d1) ->
  exists d2, index_papers d1 false = (inr O, d2)
    /\ storage d1 = storage d
    /\ indexed_files (load_index_state d2) = indexed_files (load_index_state d1)
    /\ vector_db d2 = vector_db d1.
Proof.
  intros Hfind Hnd Hrun.
  destruct (decide (papers = [])) as [->|Hne].
  - rewrite index_papers_empty in Hrun by done. injection Hrun as <- <-.
    exists d. by rewrite index_papers_empty.
  - rewrite (index_papers_nonempty _ _ _ Hfind Hne) in Hrun.
    destruct (index_loop (storage d) false papers _) as [e|[os s1]] eqn:Hloop;
      [done|].
    destruct (match all_documents s1 with [] => None | _ => _ end); [done|].
    injection Hrun as <- <-. simpl.
    pose proof (index_loop_settles _ _ _ _ _ Hloop Hnd) as Hset.
    rewrite (index_papers_nonempty _ _ papers) by done. simpl.
    destruct (index_loop_settled (storage d) papers
                {| files := files s1; all_documents := [];
                   indexed_count := O; ticks := O |} Hset) as (os2 & -> & _).
    simpl. eexists. split; [reflexivity|]. done.
Qed.

(** In a forced run the records at the end are those at the start and
    those of the documents extracted. *)
Lemma index_loop_forced root papers : forall s os s',
  index_loop root true papers s = inr (os, s') ->
  forall k r, files s' !! k = Some r ->
    files s !! k = Some r
    \/ exists p h, p ∈ papers /\ zotero_key p = k
         /\ returns (extract root p) = true
         /\ get_file_hash root (file_path p) = inr h /\ rec_hash r = Some h.
Proof.
  induction papers as [|paper rest IH]; intros s os s' H k r Hk.
  - injection H as <- <-. by left.
  - apply index_loop_cons_inv in H as (o & s1 & os1 & -> & H1 & Hrest).
    destruct (IH _ _ _ Hrest k r Hk) as [Hs1|(p & h & Hp & ?)].
    + apply index_one_inv in H1 as (h & Hh & Hcases).
      destruct Hcases
        as [(_ & -> & _)|[(_ & -> & _)|(_ & _ & pg & r' & Hex & Hr & Hf & _)]];
        [by left|by left|].
      rewrite Hf in Hs1. destruct (decide (zotero_key paper = k)) as [<-|Hne].
      * rewrite lookup_insert_eq in Hs1. injection Hs1 as ->.
        right. exists paper, h. rewrite Hex. repeat split; try done. by left.
      * rewrite lookup_insert_ne in Hs1 by done. by left.
    + right. exists p, h. split; [by right|done].
Qed.

Lemma index_loop_keeps root (force : bool) papers : forall s os s' k,
  index_loop root force papers s = inr (os, s') ->
  is_Some (files s !! k) -> is_Some (files s' !! k).
Proof.
  induction papers as [|paper rest IH]; intros s os s' k H Hk.
  - by injection H as <- <-.
  - apply index_loop_cons_inv in H as (o & s1 & os1 & -> & H1 & Hrest).
    eapply IH; [exact Hrest|].
    apply index_one_inv in H1
      as (h & _ & [(_ & -> & _)|[(_ & -> & _)|(_ & _ & pg & r & _ & _ & -> & _)]]);
      [done|done|].
    rewrite lookup_insert. case_decide; eauto.
Qed.

Lemma index_loop_forced_records root papers : forall s os s',
  index_loop root true papers s = inr (os, s') ->
  forall p, p ∈ papers -> returns (extract root p) = true ->
  is_Some (files s' !! zotero_key p).
Proof.
  induction papers as [|paper rest IH]; intros s os s' H p Hp Hex.
  - by apply elem_of_nil in Hp.
  - apply index_loop_cons_inv in H as (o & s1 & os1 & -> & H1 & Hrest).
    apply elem_of_cons in Hp as [->|Hp]; [|by eapply IH].
    eapply index_loop_keeps; [exact Hrest|].
    apply index_one_inv in H1 as (h & Hh & Hcases).
    destruct Hcases
      as [(_ & _ & Hs)|[(_ & _ & _ & Hf)|(_ & _ & pg & r' & _ & _ & -> & _)]].
    + by apply skip_document_true in Hs as [_ ?].
    + congruence.
    + rewrite lookup_insert_eq. eauto.
Qed.

(** C10, amended. When [index_papers] is called with [force=true], at
    least one document is located and the run returns, the prior index
    state plays no part: the state the run writes holds a record under an
    identity key exactly when a located document with that key was
    extracted in that run, and every record carries the fingerprint of
    such a document.  A key whose documents all failed, or whose files
    are gone, ends the run without record, whatever was recorded before. *)
Theorem index_papers_force_rebuilds d papers n d' :
  find_all_pdfs (storage d) = inr papers -> papers <> [] ->
  index_papers d true = (inr n, d') ->
  exists st',
    state_file d' = Some st'
    /\ (forall k, is_Some (indexed_files st' !! k)
          <-> exists p, p ∈ papers /\ zotero_key p = k
                /\ returns (extract (storage d) p) = true)
    /\ (forall k r, indexed_files st' !! k = Some r ->
          exists p h, p ∈ papers /\ zotero_key p = k
            /\ returns (extract (storage d) p) = true
            /\ get_file_hash (storage d) (file_path p) = inr h
            /\ rec_hash r = Some h).
Proof.
  intros Hfind Hne Hrun.
  rewrite (index_papers_nonempty _ _ _ Hfind Hne) in Hrun.
  destruct (index_loop (storage d) true papers _) as [e|[os s1]] eqn:Hloop;
    [done|].
  destruct (match all_documents s1 with [] => None | _ => _ end); [done|].
  injection Hrun as <- <-. simpl. eexists. split; [reflexivity|]. simpl.
  assert (Hrec : forall k r, files s1 !! k = Some r ->
            exists p h, p ∈ papers /\ zotero_key p = k
              /\ returns (extract (storage d) p) = true
              /\ get_file_hash (storage d) (file_path p) = inr h
              /\ rec_hash r = Some h).
  { intros k r Hk.
    destruct (index_loop_forced _ _ _ _ _ Hloop k r Hk) as [Hempty|H]; [|done].
    simpl in Hempty. by rewrite lookup_empty in Hempty. }
  split; [|done]. intros k. split.
  - intros [r Hk]. destruct (Hrec k r Hk) as (p & h & ? & ? & ? & _). eauto.
  - intros (p & Hp & <- & Hex). by eapply index_loop_forced_records.
Qed.

End PipelineFacts.

(** ** Instances of the pipeline theorems *)

Section PipelineExamples.
Import Indexer Examples.

Lemma find_storage_one :
  find_all_pdfs ascii_digit true storage_one = inr [paper_lee].
Proof. vm_compute. reflexivity. Qed.



(** C2 as stated fails when an item directory holds two PDFs: each run
    indexes both again. *)
Lemma index_papers_twice_shared_key :
  fst (run (disk_fresh storage_two) false) = inr 2%nat
  /\ storage (snd (run (disk_fresh storage_two) false)) = storage_two
  /\ fst (run (snd (run (disk_fresh storage_two) false)) false) = inr 2%nat.
Proof. vm_compute. auto. Qed.

Lemma index_papers_idempotent_witness :
  exists d2,
    run (snd (run (disk_fresh storage_one) false)) false = (inr O, d2)
    /\ storage (snd (run (disk_fresh storage_one) false)) = storage_one
    /\ indexed_files (load_index_state d2)
       = indexed_files (load_index_state (snd (run (disk_fresh storage_one) false)))
    /\ vector_db d2 = vector_db (snd (run (disk_fresh storage_one) false)).
Proof.
  apply (index_papers_idempotent ascii_digit true fitz_demo embed_ok clock
           (disk_fresh storage_one) [paper_lee] 1%nat).
  - vm_compute. reflexivity.
  - apply NoDup_singleton.
  - apply injective_projections; [vm_compute; reflexivity | reflexivity].
Defined.

(** C10 as stated fails when the storage directory holds no PDF: the
    forced run returns before it resets or writes the state, and the
    record of the removed file stays. *)
Lemma index_papers_force_keeps_stale :
  find_all_pdfs ascii_digit true (storage disk_emptied) = inr []
  /\ run disk_emptied true = (inr O, disk_emptied)
  /\ indexed_files (load_index_state disk_emptied) !! str "OLDKEY01"
     = Some stale_record.
Proof. repeat split. Qed.

Lemma index_papers_force_rebuilds_witness :
  exists st',
    state_file (snd (run disk_stale_one true)) = Some st'
    /\ indexed_files st' !! str "OLDKEY01" = None
    /\ is_Some (indexed_files st' !! KEY).
Proof.
  destruct (index_papers_force_rebuilds ascii_digit true fitz_demo embed_ok clock
              disk_stale_one [paper_lee] 1%nat (snd (run disk_stale_one true)))
    as (st' & Hst & Hiff & _).
  - vm_compute. reflexivity.
  - discriminate.
  - apply injective_projections; [vm_compute; reflexivity | reflexivity].
  - exists st'. split; [exact Hst|]. split.
    + destruct (indexed_files st' !! str "OLDKEY01") as [r|] eqn:Hold; [|done].
      destruct (proj1 (Hiff (str "OLDKEY01")) (mk_is_Some _ _ Hold))
        as (p & Hp & Hk & _).
      apply list_elem_of_singleton in Hp as ->. discriminate.
    + apply Hiff. exists paper_lee. split; [by left|]. split; [done|].
      vm_compute. reflexivity.
Defined.

End PipelineExamples.

Lemma extract_pdf_by_pages_spec_witness :
  exists pages,
    Indexer.extract_pdf_by_pages Examples.fitz_demo Examples.storage_one
      Examples.paper_lee = inr pages
    /\ List.map (fun pg => (Indexer.m_page (snd pg), fst pg)) pages
       = [(1%nat, str "Intro"); (3%nat, str "End")].
Proof.
  destruct (extract_pdf_by_pages_spec Examples.fitz_demo Examples.storage_one
              Examples.paper_lee [x01] [str "Intro"; str "  "; str "End"])
    as (pages & Hex & Hpages & _).
  - vm_compute. reflexivity.
  - reflexivity.
  - exists pages. split; [exact Hex|]. rewrite Hpages. vm_compute. reflexivity.
Defined.

(** ** [find_all_pdfs] *)

Section FindAllPdfs.
Import Indexer.
Context (isdecimal : N -> bool) (posix : bool).

Local Abbreviation find_all_pdfs := (find_all_pdfs isdecimal posix).
Local Abbreviation pdfs_of_item := (pdfs_of_item isdecimal posix).

(** An absent storage directory gives the empty list, not an exception. *)
Lemma find_all_pdfs_absent : find_all_pdfs None = inr [].
Proof. reflexivity. Qed.

(** What [re.match(r'^[A-Z0-9]{8}$', key)] accepts: eight key characters,
    and also eight key characters followed by one line feed, before which
    [$] matches too. *)
Lemma key_pattern_accepts key :
  is_Some (re_match key_pattern key)
  <-> exists k8, length k8 = 8%nat /\ forallb iskeychar k8 = true
                 /\ (key = k8 \/ key = k8 ++ [LF]).
Proof.
  unfold re_match, key_pattern. split.
  - intros [m Hm]. apply exec_sound in Hm as (s' & cs & Hm & _).
    simpl in Hm. destruct_ex_and. subst.
    match goal with H : _ \/ _ |- _ => destruct H as [->| ->] end.
    + eexists. rewrite app_nil_r. eauto.
    + eexists. eauto.
  - intros (k8 & Hlen & Hk & Hkey).
    assert (exists nl, key = k8 ++ nl /\ (nl = [] \/ nl = [LF])) as (nl & -> & Hnl).
    { destruct Hkey as [->| ->]; [exists []; rewrite app_nil_r; auto | eauto]. }
    eapply (exec_complete _ _ _ nl [] ([] ++ ([] ++ []))); [|done].
    eapply matches_cat; [simpl; auto|]. rewrite <- Hlen.
    eapply matches_cat; [by apply matches_rep | by apply matches_eol].
Qed.

Lemma parse_filename_key filename key path :
  zotero_key (parse_filename isdecimal filename key path) = key
  /\ file_path (parse_filename isdecimal filename key path) = path.
Proof. unfold parse_filename. by destruct (re_match _ _). Qed.

Lemma pdfs_of_item_keys name nd p :
  p ∈ pdfs_of_item name nd ->
  zotero_key p = name /\ is_Some (re_match key_pattern name)
  /\ exists files f, nd = Dir files /\ f ∈ files
       /\ glob_pdf posix (fst f) = true /\ file_path p = [name; fst f].
Proof.
  unfold Indexer.pdfs_of_item. destruct nd as [c|files]; [by intros ?%elem_of_nil|].
  destruct (re_match key_pattern name) as [m|]; [|by intros ?%elem_of_nil].
  intros Hp. apply list_elem_of_In, in_map_iff in Hp as (f & <- & Hf).
  apply filter_In in Hf as [Hf Hglob]. apply list_elem_of_In in Hf.
  destruct (parse_filename_key (fst f) name [name; fst f]) as [-> ->].
  split; [done|]. split; [done|]. by exists files, f.
Qed.

(** Every candidate comes from a file named [*.pdf] in an immediate
    subdirectory whose name the key pattern accepts. *)
Lemma find_all_pdfs_keys root papers p :
  find_all_pdfs root = inr papers -> p ∈ papers ->
  exists k8, length k8 = 8%nat /\ forallb iskeychar k8 = true
    /\ (zotero_key p = k8 \/ zotero_key p = k8 ++ [LF])
    /\ exists entries files f,
         root = Some (Dir entries) /\ (zotero_key p, Dir files) ∈ entries
         /\ f ∈ files /\ glob_pdf posix (fst f) = true
         /\ file_path p = [zotero_key p; fst f].
Proof.
  destruct root as [[c|entries]|]; simpl; [done| |].
  - intros [= <-] Hp. apply list_elem_of_In, in_flat_map in Hp as ([name nd] & He & Hp).
    apply list_elem_of_In in Hp. simpl in Hp. apply pdfs_of_item_keys in Hp
      as (Hk & Hkey & files & f & -> & Hf & Hglob & Hpath).
    apply key_pattern_accepts in Hkey as (k8 & ? & ? & ?).
    rewrite Hk. exists k8. split; [done|]. split; [done|]. split; [done|].
    exists entries, files, f. apply list_elem_of_In in He. done.
  - intros [= <-] ?%elem_of_nil. done.
Qed.

End FindAllPdfs.

(** C6 at the input on which it fails: a subdirectory whose name is a key
    followed by a line feed, nine characters in all, is not excluded. *)
Theorem find_all_pdfs_newline_key :
  Indexer.find_all_pdfs Indexer.ascii_digit true Examples.storage_newline_key
  = inr [ {| Indexer.authors := str "Unknown"; Indexer.year := [];
             Indexer.title := str "paper";
             Indexer.zotero_key := Examples.KEY ++ [LF];
             Indexer.file_path := [Examples.KEY ++ [LF]; str "paper.pdf"] |} ]
  /\ length (Examples.KEY ++ [LF]) = 9%nat.
Proof. vm_compute. auto. Qed.

(** ** [get_file_hash] *)

Section Fingerprint.
Import Indexer.
Context (fitz_open : list byte -> exn + list (exn + pystr)) (now : nat -> pystr).





End Fingerprint.

Section FingerprintExamples.
Import Indexer Examples.



End FingerprintExamples.

(** ** [retrieve_only] and [query] *)

Section Retrieval.
Import Query.

(** [retrieve_only] hands back the first [top_k] chunks of the ranking,
    whatever their scores. *)
Lemma retrieve_only_unfiltered rag question k :
  retrieve_only rag question k
  = List.map citation_of (take k (index rag question))
  /\ length (retrieve_only rag question k)
     = Nat.min k (length (index rag question)).
Proof.
  split; [reflexivity|].
  unfold retrieve_only, retrieve. by rewrite length_map, length_take.
Qed.

Lemma List_filter_sublist {A} (f : A -> bool) (l : list A) :
  List.filter f l `sublist_of` l.
Proof.
  induction l as [|x l IH]; simpl; [constructor|].
  destruct (f x); by constructor.
Qed.

(** The engine behind [query] does drop what is below the cutoff. *)
Lemma query_respects_cutoff rag question c :
  similarity_threshold (rag_config rag) = Some c ->
  exists nodes,
    citations (query rag question) = List.map citation_of nodes
    /\ nodes `sublist_of` take (top_k (rag_config rag)) (index rag question)
    /\ Forall (fun n => exists q, score n = Some q /\ (c <= q)%Q) nodes.
Proof.
  intros Hc. unfold query, retrieve. rewrite Hc. simpl.
  eexists. split; [reflexivity|]. split.
  - apply List_filter_sublist.
  - apply Forall_forall. intros n Hn.
    apply list_elem_of_In, filter_In in Hn as [_ Hn].
    destruct (score n) as [q|]; [|done]. exists q. split; [done|].
    by apply Qle_bool_iff.
Qed.

End Retrieval.

(** C3 at the input on which it fails: the ranking has scores 0.9, 0.75
    and 0.4 and the cutoff is 0.5; [retrieve_only] returns the three
    chunks, the one below the cutoff included, where [query] keeps the
    first two. *)
Theorem retrieve_only_ignores_cutoff :
  List.map Query.c_score (Query.retrieve_only Examples.rag_demo (str "dropout") 5)
  = [(9 # 10)%Q; (3 # 4)%Q; (2 # 5)%Q]
  /\ List.map Query.c_score
       (Query.citations (Query.query Examples.rag_demo (str "dropout")))
     = [(9 # 10)%Q; (3 # 4)%Q].
Proof. vm_compute. auto. Qed.

(** ** [_load_creators] *)

Section Creators.
Import ZoteroMeta.
Implicit Types (r : creator_row) (l : list creator_row).

Lemma insert_row_perm r l : Permutation (insert_row r l) (r :: l).
Proof.
  induction l as [|r' l IH]; simpl; [done|].
  destruct (orderIndex r <? orderIndex r')%Z; [done|].
  rewrite IH. apply perm_swap.
Qed.

Lemma insert_row_Forall (P : creator_row -> Prop) r l :
  P r -> Forall P l -> Forall P (insert_row r l).
Proof.
  intros Hr Hl. eapply Permutation_Forall; [symmetry; apply insert_row_perm|].
  by constructor.
Qed.

Lemma insert_row_sorted r l :
  StronglySorted by_orderIndex l -> StronglySorted by_orderIndex (insert_row r l).
Proof.
  induction 1 as [|r' l Hl IH Hall]; simpl.
  - repeat constructor.
  - destruct (Z.ltb_spec (orderIndex r) (orderIndex r')) as [Hlt|Hge].
    + constructor; [by constructor|]. constructor.
      * unfold by_orderIndex. lia.
      * eapply Forall_impl; [exact Hall|]. unfold by_orderIndex. simpl. lia.
    + constructor; [done|]. by apply insert_row_Forall.
Qed.

Lemma order_by_fold l : forall acc,
  StronglySorted by_orderIndex acc ->
  StronglySorted by_orderIndex (fold_left (fun acc r => insert_row r acc) l acc)
  /\ Permutation (fold_left (fun acc r => insert_row r acc) l acc) (l ++ acc).
Proof.
  induction l as [|r l IH]; intros acc Hacc; simpl; [done|].
  destruct (IH (insert_row r acc)) as [Hs Hp]; [by apply insert_row_sorted|].
  split; [done|]. rewrite Hp, insert_row_perm. by rewrite Permutation_middle.
Qed.

(** [ORDER BY ic.orderIndex] sorts the rows of the join. *)
Lemma order_by_orderIndex_sorted l :
  StronglySorted by_orderIndex (order_by_orderIndex l)
  /\ Permutation (order_by_orderIndex l) l.
Proof.
  destruct (order_by_fold l []) as [Hs Hp]; [constructor|].
  split; [done|]. by rewrite app_nil_r in Hp.
Qed.

Lemma truthy_app (a b : pystr) : truthy a = true -> truthy (a ++ b) = true.
Proof. by destruct a. Qed.

Lemma creator_name_listed r :
  match creator_name r with
  | Some n => has_name r = true /\ listed_as r n
  | None => has_name r = false
  end.
Proof.
  unfold creator_name, has_name, listed_as, present.
  destruct (truthy (default [] (row_firstName r))) eqn:Hf;
    destruct (truthy (default [] (row_lastName r))) eqn:Hl; simpl.
  - by rewrite truthy_app.
  - by rewrite Hf.
  - by rewrite Hl.
  - by rewrite Hf.
Qed.

Lemma omap_creator_name l :
  Forall2 listed_as (List.filter has_name l) (omap creator_name l).
Proof.
  induction l as [|r l IH]; simpl; [constructor|].
  pose proof (creator_name_listed r) as Hr.
  destruct (creator_name r) as [n|].
  - destruct Hr as [-> Hn]. by constructor.
  - by rewrite Hr.
Qed.

(** The rows of the query are the creators of the item. *)
Lemma joined_creator_of db item_id row :
  row ∈ joined db item_id <-> creator_of db item_id row.
Proof.
  unfold joined, creator_of. rewrite list_elem_of_In, in_flat_map. split.
  - intros (ic & Hic & H). apply in_flat_map in H as (c & Hc & H).
    apply in_flat_map in H as (ct & Hct & H).
    destruct (bool_decide_reflect (ic_creatorID ic = c_creatorID c)) as [H1|];
      [|done].
    destruct (bool_decide_reflect (ic_creatorTypeID ic = ct_creatorTypeID ct))
      as [H2|]; [|done].
    destruct (bool_decide_reflect (ic_itemID ic = item_id)) as [H3|]; [|done].
    destruct H as [<-|[]]. exists ic, c, ct.
    rewrite <- !list_elem_of_In in *. done.
  - intros (ic & c & ct & Hic & Hc & Hct & H3 & H1 & H2 & ->).
    exists ic. split; [by apply list_elem_of_In|].
    apply in_flat_map. exists c. split; [by apply list_elem_of_In|].
    apply in_flat_map. exists ct. split; [by apply list_elem_of_In|].
    rewrite (bool_decide_eq_true_2 _ H1), (bool_decide_eq_true_2 _ H2),
      (bool_decide_eq_true_2 _ H3). by left.
Qed.

(** In a table with one row per key, the rows of key [k] are one row. *)
Lemma flat_map_key {X Y} (key : X -> Z) (k : Z) (g : X -> list Y) (l : list X) :
  NoDup (List.map key l) -> Exists (fun x => k = key x) l ->
  exists x, x ∈ l /\ k = key x
    /\ flat_map (fun y => if bool_decide (k = key y) then g y else []) l = g x.
Proof.
  induction l as [|y l IH]; simpl; intros Hnd Hex.
  - by apply Exists_nil in Hex.
  - apply NoDup_cons in Hnd as [Hy Hnd].
    destruct (bool_decide_reflect (k = key y)) as [Hk|Hk].
    + exists y. split; [left|]. split; [done|].
      assert (flat_map (fun y0 => if bool_decide (k = key y0) then g y0 else []) l
              = []) as ->; [|by rewrite app_nil_r].
      clear IH Hex. induction l as [|z l IHl]; simpl; [done|].
      simpl in Hy. apply not_elem_of_cons in Hy as [Hz Hy].
      apply NoDup_cons in Hnd as [_ Hnd].
      rewrite bool_decide_eq_false_2 by congruence. by apply IHl.
    + apply Exists_cons in Hex as [Hex|Hex]; [done|].
      destruct (IH Hnd Hex) as (x & Hx & Hkx & Heq).
      exists x. split; [by right|]. split; [done|]. by rewrite Heq.
Qed.

(** With the keys of the schema, the query returns one row per link of the
    item, in the order of the links. *)
Lemma joined_links db item_id :
  referential db ->
  List.map orderIndex (joined db item_id)
  = List.map ic_orderIndex (links db item_id).
Proof.
  intros (Hc & Hct & Hall). unfold joined, links.
  induction Hall as [|ic ics [Hec Hect] _ IH]; simpl; [done|].
  rewrite map_app, IH. clear IH.
  destruct (flat_map_key c_creatorID (ic_creatorID ic)
              (fun c =>
                 flat_map (fun ct =>
                   if bool_decide (ic_creatorTypeID ic = ct_creatorTypeID ct)
                   then (if bool_decide (ic_itemID ic = item_id)
                         then [ {| orderIndex := ic_orderIndex ic;
                                   row_firstName := firstName c;
                                   row_lastName := lastName c;
                                   row_creatorType := creatorType ct |} ]
                         else [])
                   else []) (creatorTypes db))
              (creators db) Hc Hec) as (c & _ & _ & Hfc).
  destruct (flat_map_key ct_creatorTypeID (ic_creatorTypeID ic)
              (fun ct =>
                 if bool_decide (ic_itemID ic = item_id)
                 then [ {| orderIndex := ic_orderIndex ic;
                           row_firstName := firstName c;
                           row_lastName := lastName c;
                           row_creatorType := creatorType ct |} ]
                 else [])
              (creatorTypes db) Hct Hect) as (ct & _ & _ & Hfct).
  match goal with |- List.map _ ?l ++ _ = _ =>
    assert (l = if bool_decide (ic_itemID ic = item_id)
                then [ {| orderIndex := ic_orderIndex ic;
                          row_firstName := firstName c;
                          row_lastName := lastName c;
                          row_creatorType := creatorType ct |} ]
                else []) as ->
  end.
  { rewrite <- Hfct, <- Hfc. apply flat_map_ext. intros c'.
    destruct (bool_decide (ic_creatorID ic = c_creatorID c')); simpl.
    - apply flat_map_ext. intros ct'.
      destruct (bool_decide (ic_creatorTypeID ic = ct_creatorTypeID ct'));
        [|done].
      by destruct (bool_decide (ic_itemID ic = item_id)).
    - clear. induction (creatorTypes db) as [|ct' l IHl]; simpl; [done|]. exact IHl. }
  by destruct (bool_decide (ic_itemID ic = item_id)).
Qed.

(** C7. For every item, the names [_load_creators] appends to the authors
    list are those of the creators of the item, and of no other: the
    links of the item in [itemCreators], each with the creator it refers
    to (one row per link when the tables have the keys of the schema),
    taken in ascending order index; a creator with both names contributes
    [first last], a creator with exactly one of the two contributes the one
    that is present, and a creator with neither is left out. *)
Theorem load_creators_spec db item_id md :
  exists rows names,
    (forall row, row ∈ rows <-> creator_of db item_id row)
    /\ (referential db ->
        Permutation (List.map orderIndex rows)
                    (List.map ic_orderIndex (links db item_id)))
    /\ StronglySorted by_orderIndex rows
    /\ authors (_load_creators db item_id md) = authors md ++ names
    /\ Forall2 listed_as (List.filter has_name rows) names.
Proof.
  exists (order_by_orderIndex (joined db item_id)),
         (omap creator_name (order_by_orderIndex (joined db item_id))).
  destruct (order_by_orderIndex_sorted (joined db item_id)) as [Hs Hp].
  split; [|split; [|split; [done|split; [reflexivity|]]]].
  - intros row. rewrite <- joined_creator_of.
    split; intros H; [by rewrite <- Hp|by rewrite Hp].
  - intros Href. rewrite <- (joined_links db item_id Href).
    by apply Permutation_map.
  - apply omap_creator_name.
Qed.

Lemma load_creators_spec_witness :
  exists rows,
    Permutation (List.map orderIndex rows) [2%Z; 0%Z; 1%Z]
    /\ StronglySorted by_orderIndex rows
    /\ authors (_load_creators db_creators 1 {| item_key := []; authors := [] |})
       = [str "Consortium"; str "Ada Lovelace"].
Proof.
  destruct (load_creators_spec db_creators 1 {| item_key := []; authors := [] |})
    as (rows & names & _ & Hlinks & Hsorted & Hauthors & _).
  exists rows. split; [|split; [exact Hsorted|]].
  - apply Hlinks.
    repeat split; apply (bool_decide_unpack _); vm_compute; exact I.
  - vm_compute. reflexivity.
Defined.

End Creators.

(** ** The tools of [mcp_server.py] *)

Section Tools.
Import Server.









End Tools.

(** * Further properties of the code *)

(** ** [parse_filename]: the stem and the year *)

Section ParseFilenameMore.
Import Indexer.
Context (isdecimal : N -> bool).

Lemma before_last_dot_none (s : pystr) : DOT ∉ s -> before_last_dot s = None.
Proof.
  induction s as [|c s IH]; simpl; [done|].
  intros [Hc Hs]%not_elem_of_cons. rewrite (IH Hs).
  destruct (N.eqb_spec c DOT); congruence.
Qed.

Lemma before_last_dot_app (base rest : pystr) :
  DOT ∉ rest -> before_last_dot (base ++ DOT :: rest) = Some base.
Proof.
  intros Hrest. induction base as [|c base IH]; simpl.
  - by rewrite (before_last_dot_none rest Hrest).
  - by rewrite IH.
Qed.

Lemma lower_ascii_dot c : lower_ascii c = DOT -> c = DOT.
Proof.
  unfold lower_ascii, DOT.
  destruct ((65 <=? c) && (c <=? 90)) eqn:Hc; [|done].
  apply andb_true_iff in Hc as [?%N.leb_le ?%N.leb_le]. lia.
Qed.

Lemma drop_map_list {A B} (f : A -> B) (l : list A) : forall n,
  drop n (List.map f l) = List.map f (drop n l).
Proof. induction l as [|x l IH]; intros [|n]; simpl; auto. Qed.

(** X1. The stem of a file name that ends in [.pdf], in any letter case, is
    the name without these four characters, dots inside the name being
    kept; any other file name is its own stem. *)
Theorem stem_spec (filename : pystr) :
  (lower_endswith_pdf filename = true ->
     exists ext, filename = stem filename ++ ext /\ length ext = 4%nat
                 /\ List.map lower_ascii ext = str ".pdf")
  /\ (lower_endswith_pdf filename = false -> stem filename = filename).
Proof.
  unfold stem. split; intros Hpdf; rewrite Hpdf; [|done].
  unfold lower_endswith_pdf, endswith in Hpdf.
  apply bool_decide_eq_true in Hpdf. rewrite length_map in Hpdf.
  set (n := (length filename - length (str ".pdf"))%nat) in *.
  rewrite drop_map_list in Hpdf.
  exists (drop n filename).
  destruct (drop n filename) as [|c0 [|c1 [|c2 [|c3 [|c4 ext]]]]] eqn:Hext;
    try discriminate.
  injection Hpdf as H0 H1 H2 H3. apply lower_ascii_dot in H0 as ->.
  assert (DOT ∉ [c1; c2; c3]) as Hnodot.
  { rewrite !not_elem_of_cons. repeat split; [| | |by intros ?%elem_of_nil];
      intros <-; discriminate. }
  split; [|split; [done|simpl; by rewrite H1, H2, H3]].
  rewrite <- (take_drop n filename) at 1 2. rewrite Hext.
  unfold rsplit_dot_head. by rewrite (before_last_dot_app _ _ Hnodot).
Qed.

(** X2. The year [parse_filename] returns is empty or made of four decimal
    digits. *)
Theorem parse_filename_year filename key path :
  year (parse_filename isdecimal filename key path) = []
  \/ (length (year (parse_filename isdecimal filename key path)) = 4%nat
      /\ forallb isdecimal (year (parse_filename isdecimal filename key path))
         = true).
Proof.
  unfold parse_filename.
  pose proof (re_match_filename isdecimal (stem filename)) as Hre.
  destruct (re_match (filename_pattern isdecimal) (stem filename)) as [m|];
    [|by left].
  destruct Hre as (a & y & t & -> & (rest & _ & _ & _ & Ht) & _).
  destruct Ht as (? & ? & ? & ? & ? & ? & ? & _ & _ & _ & _ & Hlen & Hdig & _).
  right. by split.
Qed.

End ParseFilenameMore.

(** ** [find_all_pdfs]: the candidates *)

Section FindAllPdfsMore.
Import Indexer.
Context (isdecimal : N -> bool) (posix : bool).

(** X3. The candidates of an existing storage directory are exactly the
    entries named [*.pdf] of its immediate subdirectories whose name the
    key pattern accepts, each parsed from its file name; files placed in
    the storage directory itself give no candidate. *)
Theorem find_all_pdfs_candidates entries :
  exists papers,
    find_all_pdfs isdecimal posix (Some (Dir entries)) = inr papers
    /\ forall p, p ∈ papers <->
         exists name files f,
           (name, Dir files) ∈ entries
           /\ is_Some (re_match key_pattern name)
           /\ f ∈ files /\ glob_pdf posix (fst f) = true
           /\ p = parse_filename isdecimal (fst f) name [name; fst f].
Proof.
  eexists. split; [reflexivity|]. intros p.
  rewrite list_elem_of_In, in_flat_map. split.
  - intros ([name nd] & He & Hp). simpl in Hp.
    unfold pdfs_of_item in Hp. destruct nd as [c|files]; [done|].
    destruct (re_match key_pattern name) as [m|] eqn:Hm; [|done].
    apply in_map_iff in Hp as (f & <- & Hf). apply filter_In in Hf as [Hf Hg].
    exists name, files, f. rewrite Hm. rewrite !list_elem_of_In. eauto 10.
  - intros (name & files & f & He & [m Hm] & Hf & Hg & ->).
    exists (name, Dir files). split; [by apply list_elem_of_In|].
    simpl. rewrite Hm. apply in_map_iff. exists f. split; [done|].
    apply filter_In. split; [by apply list_elem_of_In|done].
Qed.

End FindAllPdfsMore.

(** ** [index_papers]: what a run keeps, counts and hands on *)

Section PipelineMore.
Import Indexer.
Context (isdecimal : N -> bool) (posix : bool)
  (fitz_open : list byte -> exn + list (exn + pystr))
  (embed : list Document -> option exn) (now : nat -> pystr).

Local Abbreviation extract := (extract_pdf_by_pages fitz_open).
Local Abbreviation index_one := (index_one fitz_open now).
Local Abbreviation index_loop := (index_loop fitz_open now).
Local Abbreviation find_all_pdfs := (find_all_pdfs isdecimal posix).
Local Abbreviation index_papers := (index_papers isdecimal posix fitz_open embed now).




Lemma index_loop_raises root (force : bool) papers : forall s p,
  p ∈ papers -> returns (get_file_hash root (file_path p)) = false ->
  exists e, index_loop root force papers s = inl e.
Proof.
  induction papers as [|paper rest IH]; intros s p Hp Hbad.
  - by apply elem_of_nil in Hp.
  - simpl. destruct (index_one root force s paper) as [e|[o s1]] eqn:H1;
      simpl; [eauto|].
    apply elem_of_cons in Hp as [->|Hp].
    + apply index_one_inv in H1 as (h & Hh & _). rewrite Hh in Hbad. done.
    + destruct (IH s1 p Hp Hbad) as (e & ->). simpl. eauto.
Qed.

(** X5. The fingerprint is taken outside the [try]: one located path that
    cannot be read as a file (a directory named [*.pdf]) makes the whole
    run raise, and nothing is written. *)
Theorem index_papers_unreadable d (force : bool) papers p :
  find_all_pdfs (storage d) = inr papers -> p ∈ papers ->
  returns (get_file_hash (storage d) (file_path p)) = false ->
  exists e, index_papers d force = (inl e, d).
Proof.
  intros Hfind Hp Hbad.
  assert (papers <> []) as Hne by (intros ->; by apply elem_of_nil in Hp).
  rewrite (index_papers_nonempty _ _ _ _ _ _ _ _ Hfind Hne).
  match goal with
  | |- context [index_loop ?r ?f ?ps ?s0] =>
      destruct (index_loop_raises r f ps s0 p Hp Hbad) as (e & ->)
  end.
  eauto.
Qed.

(** The loop leaves alone the record of a key none of whose documents is
    extracted. *)
Lemma index_loop_untouched root (force : bool) papers : forall s os s' k,
  index_loop root force papers s = inr (os, s') ->
  (forall p, p ∈ papers -> zotero_key p = k -> returns (extract root p) = false) ->
  files s' !! k = files s !! k.
Proof.
  induction papers as [|paper rest IH]; intros s os s' k H Hk.
  - by injection H as <- <-.
  - apply index_loop_cons_inv in H as (o & s1 & os1 & -> & H1 & Hrest).
    rewrite (IH _ _ _ _ Hrest); [|intros p Hp; apply Hk; by right].
    apply index_one_inv in H1
      as (h & _ & [(_ & -> & _)|[(_ & -> & _)|(_ & _ & pg & r & Hex & _ & -> & _)]]);
      [done|done|].
    destruct (decide (zotero_key paper = k)) as [Heq|Hne].
    + specialize (Hk paper (list_elem_of_here _ _) Heq). rewrite Hex in Hk. done.
    + by rewrite lookup_insert_ne.
Qed.

(** X6. Without [force], a run that returns leaves the record of an identity
    key as it was whenever no located document with that key is extracted:
    records of removed files stay, and a document whose extraction fails
    keeps whatever was recorded, so that the next run tries it again. *)
Theorem index_papers_record_kept d papers n d' k :
  find_all_pdfs (storage d) = inr papers ->
  index_papers d false = (inr n, d') ->
  (forall p, p ∈ papers -> zotero_key p = k ->
     returns (extract (storage d) p) = false) ->
  indexed_files (load_index_state d') !! k
  = indexed_files (load_index_state d) !! k.
Proof.
  intros Hfind Hrun Hk.
  destruct (decide (papers = [])) as [->|Hne].
  - rewrite index_papers_empty in Hrun by done. by injection Hrun as <- <-.
  - rewrite (index_papers_nonempty _ _ _ _ _ _ _ _ Hfind Hne) in Hrun.
    destruct (index_loop (storage d) false papers _) as [e|[os s1]] eqn:Hloop;
      [done|].
    destruct (match all_documents s1 with [] => None | _ => _ end); [done|].
    injection Hrun as <- <-. unfold load_index_state at 1. simpl.
    by rewrite (index_loop_untouched _ _ _ _ _ _ _ Hloop Hk).
Qed.

(** X7. Without [force], no run deletes a record: every key recorded before a
    run that returns is recorded after it. *)
Theorem index_papers_never_forgets d n d' k :
  index_papers d false = (inr n, d') ->
  is_Some (indexed_files (load_index_state d) !! k) ->
  is_Some (indexed_files (load_index_state d') !! k).
Proof.
  intros Hrun Hk.
  destruct (find_all_pdfs (storage d)) as [e|papers] eqn:Hfind.
  { unfold Indexer.index_papers in Hrun. by rewrite Hfind in Hrun. }
  destruct (decide (papers = [])) as [->|Hne].
  - rewrite index_papers_empty in Hrun by done. by injection Hrun as <- <-.
  - rewrite (index_papers_nonempty _ _ _ _ _ _ _ _ Hfind Hne) in Hrun.
    destruct (index_loop (storage d) false papers _) as [e|[os s1]] eqn:Hloop;
      [done|].
    destruct (match all_documents s1 with [] => None | _ => _ end); [done|].
    injection Hrun as <- <-. unfold load_index_state at 1. simpl.
    by eapply index_loop_keeps.
Qed.

Lemma extract_pages_chunks paper total : forall doc i pages,
  extract_pages paper total i doc = inr pages ->
  Forall (fun pg => forallb isspace (fst pg) = false
                    /\ (i + 1 <= m_page (snd pg) <= i + length doc)%nat
                    /\ snd pg = page_meta paper (m_page (snd pg)) total) pages.
Proof.
  induction doc as [|page rest IH]; intros i pages; simpl.
  - intros [= <-]. constructor.
  - destruct page as [e|text]; simpl; [done|].
    destruct (extract_pages paper total (S i) rest) as [e|pages'] eqn:Hrest;
      simpl; [done|].
    apply IH in Hrest.
    assert (Forall (fun pg => forallb isspace (fst pg) = false
                      /\ (i + 1 <= m_page (snd pg) <= i + S (length rest))%nat
                      /\ snd pg = page_meta paper (m_page (snd pg)) total) pages')
      as Hrest'.
    { eapply Forall_impl; [exact Hrest|]. simpl. intros pg (? & ? & ?).
      split; [done|]. split; [lia|done]. }
    rewrite truthy_strip. destruct (forallb isspace text) eqn:Hb; simpl;
      intros [= <-]; [done|].
    constructor; [|done]. simpl. split; [done|]. split; [lia|done].
Qed.

Lemma extract_chunks root papers paper pages :
  paper ∈ papers -> extract root paper = inr pages ->
  Forall (chunk_of fitz_open root papers) (List.map make_document pages).
Proof.
  intros Hin Hex. pose proof Hex as Hex'. unfold extract_pdf_by_pages in Hex.
  destruct (read_bytes root (file_path paper)) as [e|content]; simpl in Hex; [done|].
  destruct (fitz_open content) as [e|doc]; simpl in Hex; [done|].
  apply extract_pages_chunks in Hex. apply Forall_forall. intros d Hd.
  apply list_elem_of_In, in_map_iff in Hd as (pg & <- & Hpg).
  rewrite Forall_forall in Hex. apply list_elem_of_In in Hpg.
  destruct (Hex pg Hpg) as (Hb & Hnum & Hmeta).
  unfold chunk_of, make_document. simpl. rewrite Hmeta. simpl.
  split; [done|]. split; [lia|]. split; [done|]. split; [done|].
  exists paper. rewrite Hex'. done.
Qed.

Lemma chunk_of_weaken root paper papers doc :
  chunk_of fitz_open root papers doc -> chunk_of fitz_open root (paper :: papers) doc.
Proof.
  intros (H1 & H2 & H3 & H4 & p & Hp & H5).
  split; [done|]. split; [done|]. split; [done|]. split; [done|].
  exists p. split; [by right|done].
Qed.

Lemma index_loop_documents root (force : bool) papers : forall s os s',
  index_loop root force papers s = inr (os, s') ->
  exists new,
    all_documents s' = all_documents s ++ new
    /\ Forall (chunk_of fitz_open root papers) new
    /\ (indexed_count s <= indexed_count s' <= indexed_count s + length papers)%nat
    /\ (indexed_count s' = indexed_count s -> new = []).
Proof.
  induction papers as [|paper rest IH]; intros s os s' H.
  - injection H as <- <-. exists []. rewrite app_nil_r. simpl.
    repeat split; try done; lia.
  - apply index_loop_cons_inv in H as (o & s1 & os1 & -> & H1 & Hrest).
    destruct (IH _ _ _ Hrest) as (new & Hdocs & Hall & Hcount & Hzero).
    assert (Forall (chunk_of fitz_open root (paper :: rest)) new) as Hall'.
    { eapply Forall_impl; [exact Hall|]. intros. by apply chunk_of_weaken. }
    apply index_one_inv in H1
      as (h & _ & [(_ & -> & _)|[(_ & -> & _)|
                   (_ & _ & pg & r & Hex & _ & _ & Hd1 & Hc1)]]).
    + exists new. simpl. repeat split; try done; lia.
    + exists new. simpl. repeat split; try done; lia.
    + exists (List.map make_document pg ++ new). rewrite Hdocs, Hd1, Hc1 in *.
      rewrite app_assoc. simpl. split; [done|]. split.
      * apply Forall_app. split; [|done].
        eapply extract_chunks; [by left|done].
      * split; [lia|]. intros Heq. lia.
Qed.


(** X9. The number a run returns is at most the number of located documents,
    and a run that returns 0 leaves the persisted vector store untouched. *)
Theorem index_papers_count d (force : bool) papers n d' :
  find_all_pdfs (storage d) = inr papers ->
  index_papers d force = (inr n, d') ->
  (n <= length papers)%nat /\ (n = O -> vector_db d' = vector_db d).
Proof.
  intros Hfind Hrun.
  destruct (decide (papers = [])) as [->|Hne].
  - rewrite index_papers_empty in Hrun by done. injection Hrun as <- <-.
    split; [simpl; lia|done].
  - rewrite (index_papers_nonempty _ _ _ _ _ _ _ _ Hfind Hne) in Hrun.
    destruct (index_loop (storage d) force papers _) as [e|[os s1]] eqn:Hloop;
      [done|].
    apply index_loop_documents in Hloop as (new & Hdocs & _ & Hcount & Hzero).
    simpl in *.
    destruct (match all_documents s1 with [] => None | _ => _ end); [done|].
    injection Hrun as <- <-. split; [lia|]. intros H0. simpl.
    rewrite Hdocs, (Hzero H0). done.
Qed.

End PipelineMore.

(** ** [get_file_hash]: the shape of a fingerprint *)

Section FingerprintFormat.
Import Indexer.

Lemma hexdigit_ishex x : x < 16 -> ishex (MD5.hexdigit x) = true.
Proof.
  intros Hx. unfold MD5.hexdigit, ishex.
  destruct (N.ltb_spec x 10).
  - apply orb_true_iff. left. apply andb_true_iff. rewrite !N.leb_le. lia.
  - apply orb_true_iff. right. apply andb_true_iff. rewrite !N.leb_le. lia.
Qed.

Lemma hex_format bs :
  Forall (fun b => b < 256) bs ->
  length (MD5.hex bs) = (2 * length bs)%nat /\ forallb ishex (MD5.hex bs) = true.
Proof.
  induction 1 as [|b bs Hb _ [IHl IHh]]; [done|].
  unfold MD5.hex in *. cbn [flat_map app length forallb].
  rewrite IHl, IHh. split; [lia|].
  rewrite !hexdigit_ishex; [done| |].
  - apply N.mod_lt. done.
  - apply N.Div0.div_lt_upper_bound. lia.
Qed.

Lemma le_bytes_format n x :
  length (MD5.le_bytes n x) = n /\ Forall (fun b => b < 256) (MD5.le_bytes n x).
Proof.
  unfold MD5.le_bytes. split; [by rewrite length_map, length_seq|].
  apply Forall_forall. intros b Hb.
  apply list_elem_of_In, in_map_iff in Hb as (i & <- & _). by apply N.mod_lt.
Qed.

Lemma hexdigest_format (msg : list byte) :
  length (MD5.hexdigest msg) = 32%nat /\ forallb ishex (MD5.hexdigest msg) = true.
Proof.
  unfold MD5.hexdigest, MD5.digest.
  set (r := MD5.blocks _ _ _).
  destruct (le_bytes_format 4 (MD5.rA r)) as [La Fa].
  destruct (le_bytes_format 4 (MD5.rB r)) as [Lb Fb].
  destruct (le_bytes_format 4 (MD5.rC r)) as [Lc Fc].
  destruct (le_bytes_format 4 (MD5.rD r)) as [Ld Fd].
  destruct (hex_format (MD5.le_bytes 4 (MD5.rA r) ++ MD5.le_bytes 4 (MD5.rB r)
                        ++ MD5.le_bytes 4 (MD5.rC r) ++ MD5.le_bytes 4 (MD5.rD r)))
    as [Hl Hh].
  { rewrite !Forall_app. auto. }
  split; [|exact Hh]. rewrite Hl, !length_app, La, Lb, Lc, Ld. reflexivity.
Qed.

(** X10. Whenever [get_file_hash] returns, the fingerprint is a string of 32
    lowercase hexadecimal digits; it raises exactly when the path does not
    name a regular file. *)
Theorem get_file_hash_format root filepath :
  match get_file_hash root filepath with
  | inr h =>
      length h = 32%nat /\ forallb ishex h = true
      /\ exists content, resolve root filepath = Some (File content)
  | inl _ => forall content, resolve root filepath <> Some (File content)
  end.
Proof.
  unfold get_file_hash, read_bytes.
  destruct (resolve root filepath) as [[content|entries]|];
    unfold mbind, exn_bind, mret, exn_ret; try done.
  destruct (hexdigest_format
              (fold_left MD5.update
                 (read_chunks (length content) 4096 content) MD5.new))
    as [Hl Hh].
  split; [exact Hl|]. split; [exact Hh|]. eauto.
Qed.

End FingerprintFormat.

(** ** The listings of [mcp_server.py] *)

Section SortDesc.
Context {A : Type} (lt : A -> A -> bool).
Hypothesis lt_trans : forall a b c, lt a b = true -> lt b c = true -> lt a c = true.

Lemma insert_desc_perm x l : Permutation (insert_desc lt x l) (x :: l).
Proof.
  induction l as [|y l IH]; simpl; [done|].
  destruct (lt y x); [done|]. rewrite IH. apply perm_swap.
Qed.

Lemma sort_desc_fold l : forall acc,
  Permutation (fold_left (fun acc x => insert_desc lt x acc) l acc) (l ++ acc).
Proof.
  induction l as [|x l IH]; intros acc; simpl; [done|].
  rewrite IH, insert_desc_perm. by rewrite Permutation_middle.
Qed.

Lemma sort_desc_perm l : Permutation (sort_desc lt l) l.
Proof. unfold sort_desc. rewrite sort_desc_fold. by rewrite app_nil_r. Qed.

Hypothesis lt_irrefl : forall a, lt a a = false.

Lemma insert_desc_sorted x l :
  StronglySorted (fun a b => lt a b = false) l ->
  StronglySorted (fun a b => lt a b = false) (insert_desc lt x l).
Proof.
  induction 1 as [|y l Hl IH Hall]; simpl.
  - repeat constructor.
  - destruct (lt y x) eqn:Hyx.
    + constructor; [by constructor|]. constructor.
      * destruct (lt x y) eqn:Hxy; [|done].
        pose proof (lt_trans _ _ _ Hyx Hxy) as Hyy. by rewrite lt_irrefl in Hyy.
      * eapply Forall_impl; [exact Hall|]. simpl. intros z Hyz.
        destruct (lt x z) eqn:Hxz; [|done].
        by rewrite (lt_trans _ _ _ Hyx Hxz) in Hyz.
    + constructor; [done|].
      eapply Permutation_Forall; [symmetry; apply insert_desc_perm|].
      by constructor.
Qed.

Lemma sort_desc_sorted l :
  StronglySorted (fun a b => lt a b = false) (sort_desc lt l).
Proof.
  unfold sort_desc.
  assert (forall acc, StronglySorted (fun a b => lt a b = false) acc ->
            StronglySorted (fun a b => lt a b = false)
              (fold_left (fun acc x => insert_desc lt x acc) l acc)) as H.
  { induction l as [|x l IH]; intros acc Hacc; simpl; [done|].
    by apply IH, insert_desc_sorted. }
  apply H. constructor.
Qed.

End SortDesc.

Lemma sort_desc_map {A B} (g : A -> B) (lt : A -> A -> bool) (lt' : B -> B -> bool)
    (l : list A) :
  (forall a b, lt' (g a) (g b) = lt a b) ->
  sort_desc lt' (List.map g l) = List.map g (sort_desc lt l).
Proof.
  intros Hg. unfold sort_desc.
  assert (forall acc,
            fold_left (fun acc x => insert_desc lt' x acc) (List.map g l)
              (List.map g acc)
            = List.map g (fold_left (fun acc x => insert_desc lt x acc) l acc)) as H.
  { induction l as [|x l IH]; intros acc; simpl; [done|].
    rewrite <- IH. f_equal.
    induction acc as [|y acc IHacc]; simpl; [done|].
    rewrite Hg. destruct (lt y x); simpl; [done|]. by rewrite IHacc. }
  apply (H []).
Qed.

Section StrOrder.
Implicit Types a b c : pystr.

Lemma str_lt_irrefl a : str_lt a a = false.
Proof.
  induction a as [|x a IH]; simpl; [done|].
  by rewrite N.ltb_irrefl, N.eqb_refl, IH.
Qed.

Lemma str_lt_trans a : forall b c,
  str_lt a b = true -> str_lt b c = true -> str_lt a c = true.
Proof.
  induction a as [|x a IH]; intros [|y b] [|z c]; simpl; try done.
  rewrite !orb_true_iff, !andb_true_iff, !N.ltb_lt, !N.eqb_eq.
  intros [Hxy|[-> Hab]] [Hyz|[-> Hbc]].
  - left. lia.
  - by left.
  - by left.
  - right. split; [done|]. by eapply IH.
Qed.

Lemma key_lt_irrefl (k : pystr * pystr) : Server.key_lt k k = false.
Proof.
  unfold Server.key_lt. by rewrite !str_lt_irrefl, andb_false_r.
Qed.

Lemma key_lt_trans (k1 k2 k3 : pystr * pystr) :
  Server.key_lt k1 k2 = true -> Server.key_lt k2 k3 = true ->
  Server.key_lt k1 k3 = true.
Proof.
  unfold Server.key_lt.
  rewrite !orb_true_iff, !andb_true_iff, !bool_decide_eq_true.
  intros [H12|[E12 H12]] [H23|[E23 H23]].
  - left. by eapply str_lt_trans.
  - left. by rewrite <- E23.
  - left. by rewrite E12.
  - right. split; [congruence|]. by eapply str_lt_trans.
Qed.

End StrOrder.

Section Histogram.
Import Server.
Implicit Types (years : list (pystr * Z)) (fs : list (pystr * FileInfo)).

Lemma str_lt_total (a : pystr) : forall b,
  str_lt a b = false -> str_lt b a = false -> a = b.
Proof.
  induction a as [|x a IH]; intros [|y b]; simpl; try done.
  rewrite !orb_false_iff, !andb_false_iff, !N.ltb_ge, !N.eqb_neq.
  intros [Hxy Ha] [Hyx Hb].
  assert (x = y) as -> by lia. f_equal. apply IH; tauto.
Qed.

Lemma assoc_count_year y y' years :
  assoc y' (count_year y years)
  = if bool_decide (y' = y) then Some (default 0%Z (assoc y years) + 1)%Z
    else assoc y' years.
Proof.
  induction years as [|[y0 n0] years IH]; simpl.
  - rewrite (bool_decide_ext (y = y') (y' = y)) by done.
    by case_bool_decide.
  - destruct (decide (y0 = y)) as [->|Hy0].
    + rewrite !bool_decide_eq_true_2 by done. simpl.
      rewrite (bool_decide_ext (y = y') (y' = y)) by done.
      by case_bool_decide.
    + rewrite (bool_decide_eq_false_2 (y0 = y)) by done. simpl. rewrite IH.
      destruct (decide (y' = y)) as [->|Hy'].
      * rewrite (bool_decide_eq_false_2 (y0 = y)) by done.
        by rewrite bool_decide_eq_true_2.
      * rewrite (bool_decide_eq_false_2 (y' = y)) by done. done.
Qed.

Lemma assoc_None {A} y (l : list (pystr * A)) :
  assoc y l = None <-> y ∉ List.map fst l.
Proof.
  induction l as [|[k v] l IH]; simpl.
  - split; [intros _ ?%elem_of_nil; done|done].
  - rewrite not_elem_of_cons. case_bool_decide as Hk.
    + split; [done|]. intros [? _]. congruence.
    + rewrite IH. split; [intros ?; split; congruence|tauto].
Qed.

Lemma count_year_keys y years :
  NoDup (List.map fst years) -> NoDup (List.map fst (count_year y years)).
Proof.
  induction years as [|[y0 n0] years IH]; simpl; intros Hnd.
  - apply NoDup_singleton.
  - apply NoDup_cons in Hnd as [Hfresh Hnd]. case_bool_decide as Hy0; simpl.
    + by apply NoDup_cons.
    + apply NoDup_cons. split; [|by apply IH].
      apply assoc_None. apply assoc_None in Hfresh.
      rewrite assoc_count_year. by rewrite bool_decide_eq_false_2.
Qed.

Lemma year_count_snoc y fs e :
  year_count y (fs ++ [e])
  = (year_count y fs + if bool_decide (info_year (snd e) = y) then 1 else 0)%Z.
Proof.
  unfold year_count. rewrite List.filter_app, length_app. simpl.
  destruct (bool_decide (info_year (snd e) = y)); simpl; lia.
Qed.

Lemma year_count_nonneg y fs : (0 <= year_count y fs)%Z.
Proof. unfold year_count. lia. Qed.

Lemma year_histogram_fold fs : forall years pre,
  NoDup (List.map fst years) ->
  (forall y, assoc y years
             = if decide (year_count y pre = 0%Z) then None
               else Some (year_count y pre)) ->
  NoDup (List.map fst
           (fold_left (fun years e => count_year (info_year (snd e)) years) fs years))
  /\ forall y,
       assoc y (fold_left (fun years e => count_year (info_year (snd e)) years)
                  fs years)
       = if decide (year_count y (pre ++ fs) = 0%Z) then None
         else Some (year_count y (pre ++ fs)).
Proof.
  induction fs as [|e fs IH]; intros years pre Hnd Hinv; simpl.
  - by rewrite app_nil_r.
  - replace (pre ++ e :: fs) with ((pre ++ [e]) ++ fs)
      by (by rewrite <- app_assoc).
    apply IH; [by apply count_year_keys|].
    intros y. rewrite assoc_count_year, year_count_snoc.
    pose proof (year_count_nonneg y pre) as Hpos.
    destruct (decide (info_year (snd e) = y)) as [Hy|Hy].
    + subst y.
      rewrite !(bool_decide_eq_true_2 (info_year (snd e) = info_year (snd e)) eq_refl).
      rewrite Hinv.
      destruct (decide (year_count (info_year (snd e)) pre = 0%Z)) as [Hz|Hz];
        simpl.
      * rewrite Hz. reflexivity.
      * case_decide; [lia|done].
    + rewrite (bool_decide_eq_false_2 (y = info_year (snd e))) by congruence.
      rewrite (bool_decide_eq_false_2 (info_year (snd e) = y)) by congruence.
      rewrite Hinv, Z.add_0_r. done.
Qed.

Lemma assoc_elem_of {A} y (v : A) (l : list (pystr * A)) :
  NoDup (List.map fst l) -> (assoc y l = Some v <-> (y, v) ∈ l).
Proof.
  induction l as [|[k w] l IH]; simpl; intros Hnd.
  - split; [done|by intros ?%elem_of_nil].
  - apply NoDup_cons in Hnd as [Hfresh Hnd]. rewrite elem_of_cons.
    case_bool_decide as Hk.
    + subst k. split; [intros [= ->]; by left|].
      intros [[= ->]|Hin]; [done|]. exfalso. apply Hfresh.
      apply list_elem_of_In, in_map_iff. exists (y, v).
      split; [done|by apply list_elem_of_In].
    + rewrite (IH Hnd). split; [by right|]. intros [[= ? ?]|?]; congruence.
Qed.

Lemma assoc_perm {A} y (l l' : list (pystr * A)) :
  NoDup (List.map fst l) -> Permutation l l' -> assoc y l = assoc y l'.
Proof.
  intros Hnd Hp.
  assert (NoDup (List.map fst l')) as Hnd'.
  { by rewrite <- (Permutation_map fst Hp). }
  destruct (assoc y l) as [v|] eqn:Hl.
  - symmetry. apply assoc_elem_of; [done|]. rewrite <- Hp.
    by apply assoc_elem_of.
  - symmetry. apply assoc_None. apply assoc_None in Hl.
    intros Hin. apply Hl. by rewrite (Permutation_map fst Hp).
Qed.

Lemma dict_lookup_map y (l : list (pystr * Z)) :
  dict_lookup y (List.map (fun e => (fst e, VInt (snd e))) l)
  = VInt <$> assoc y l.
Proof.
  induction l as [|[k n] l IH]; simpl; [done|].
  by case_bool_decide.
Qed.

(** X11. The dictionary [papers_by_year] that [zotero_list_papers] and
    [zotero_stats] return maps each year to the number of entries of the
    state with that year; a year without entry is absent, and the years
    come in strictly descending order. *)
Theorem papers_by_year_spec fs :
  exists d,
    papers_by_year fs = VDict d
    /\ (forall y, dict_lookup y d
                  = if decide (year_count y fs = 0%Z) then None
                    else Some (VInt (year_count y fs)))
    /\ StronglySorted (fun a b => str_lt b a = true) (List.map fst d).
Proof.
  eexists. split; [reflexivity|].
  destruct (year_histogram_fold fs [] [] NoDup_nil_2) as [Hnd Hassoc].
  { intros y. by case_decide. }
  fold (year_histogram fs) in Hnd, Hassoc. simpl in Hassoc.
  set (lt := fun a b : pystr * Z => str_lt (fst a) (fst b)).
  pose proof (sort_desc_perm lt (year_histogram fs)) as Hperm.
  assert (NoDup (List.map fst (sort_desc lt (year_histogram fs)))) as Hnd'.
  { by rewrite (Permutation_map fst Hperm). }
  split.
  - intros y. rewrite dict_lookup_map.
    rewrite (assoc_perm y _ (year_histogram fs) Hnd' Hperm), Hassoc.
    by case_decide.
  - rewrite map_map. simpl.
    assert (StronglySorted (fun a b => lt a b = false)
              (sort_desc lt (year_histogram fs))) as Hs.
    { apply sort_desc_sorted.
      - intros a b c. apply str_lt_trans.
      - intros a. apply str_lt_irrefl. }
    revert Hs Hnd'. generalize (sort_desc lt (year_histogram fs)).
    induction 1 as [|e l Hl IH Hall]; simpl; intros Hnd'; [constructor|].
    apply NoDup_cons in Hnd' as [Hfresh Hnd']. constructor; [by apply IH|].
    apply Forall_forall. intros k Hk.
    apply list_elem_of_In, in_map_iff in Hk as (e' & <- & He').
    rewrite Forall_forall in Hall. apply list_elem_of_In in He'.
    specialize (Hall e' He'). unfold lt in Hall.
    destruct (str_lt (fst e') (fst e)) eqn:Hlt; [done|]. exfalso.
    apply Hfresh. rewrite (str_lt_total _ _ Hall Hlt).
    apply list_elem_of_In, in_map_iff. exists e'.
    split; [done|by apply list_elem_of_In].
Qed.

End Histogram.

Section Listing.
Import Server.

Lemma take_map_list {A B} (g : A -> B) (l : list A) : forall n,
  take n (List.map g l) = List.map g (take n l).
Proof. induction l as [|x l IH]; intros [|n]; simpl; auto. by rewrite IH. Qed.

(** X12. When the state file loads, [zotero_list_papers] succeeds and lists the
    entries the year filter selects, in descending order of (year, title),
    cut after [limit] entries; [returned] is the number listed and
    [total_in_library] the number of entries of the state, whatever the
    filter. *)
Theorem zotero_list_papers_listing w params config dir state :
  load_config w = inr config -> config_cache_dir config = inr dir ->
  state_file_exists w dir = true -> load_state w dir = inr state ->
  exists t sorted,
    zotero_list_papers w params = inr t
    /\ field t "status" = Some (VS "success")
    /\ field t "total_in_library"
       = Some (VInt (Z.of_nat (length (state_indexed_files state))))
    /\ Permutation sorted
         (List.filter (year_selected (year params)) (state_indexed_files state))
    /\ StronglySorted
         (fun a b => key_lt (entry_key a) (entry_key b) = false) sorted
    /\ field t "papers"
       = Some (VList (List.map (fun e => snd (paper_entry e))
                        (take (limit params) sorted)))
    /\ field t "returned"
       = Some (VInt (Z.of_nat (length (take (limit params) sorted)))).
Proof.
  intros Hc Hd He Hs.
  set (selected := List.filter (year_selected (year params))
                     (state_indexed_files state)).
  set (lt := fun a b : pystr * FileInfo => key_lt (entry_key a) (entry_key b)).
  assert (zotero_list_papers w params
          = inr (Dumps (VDict [
              (str "status", VS "success");
              (str "total_in_library",
                 VInt (Z.of_nat (length (state_indexed_files state))));
              (str "returned",
                 VInt (Z.of_nat (length (take (limit params) (sort_desc lt selected)))));
              (str "year_filter",
                 match year params with Some y => VStr y | None => VNone end);
              (str "papers_by_year", papers_by_year (state_indexed_files state));
              (str "papers",
                 VList (List.map (fun e => snd (paper_entry e))
                          (take (limit params) (sort_desc lt selected)))) ])))
    as Hrun.
  { unfold zotero_list_papers, zotero_list_papers_body, mbind, exn_bind, mret, exn_ret.
    rewrite Hc, Hd, He, Hs. cbn [negb try_except].
    rewrite (sort_desc_map paper_entry lt); [|done].
    rewrite map_map, take_map_list, length_map. reflexivity. }
  exists (Dumps (VDict [
              (str "status", VS "success");
              (str "total_in_library",
                 VInt (Z.of_nat (length (state_indexed_files state))));
              (str "returned",
                 VInt (Z.of_nat (length (take (limit params) (sort_desc lt selected)))));
              (str "year_filter",
                 match year params with Some y => VStr y | None => VNone end);
              (str "papers_by_year", papers_by_year (state_indexed_files state));
              (str "papers",
                 VList (List.map (fun e => snd (paper_entry e))
                          (take (limit params) (sort_desc lt selected)))) ])),
         (sort_desc lt selected).
  split; [exact Hrun|]. split; [reflexivity|]. split; [reflexivity|].
  split; [apply sort_desc_perm|]. split.
  - apply sort_desc_sorted.
    + intros a b c. apply key_lt_trans.
    + intros a. apply key_lt_irrefl.
  - split; reflexivity.
Qed.

End Listing.

Section Grouping.
Import Server Query.
Context (w : World) (keyword : pystr).
Implicit Types (papers : list (pystr * PaperGroup)).

Local Abbreviation group_ok := (group_ok w keyword).

Lemma add_excerpt_spec title fresh x papers :
  g_title fresh = title -> contains (lower w keyword) (lower w title) = true ->
  excerpts fresh = [] ->
  NoDup (List.map fst papers) -> Forall group_ok papers ->
  NoDup (List.map fst (add_excerpt title fresh x papers))
  /\ Forall group_ok (add_excerpt title fresh x papers)
  /\ excerpt_count (add_excerpt title fresh x papers) = S (excerpt_count papers)
  /\ (forall t, t ∈ List.map fst (add_excerpt title fresh x papers)
                <-> t = title \/ t ∈ List.map fst papers).
Proof.
  intros Hft Hmatch Hfe. unfold excerpt_count.
  induction papers as [|[t g] papers IH]; simpl; intros Hnd Hok.
  - rewrite Hfe. simpl. split; [apply NoDup_singleton|]. split; [|split].
    + constructor; [|constructor]. unfold MoreSpec.group_ok. simpl. by rewrite Hft.
    + done.
    + intros t. rewrite list_elem_of_singleton.
      split; [by left|]. by intros [?|?%elem_of_nil].
  - apply NoDup_cons in Hnd as [Hfresh Hnd].
    apply Forall_cons in Hok as [Hg Hok].
    case_bool_decide as Ht.
    + subst t. simpl. split; [by apply NoDup_cons|]. split; [|split].
      * constructor; [|done]. destruct Hg as (Hg1 & Hg2 & Hg3).
        unfold MoreSpec.group_ok. simpl in *. split; [done|]. split; [done|].
        by destruct (excerpts g).
      * rewrite <- app_assoc, !length_app. simpl. lia.
      * intros t. rewrite elem_of_cons. tauto.
    + destruct (IH Hnd Hok) as (IHnd & IHok & IHcount & IHkeys). simpl.
      split; [|split; [|split]].
      * apply NoDup_cons. split; [|done]. rewrite IHkeys. tauto.
      * by constructor.
      * rewrite !length_app in *. lia.
      * intros t'. rewrite !elem_of_cons, IHkeys. tauto.
Qed.

Lemma group_by_title_invariant nodes : forall papers result,
  group_by_title w keyword nodes papers = inr result ->
  NoDup (List.map fst papers) -> Forall group_ok papers ->
  NoDup (List.map fst result) /\ Forall group_ok result
  /\ excerpt_count result
     = (excerpt_count papers
        + length (List.filter (title_matches w keyword) nodes))%nat.
Proof.
  induction nodes as [|n nodes IH]; intros papers result; simpl.
  - intros [= <-] Hnd Hok. repeat split; try done; lia.
  - unfold title_matches at 1.
    destruct (dict_get (metadata (node n)) (str "title") (VS "Unknown"))
      as [| | | |title| |] eqn:Htitle; simpl; try done.
    unfold VS in Htitle. rewrite Htitle.
    destruct (contains (lower w keyword) (lower w title)) eqn:Hc; simpl.
    + intros Hrun Hnd Hok.
      match type of Hrun with
      | group_by_title _ _ _ (add_excerpt ?t ?f ?x _) = _ =>
          destruct (add_excerpt_spec t f x papers) as (Hnd1 & Hok1 & Hcount1 & _);
            try done
      end.
      destruct (IH _ _ Hrun Hnd1 Hok1) as (? & ? & Hcount).
      repeat split; try done. rewrite Hcount, Hcount1. lia.
    + intros Hrun Hnd Hok. by apply IH.
Qed.

Lemma group_by_title_returns nodes :
  Forall has_str_title nodes ->
  forall papers, exists result, group_by_title w keyword nodes papers = inr result.
Proof.
  induction 1 as [|n nodes [t Ht] _ IH]; intros papers; simpl; [eauto|].
  unfold VS. rewrite Ht. simpl.
  destruct (contains (lower w keyword) (lower w t)); simpl; apply IH.
Qed.

End Grouping.

(** ** The groups of [zotero_get_paper_content] *)

Section GroupContents.
Import Server Query.
Context (w : World) (keyword : pystr).
Implicit Types (papers : list (pystr * PaperGroup)) (n : NodeWithScore)
  (nodes seen : list NodeWithScore) (t : pystr).

Local Abbreviation matches_kw := (title_matches w keyword).
Local Abbreviation group_of := (group_of w keyword).
Local Abbreviation titled := (titled w keyword).

Lemma first_seen_snoc (l : list pystr) x :
  first_seen (l ++ [x])
  = if bool_decide (x ∈ first_seen l) then first_seen l else first_seen l ++ [x].
Proof. unfold first_seen. by rewrite fold_left_app. Qed.

Lemma elem_of_first_seen (l : list pystr) x : x ∈ first_seen l <-> x ∈ l.
Proof.
  induction l as [|y l IH] using rev_ind; [done|].
  rewrite first_seen_snoc, elem_of_app, list_elem_of_singleton.
  case_bool_decide as Hy.
  - rewrite IH. split; [by left|]. intros [H| ->]; [done|]. by apply IH.
  - rewrite elem_of_app, list_elem_of_singleton, IH. done.
Qed.

Lemma NoDup_first_seen (l : list pystr) : NoDup (first_seen l).
Proof.
  induction l as [|y l IH] using rev_ind; [constructor|].
  rewrite first_seen_snoc. case_bool_decide as Hy; [done|].
  apply NoDup_app. split; [done|]. split; [|apply NoDup_singleton].
  by intros x Hx ->%list_elem_of_singleton.
Qed.

Lemma add_excerpt_keys t fresh x papers :
  List.map fst (add_excerpt t fresh x papers)
  = if bool_decide (t ∈ List.map fst papers) then List.map fst papers
    else List.map fst papers ++ [t].
Proof.
  induction papers as [|[t' g] papers IH]; simpl; [done|].
  destruct (bool_decide_reflect (t' = t)) as [->|Hne]; simpl.
  - rewrite bool_decide_eq_true_2; [done|left].
  - rewrite IH. destruct (bool_decide_reflect (t ∈ List.map fst papers)) as [Hin|Hin].
    + rewrite bool_decide_eq_true_2; [done|by right].
    + rewrite bool_decide_eq_false_2; [done|].
      intros [?|?]%elem_of_cons; congruence.
Qed.

Lemma titled_snoc t seen n :
  titled t (seen ++ [n])
  = titled t seen
    ++ (if matches_kw n && bool_decide (node_title n = Some t) then [n] else []).
Proof. unfold GroupSpec.titled. by rewrite List.filter_app. Qed.

(** A node of another title, or of a title without the keyword, leaves a
    group as it is. *)
Lemma group_of_other seen n tg :
  matches_kw n && bool_decide (node_title n = Some (fst tg)) = false ->
  GroupSpec.group_of w keyword seen tg ->
  GroupSpec.group_of w keyword (seen ++ [n]) tg.
Proof.
  intros Hn. unfold GroupSpec.group_of. rewrite titled_snoc, Hn, app_nil_r. done.
Qed.

(** The group of a title takes the excerpt of one more node of that
    title. *)
Lemma group_of_more seen n t g :
  matches_kw n = true -> node_title n = Some t ->
  GroupSpec.group_of w keyword seen (t, g) ->
  GroupSpec.group_of w keyword (seen ++ [n])
    (t, {| g_title := g_title g; g_authors := g_authors g; g_year := g_year g;
           g_total_pages := g_total_pages g;
           excerpts := excerpts g ++ [excerpt_of n] |}).
Proof.
  intros Hm Ht (Hg1 & Hg2 & n0 & Hhead & Hmeta). unfold GroupSpec.group_of.
  simpl in *. rewrite titled_snoc, Hm, Ht, bool_decide_eq_true_2 by done.
  simpl. split; [done|]. split; [by rewrite map_app, Hg2|].
  exists n0. split; [|done].
  destruct (titled t seen); [done|]. done.
Qed.

Lemma add_excerpt_groups seen n t papers :
  matches_kw n = true -> node_title n = Some t ->
  (t ∉ List.map fst papers -> titled t seen = []) ->
  NoDup (List.map fst papers) ->
  Forall (GroupSpec.group_of w keyword seen) papers ->
  Forall (GroupSpec.group_of w keyword (seen ++ [n]))
    (add_excerpt t
       {| g_title := t;
          g_authors := dict_get (metadata (node n)) (str "authors") (VS "Unknown");
          g_year := dict_get (metadata (node n)) (str "year") (VStr []);
          g_total_pages := dict_get (metadata (node n)) (str "total_pages") (VInt 0);
          excerpts := [] |}
       (excerpt_of n) papers).
Proof.
  intros Hm Ht. induction papers as [|[t' g] papers IH]; simpl;
    intros Hnew Hnd Hall.
  - constructor; [|constructor]. unfold GroupSpec.group_of. simpl.
    rewrite titled_snoc, Hm, Ht, bool_decide_eq_true_2 by done.
    rewrite Hnew by apply not_elem_of_nil. simpl. split; [done|]. split; [done|].
    exists n. done.
  - apply NoDup_cons in Hnd as [Hfresh Hnd].
    apply Forall_cons in Hall as [Hg Hall].
    destruct (bool_decide_reflect (t' = t)) as [->|Hne].
    + constructor; [by apply group_of_more|].
      apply Forall_forall. intros tg Htg.
      apply group_of_other; [|by eapply Forall_forall in Hall].
      rewrite Ht. apply andb_false_iff. right. apply bool_decide_eq_false.
      intros [= ->]. apply Hfresh.
      apply list_elem_of_In, in_map. by apply list_elem_of_In.
    + constructor.
      * apply group_of_other; [|done]. rewrite Ht. apply andb_false_iff.
        right. apply bool_decide_eq_false. simpl. congruence.
      * apply IH; [|done|done]. intros Hnot. apply Hnew.
        intros [?|?]%elem_of_cons; [congruence|done].
Qed.

(** The titles of the matching nodes. *)
Lemma titles_snoc seen n :
  omap node_title (List.filter matches_kw (seen ++ [n]))
  = omap node_title (List.filter matches_kw seen)
    ++ (if matches_kw n then option_list (node_title n) else []).
Proof.
  rewrite List.filter_app, omap_app. simpl.
  destruct (matches_kw n); simpl; [|done]. by destruct (node_title n).
Qed.

Lemma titled_nil t seen :
  t ∉ omap node_title (List.filter matches_kw seen) -> titled t seen = [].
Proof.
  intros Hnot. destruct (titled t seen) as [|n l] eqn:Hl; [done|].
  exfalso. apply Hnot.
  assert (In n (titled t seen)) as Hin by (rewrite Hl; by left).
  unfold GroupSpec.titled in Hin.
  apply filter_In in Hin as [Hin [Hm Ht%bool_decide_eq_true]%andb_true_iff].
  apply list_elem_of_omap. exists n. split; [|done].
  apply list_elem_of_In, filter_In. by split.
Qed.

(** The loop keeps: the titles of the groups are the distinct titles of
    the matching nodes seen so far, in the order they were met, and each
    group is the group of its title. *)
Lemma group_by_title_contents nodes : forall seen papers result,
  group_by_title w keyword nodes papers = inr result ->
  List.map fst papers = first_seen (omap node_title (List.filter matches_kw seen)) ->
  Forall (GroupSpec.group_of w keyword seen) papers ->
  List.map fst result
  = first_seen (omap node_title (List.filter matches_kw (seen ++ nodes)))
  /\ Forall (GroupSpec.group_of w keyword (seen ++ nodes)) result.
Proof.
  induction nodes as [|n nodes IH]; intros seen papers result; simpl.
  - intros [= <-] Hk Hg. by rewrite app_nil_r.
  - replace (seen ++ n :: nodes) with ((seen ++ [n]) ++ nodes)
      by (by rewrite <- app_assoc).
    destruct (dict_get (metadata (node n)) (str "title") (VS "Unknown"))
      as [| | | |t| |] eqn:Htitle; simpl; try done.
    assert (node_title n = Some t) as Hnt.
    { unfold node_title. unfold VS in Htitle. by rewrite Htitle. }
    assert (matches_kw n = contains (lower w keyword) (lower w t)) as Hmk.
    { unfold title_matches. unfold VS in Htitle. by rewrite Htitle. }
    destruct (contains (lower w keyword) (lower w t)) eqn:Hc; simpl.
    + intros Hrun Hk Hg. apply (IH _ _ _ Hrun).
      * rewrite add_excerpt_keys, titles_snoc, Hmk, Hnt. simpl.
        rewrite first_seen_snoc, <- Hk. done.
      * apply add_excerpt_groups; [done|done| | |done].
        -- rewrite Hk, elem_of_first_seen. apply titled_nil.
        -- rewrite Hk. apply NoDup_first_seen.
    + intros Hrun Hk Hg. apply (IH _ _ _ Hrun).
      * rewrite titles_snoc, Hmk. by rewrite app_nil_r.
      * apply Forall_forall. intros tg Htg. apply group_of_other.
        -- by rewrite Hmk.
        -- by eapply Forall_forall in Hg.
Qed.

End GroupContents.

Section ToolResults.
Import Server Query.

(** X13. When the index loads and every retrieved title is a string,
    [zotero_get_paper_content] returns one group for each distinct title,
    among those of the retrieved nodes, that contains the keyword (letter
    case apart), in the order in which these titles are first retrieved.
    The group of a title carries that title, the authors, year and page
    count of the first retrieved node of the title, and one excerpt for
    each retrieved node of the title, and of no other, in retrieval
    order; every node with a matching title is in the group of its title.
    The status is [not_found] exactly when no retrieved node has a
    matching title. *)
Theorem zotero_get_paper_content_groups w params nodes :
  get_index w = None ->
  retriever_retrieve w 10 (title_keyword params) = inr nodes ->
  Forall has_str_title nodes ->
  exists t papers,
    zotero_get_paper_content w params = inr t
    /\ List.map fst papers
       = first_seen (omap node_title
                       (List.filter (title_matches w (title_keyword params)) nodes))
    /\ (forall n, n ∈ nodes -> title_matches w (title_keyword params) n = true ->
          exists tg, tg ∈ papers /\ node_title n = Some (fst tg))
    /\ NoDup (List.map fst papers)
    /\ Forall (group_of w (title_keyword params) nodes) papers
    /\ Forall (group_ok w (title_keyword params)) papers
    /\ excerpt_count papers
       = length (List.filter (title_matches w (title_keyword params)) nodes)
    /\ match List.filter (title_matches w (title_keyword params)) nodes with
       | [] => papers = [] /\ field t "status" = Some (VS "not_found")
       | _ => field t "status" = Some (VS "success")
              /\ field t "papers"
                 = Some (VList (List.map (fun e => group_value (snd e)) papers))
       end.
Proof.
  intros Hidx Hret Hstr.
  destruct (group_by_title_returns w (title_keyword params) nodes Hstr [])
    as (papers & Hgroup).
  destruct (group_by_title_invariant w (title_keyword params) nodes [] papers
              Hgroup) as (Hnd & Hok & Hcount); [constructor|constructor|].
  destruct (group_by_title_contents w (title_keyword params) nodes [] [] papers
              Hgroup) as (Hkeys & Hgroups); [done|constructor|].
  simpl in Hkeys, Hgroups.
  unfold excerpt_count at 2 in Hcount. simpl in Hcount.
  assert (forall n, n ∈ nodes -> title_matches w (title_keyword params) n = true ->
            exists tg, tg ∈ papers /\ node_title n = Some (fst tg)) as Hevery.
  { intros n Hn Hm.
    destruct (proj1 (Forall_forall _ _) Hstr n Hn) as [t Ht].
    assert (node_title n = Some t) as Hnt by (unfold node_title; by rewrite Ht).
    assert (t ∈ List.map fst papers) as Hin.
    { rewrite Hkeys, elem_of_first_seen. apply list_elem_of_omap.
      exists n. split; [|done]. apply list_elem_of_In, filter_In.
      split; [by apply list_elem_of_In|done]. }
    apply list_elem_of_In, in_map_iff in Hin as (tg & <- & Htg).
    exists tg. split; [by apply list_elem_of_In|done]. }
  unfold zotero_get_paper_content, zotero_get_paper_content_body,
    mbind, exn_bind, mret, exn_ret.
  rewrite Hidx. cbn [raise_opt]. rewrite Hret, Hgroup.
  destruct papers as [|tg papers].
  - eexists _, []. split; [reflexivity|]. split; [done|]. split; [done|].
    split; [done|]. split; [done|]. split; [done|]. split; [done|].
    destruct (List.filter _ nodes); [by split|]. by simpl in Hcount.
  - eexists _, (tg :: papers). split; [reflexivity|]. split; [done|].
    split; [done|]. split; [done|]. split; [done|]. split; [done|].
    split; [done|].
    destruct (List.filter _ nodes) eqn:Hf; [|by split].
    apply Forall_cons in Hok as [(_ & _ & Hex) _].
    unfold excerpt_count in Hcount. simpl in Hcount.
    rewrite length_app in Hcount. destruct (excerpts (snd tg)); [done|].
    simpl in Hcount. lia.
Qed.

Lemma snippet_bounds (t : pystr) :
  (length (snippet t) <= 503)%nat
  /\ take 500 (snippet t) = take 500 t
  /\ ((length t <= 500)%nat -> snippet t = t).
Proof.
  unfold snippet. destruct (Nat.ltb_spec 500 (length t)) as [Hlong|Hshort].
  - split; [|split; [|intros; lia]].
    + rewrite length_app, length_take.
      change (length (str "...")) with 3%nat. lia.
    + rewrite take_app_le by (rewrite length_take; lia).
      rewrite take_take. f_equal.
  - split; [lia|]. by split.
Qed.

(** X14. When the index loads and the retriever returns, [zotero_search]
    answers [no_results] for an empty retrieval and otherwise lists one
    result per retrieved node, in retrieval order, [total_results] being
    their number; a snippet has at most 503 characters, agrees with the
    text of its node on the first 500, and is that text when the text has
    at most 500 characters. *)
Theorem zotero_search_results w (params : SearchInput) nodes :
  get_index w = None ->
  retriever_retrieve w (Server.top_k params) (Server.query params) = inr nodes ->
  exists t,
    zotero_search w params = inr t
    /\ match nodes with
       | [] => field t "status" = Some (VS "no_results")
       | _ =>
           field t "status" = Some (VS "success")
           /\ field t "total_results" = Some (VInt (Z.of_nat (length nodes)))
           /\ exists results,
                field t "results" = Some (VList results)
                /\ Forall2
                     (fun n r =>
                        exists d s, r = VDict d
                          /\ dict_lookup (str "snippet") d = Some (VStr s)
                          /\ (length s <= 503)%nat
                          /\ take 500 s = take 500 (text (node n))
                          /\ ((length (text (node n)) <= 500)%nat
                              -> s = text (node n)))
                     nodes results
       end.
Proof.
  intros Hidx Hret.
  unfold zotero_search, zotero_search_body, mbind, exn_bind, mret, exn_ret.
  rewrite Hidx. cbn [raise_opt]. rewrite Hret.
  destruct nodes as [|n nodes]; [eexists; split; reflexivity|].
  eexists. split; [reflexivity|]. split; [reflexivity|]. split.
  - cbn [field]. unfold dict_lookup. simpl. by rewrite length_map.
  - eexists. split; [reflexivity|].
    generalize (n :: nodes). intros l. induction l as [|n' l IH]; simpl;
      constructor; [|exact IH].
    eexists _, _. split; [reflexivity|]. split; [reflexivity|].
    apply snippet_bounds.
Qed.

End ToolResults.

(** ** Instances of the further theorems *)

Section MoreInstances.
Import Indexer Examples MoreExamples.


Lemma index_papers_unreadable_witness :
  exists e, run (disk_fresh storage_pdf_dir) false
            = (inl e, disk_fresh storage_pdf_dir).
Proof.
  apply (index_papers_unreadable ascii_digit true fitz_demo embed_ok clock
           (disk_fresh storage_pdf_dir) false
           [ {| authors := str "Unknown"; year := []; title := str "a";
                zotero_key := KEY; file_path := [KEY; str "a.pdf"] |};
             paper_b ] paper_b).
  - vm_compute. reflexivity.
  - right. left.
  - vm_compute. reflexivity.
Defined.

Lemma index_papers_record_kept_witness :
  indexed_files (load_index_state (snd (run disk_stale_one false))) !! str "OLDKEY01"
  = Some stale_record.
Proof.
  rewrite (index_papers_record_kept ascii_digit true fitz_demo embed_ok clock
             disk_stale_one [paper_lee] 1%nat (snd (run disk_stale_one false))
             (str "OLDKEY01")).
  - reflexivity.
  - vm_compute. reflexivity.
  - apply injective_projections; [vm_compute; reflexivity | reflexivity].
  - intros p ->%list_elem_of_singleton. discriminate.
Defined.

Lemma index_papers_never_forgets_witness :
  is_Some (indexed_files (load_index_state (snd (run disk_stale_one false)))
             !! str "OLDKEY01").
Proof.
  apply (index_papers_never_forgets ascii_digit true fitz_demo embed_ok clock
           disk_stale_one 1%nat).
  - apply injective_projections; [vm_compute; reflexivity | reflexivity].
  - by exists stale_record.
Defined.


Lemma index_papers_count_witness :
  (1 <= length [paper_lee])%nat
  /\ (1%nat = O ->
      vector_db (snd (run (disk_fresh storage_one) false))
      = vector_db (disk_fresh storage_one)).
Proof.
  apply (index_papers_count ascii_digit true fitz_demo embed_ok clock
           (disk_fresh storage_one) false [paper_lee] 1%nat).
  - vm_compute. reflexivity.
  - apply injective_projections; [vm_compute; reflexivity | reflexivity].
Defined.

Lemma zotero_list_papers_listing_witness :
  exists t sorted,
    Server.zotero_list_papers world_demo
      {| Server.year := Some (str "2025"); Server.limit := 1%nat |} = inr t
    /\ Permutation sorted
         (List.filter (Server.year_selected (Some (str "2025")))
            (Server.state_indexed_files state_demo))
    /\ field t "returned" = Some (VInt (Z.of_nat (length (take 1 sorted)))).
Proof.
  destruct (zotero_list_papers_listing world_demo
              {| Server.year := Some (str "2025"); Server.limit := 1%nat |}
              {| Server.cache_dir := Some (str "cache") |} (str "cache") state_demo
              eq_refl eq_refl eq_refl eq_refl)
    as (t & sorted & Hrun & _ & _ & Hperm & _ & _ & Hret).
  exists t, sorted. split; [exact Hrun|]. split; [exact Hperm|exact Hret].
Defined.

Lemma zotero_get_paper_content_groups_witness :
  exists t papers,
    Server.zotero_get_paper_content world_two_titles
      {| Server.title_keyword := str "DROP" |}
    = inr t
    /\ List.map fst papers = [str "Dropout"; str "Dropout rates"]
    /\ List.map (fun tg => Server.excerpts (snd tg)) papers
       = [ [excerpt_of (chunk_of_title "Dropout" 1);
            excerpt_of (chunk_of_title "Dropout" 3)];
           [excerpt_of (chunk_of_title "Dropout rates" 7)] ].
Proof.
  destruct (zotero_get_paper_content_groups world_two_titles
              {| Server.title_keyword := str "DROP" |}
              [ chunk_of_title "Dropout" 1; chunk_of_title "Dropout rates" 7;
                chunk_of_title "Attention" 2; chunk_of_title "Dropout" 3 ]
              eq_refl eq_refl)
    as (t & papers & Hrun & Hkeys & _ & _ & Hgroups & _).
  - repeat constructor; eexists; reflexivity.
  - exists t, papers. split; [exact Hrun|].
    assert (List.map fst papers = [str "Dropout"; str "Dropout rates"]) as Hk.
    { rewrite Hkeys. vm_compute. reflexivity. }
    split; [exact Hk|].
    destruct papers as [|[t1 g1] [|[t2 g2] [|? ?]]]; try discriminate Hk.
    injection Hk as -> ->.
    apply Forall_cons in Hgroups as [(_ & He1 & _) Hgroups].
    apply Forall_cons in Hgroups as [(_ & He2 & _) _].
    simpl in He1, He2. simpl. rewrite He1, He2. vm_compute. reflexivity.
Defined.

Lemma zotero_search_results_witness :
  exists t,
    Server.zotero_search world_demo
      {| Server.query := str "dropout"; Server.top_k := 5%nat |} = inr t
    /\ field t "total_results" = Some (VInt 2).
Proof.
  destruct (zotero_search_results world_demo
              {| Server.query := str "dropout"; Server.top_k := 5%nat |}
              [chunk 1 (9 # 10); chunk 2 (3 # 4)] eq_refl eq_refl)
    as (t & Hrun & _ & Htotal & _).
  exists t. split; [exact Hrun|exact Htotal].
Defined.

End MoreInstances.

(** * Further properties: the metadata of [zotero_meta.py] *)

(** ** [zotero_meta.py]: the year of an item *)

Section ItemYear.
Import ZoteroItems.
Variable isdecimal : N -> bool.
Implicit Types (s d : pystr) (m : PaperMetadata).

Lemma year_exec_Some subject s caps :
  exec subject (year_pattern isdecimal) s [] (fun _ cs => Some cs) = Some caps ->
  exists d post, s = d ++ post /\ length d = 4%nat
                 /\ forallb isdecimal d = true /\ caps = [d].
Proof.
  unfold year_pattern. intros H.
  change (rep 4 isdecimal s
            (fun s' => Some ([] ++ [take (length s - length s') s])) = Some caps) in H.
  apply rep_Some in H as (w & s' & -> & Hlen & Hw & H).
  injection H as <-. exists w, s'. repeat split; auto.
  rewrite length_app. replace (length w + length s' - length s')%nat
    with (length w) by lia.
  by rewrite take_app_length.
Qed.

Lemma year_exec_None subject s d post :
  exec subject (year_pattern isdecimal) s [] (fun _ cs => Some cs) = None ->
  s = d ++ post -> length d = 4%nat -> forallb isdecimal d = false.
Proof.
  unfold year_pattern. intros H -> Hlen.
  change (rep 4 isdecimal (d ++ post)
            (fun s' => Some ([] ++ [take (length (d ++ post) - length s') (d ++ post)]))
          = None) in H.
  destruct (forallb isdecimal d) eqn:Hd; [|done].
  rewrite <- Hlen in H. by rewrite rep_app in H.
Qed.

Lemma no_year_nil : no_year isdecimal [].
Proof.
  intros pre d post Heq Hlen. symmetry in Heq.
  apply app_eq_nil in Heq as [_ [-> _]%app_eq_nil]. done.
Qed.

Lemma search_from_nil subject (r : re) :
  search_from subject r []
  = match exec subject r [] [] (fun _ caps => Some caps) with
    | Some m => Some m
    | None => None
    end.
Proof. reflexivity. Qed.

Lemma search_from_cons subject (r : re) c s :
  search_from subject r (c :: s)
  = match exec subject r (c :: s) [] (fun _ caps => Some caps) with
    | Some m => Some m
    | None => search_from subject r s
    end.
Proof. reflexivity. Qed.

(** [re.search] finds the leftmost run of four digits, if there is one. *)
Lemma search_year subject s :
  match search_from subject (year_pattern isdecimal) s with
  | Some caps => exists d, caps = [d] /\ leftmost_year isdecimal s d
  | None => no_year isdecimal s
  end.
Proof.
  induction s as [|c s IH].
  - rewrite search_from_nil.
    destruct (exec subject (year_pattern isdecimal) [] []
                (fun _ cs => Some cs)) as [caps|] eqn:He.
    + apply year_exec_Some in He as (d & post & Heq & Hlen & _).
      symmetry in Heq. apply app_eq_nil in Heq as [-> _]. done.
    + apply no_year_nil.
  - rewrite search_from_cons.
    destruct (exec subject (year_pattern isdecimal) (c :: s) []
                (fun _ cs => Some cs)) as [caps|] eqn:He.
    + apply year_exec_Some in He as (d & post & Heq & Hlen & Hd & ->).
      exists d. split; [done|]. exists [], post. simpl.
      repeat split; auto. intros; lia.
    + destruct (search_from subject (year_pattern isdecimal) s) as [caps|].
      * destruct IH as (d & -> & pre & post & -> & Hlen & Hd & Hmin).
        exists d. split; [done|]. exists (c :: pre), post.
        repeat split; auto.
        intros [|c' pre'] d' post' Heq Hlen' Hd'; simpl in Heq.
        -- rewrite (year_exec_None _ _ _ _ He Heq Hlen') in Hd'. done.
        -- injection Heq as <- Heq. simpl.
           specialize (Hmin pre' d' post' Heq Hlen' Hd'). lia.
      * intros [|c' pre'] d' post' Heq Hlen'; simpl in Heq.
        -- by apply (year_exec_None _ _ _ _ He Heq).
        -- injection Heq as <- Heq. by apply (IH pre' d' post').
Qed.

(** The year [get_all_items] reads off the date. *)
Lemma parse_year_spec m :
  date (parse_year isdecimal m) = date m
  /\ (leftmost_year isdecimal (date m) (year (parse_year isdecimal m))
      \/ (no_year isdecimal (date m) /\ parse_year isdecimal m = m)).
Proof.
  unfold parse_year. destruct (truthy (date m)) eqn:Ht.
  - unfold re_search. pose proof (search_year (date m) (date m)) as Hs.
    destruct (search_from (date m) (year_pattern isdecimal) (date m)) as [caps|].
    + destruct Hs as (d & -> & Hd). split; [done|]. by left.
    + split; [done|]. by right.
  - split; [done|]. right. split; [|done].
    destruct (date m); [apply no_year_nil|done].
Qed.

End ItemYear.

(** ** [zotero_meta.py]: dictionaries filled in a loop *)

Section DictFacts.
Import ZoteroItems.
Context {A B : Type}.
Implicit Types (k : pystr) (d : list (pystr * A)).

Lemma dict_find_set k k' (v : A) d :
  dict_find k (dict_set k' v d) = if bool_decide (k' = k) then Some v else dict_find k d.
Proof.
  induction d as [|[k0 v0] d IH]; simpl.
  - done.
  - destruct (bool_decide_reflect (k0 = k')) as [->|Hne]; simpl.
    + by destruct (bool_decide (k' = k)).
    + rewrite IH. destruct (bool_decide_reflect (k0 = k)) as [->|]; [|done].
      by rewrite bool_decide_eq_false_2 by congruence.
Qed.

Lemma dict_find_elem k (v : A) d : dict_find k d = Some v -> (k, v) ∈ d.
Proof.
  induction d as [|[k0 v0] d IH]; simpl; [done|].
  destruct (bool_decide_reflect (k0 = k)) as [->|].
  - intros [= ->]. left.
  - intros H. right. auto.
Qed.

(** The last assignment to a key is the one that stays. *)
Lemma dict_find_fold (kf : B -> pystr) (vf : B -> A) k (rows : list B) : forall d,
  dict_find k (fold_left (fun d row => dict_set (kf row) (vf row) d) rows d)
  = match last (List.filter (fun row => bool_decide (kf row = k)) rows) with
    | Some row => Some (vf row)
    | None => dict_find k d
    end.
Proof.
  induction rows as [|row rows IH]; intros d; simpl; [done|].
  rewrite IH, dict_find_set.
  destruct (bool_decide (kf row = k)); [|done].
  rewrite last_cons. by destruct (last _).
Qed.

End DictFacts.

Section DictElems.
Import ZoteroItems.
Context {A B : Type}.
Implicit Types (k : pystr) (d : list (pystr * A)).

Lemma elem_of_dict_set k (v : A) d x :
  x ∈ dict_set k v d -> x = (k, v) \/ x ∈ d.
Proof.
  induction d as [|[k0 v0] d IH]; simpl.
  - intros ->%list_elem_of_singleton. by left.
  - destruct (bool_decide_reflect (k0 = k)) as [->|Hne].
    + intros [->|H]%elem_of_cons; [by left|]. right. by right.
    + intros [->|H]%elem_of_cons; [right; left|].
      destruct (IH H) as [->|H']; [by left|]. right. by right.
Qed.

Lemma elem_of_dict_fold (kf : B -> pystr) (vf : B -> A) (rows : list B) x :
  forall d,
  x ∈ fold_left (fun d row => dict_set (kf row) (vf row) d) rows d ->
  x ∈ d \/ exists row, row ∈ rows /\ fst x = kf row /\ snd x = vf row.
Proof.
  induction rows as [|row rows IH]; intros d; simpl; [by left|].
  intros [H|(row' & Hin & Hk & Hv)]%IH.
  - apply elem_of_dict_set in H as [->|H]; [|by left].
    right. exists row. split; [left|done].
  - right. exists row'. split; [by right|done].
Qed.

End DictElems.

(** ** [get_all_items] *)

Section GetAllItems.
Import ZoteroItems.
Variable isdecimal : N -> bool.
Implicit Types (lib : Library) (m md : PaperMetadata) (k ty : pystr).

Lemma set_field_keeps row m :
  item_key (set_field row m) = item_key m
  /\ item_type (set_field row m) = item_type m
  /\ year (set_field row m) = year m.
Proof. unfold set_field. repeat case_bool_decide; done. Qed.

Lemma load_fields_keeps lib id m :
  item_key (_load_fields lib id m) = item_key m
  /\ item_type (_load_fields lib id m) = item_type m
  /\ year (_load_fields lib id m) = year m.
Proof.
  unfold _load_fields. generalize (field_rows lib id). intros rows.
  revert m. induction rows as [|row rows IH]; intros m; simpl; [done|].
  destruct (IH (set_field row m)) as (-> & -> & ->). apply set_field_keeps.
Qed.

Lemma parse_year_keeps m :
  item_key (parse_year isdecimal m) = item_key m
  /\ item_type (parse_year isdecimal m) = item_type m.
Proof.
  unfold parse_year. destruct (truthy (date m)); [|done].
  by destruct (re_search _ _).
Qed.

(** Before the year is read off the date it is empty. *)
Lemma loaded_year lib id k ty :
  year (_load_attachments lib id
          (_load_notes lib id
             (_load_tags lib id
                (_load_creators lib id
                   (_load_fields lib id (new_metadata k ty)))))) = [].
Proof.
  simpl. by destruct (load_fields_keeps lib id (new_metadata k ty)) as (_ & _ & ->).
Qed.

Lemma item_metadata_keeps lib id k ty :
  item_key (item_metadata isdecimal lib (id, k, ty)) = k
  /\ item_type (item_metadata isdecimal lib (id, k, ty)) = ty.
Proof.
  unfold item_metadata.
  match goal with |- context [parse_year _ ?m] =>
    destruct (parse_year_keeps m) as [-> ->] end.
  simpl. by destruct (load_fields_keeps lib id (new_metadata k ty)) as (-> & -> & _).
Qed.

(** The rows of the first query are the listed items. *)
Lemma item_rows_listed lib id k ty :
  (id, k, ty) ∈ item_rows lib
  <-> exists i, listed lib i ty /\ itemID i = id /\ key i = k.
Proof.
  unfold item_rows, listed. rewrite list_elem_of_In, in_flat_map. split.
  - intros (i & Hi & H). apply in_flat_map in H as (it & Hit & H).
    destruct (bool_decide_reflect (itemTypeID i = it_itemTypeID it)) as [Hty|];
      [|done].
    destruct (bool_decide_reflect
                (typeName it ∈ [str "attachment"; str "note"; str "annotation"]))
      as [|Hname]; [done|].
    unfold not_deleted in H.
    destruct (bool_decide_reflect (itemID i ∈ deletedItems lib)) as [|Hdel];
      [done|].
    simpl in H. destruct H as [[= <- <- <-]|[]].
    exists i. repeat split; auto.
    + by apply list_elem_of_In.
    + exists it. split; [by apply list_elem_of_In|done].
  - intros (i & (Hi & Hdel & Hname & it & Hit & Hty & <-) & <- & <-).
    exists i. split; [by apply list_elem_of_In|].
    apply in_flat_map. exists it. split; [by apply list_elem_of_In|].
    unfold not_deleted.
    rewrite (bool_decide_eq_true_2 _ Hty), (bool_decide_eq_false_2 _ Hname),
      (bool_decide_eq_false_2 _ Hdel). simpl. by left.
Qed.

Lemma filter_nil_inv {X} (f : X -> bool) (l : list X) :
  List.filter f l = [] -> forall x, x ∈ l -> f x = false.
Proof.
  induction l as [|y l IH]; simpl; intros H x Hx.
  - by apply elem_of_nil in Hx.
  - destruct (f y) eqn:Hy; [done|].
    apply elem_of_cons in Hx as [->|Hx]; auto.
Qed.

(** Each listed item has an entry under its key. *)
Lemma get_all_items_listed lib i ty :
  listed lib i ty -> is_Some (dict_find (key i) (get_all_items isdecimal lib)).
Proof.
  intros Hi. unfold get_all_items.
  rewrite (dict_find_fold (fun row => snd (fst row)) (item_metadata isdecimal lib)).
  assert ((itemID i, key i, ty) ∈ item_rows lib) as Hin.
  { apply item_rows_listed. eauto. }
  destruct (last _) as [row|] eqn:Hl; [eauto|].
  apply last_None in Hl.
  pose proof (filter_nil_inv _ _ Hl _ Hin) as Hf. simpl in Hf.
  by rewrite bool_decide_eq_true_2 in Hf.
Qed.

Lemma get_all_items_elem lib k md :
  (k, md) ∈ get_all_items isdecimal lib ->
  exists id ty, (id, k, ty) ∈ item_rows lib
                /\ md = item_metadata isdecimal lib (id, k, ty).
Proof.
  unfold get_all_items. intros H.
  destruct (elem_of_dict_fold (fun row => snd (fst row))
              (item_metadata isdecimal lib) (item_rows lib) (k, md) [] H)
    as [H'|([[id k'] ty] & Hin & Hk & Hmd)].
  - by apply elem_of_nil in H'.
  - cbn [fst snd] in Hk, Hmd. subst k'.
    exists id, ty. split; [exact Hin|exact Hmd].
Qed.

(** X15. The keys of the dictionary [get_all_items] returns are the keys of
    the items that are not deleted and are no attachment, note or
    annotation: every such item has its entry, and nothing else has one. *)
Theorem get_all_items_keys lib k :
  is_Some (dict_find k (get_all_items isdecimal lib))
  <-> exists i ty, listed lib i ty /\ key i = k.
Proof.
  split.
  - intros [md Hmd]. apply dict_find_elem, get_all_items_elem in Hmd
      as (id & ty & (i & Hi & _ & Hk)%item_rows_listed & _).
    eauto.
  - intros (i & ty & Hi & <-). by apply (get_all_items_listed lib i ty).
Qed.

(** X16. Every entry of [get_all_items] is filed under the key its metadata
    records, and was made from an item of that key that is not deleted and
    whose type, which the metadata records too, is none of attachment,
    note and annotation. *)
Theorem get_all_items_entries lib k md :
  (k, md) ∈ get_all_items isdecimal lib ->
  item_key md = k
  /\ exists i, listed lib i (item_type md) /\ key i = k
               /\ md = item_metadata isdecimal lib (itemID i, k, item_type md).
Proof.
  intros (id & ty & Hin & ->)%get_all_items_elem.
  destruct (item_metadata_keeps lib id k ty) as [Hk Hty].
  rewrite Hk, Hty. split; [done|].
  apply item_rows_listed in Hin as (i & Hi & <- & <-). eauto.
Qed.

(** X17. The year of every entry of [get_all_items] is the leftmost run of
    four decimal digits of its date; when the date has no such run, or is
    empty, the year is empty. *)
Theorem get_all_items_year lib k md :
  (k, md) ∈ get_all_items isdecimal lib ->
  leftmost_year isdecimal (date md) (year md)
  \/ (no_year isdecimal (date md) /\ year md = []).
Proof.
  intros (id & ty & _ & ->)%get_all_items_elem.
  unfold item_metadata.
  match goal with |- context [parse_year _ ?m] =>
    destruct (parse_year_spec isdecimal m) as [Hd [Hy|[Hn He]]];
    pose proof (loaded_year lib id k ty) as Hy0
  end.
  - left. by rewrite Hd.
  - right. rewrite He. split; [done|]. exact Hy0.
Qed.

End GetAllItems.

(** ** [_load_notes] *)

Section Notes.
Import ZoteroItems.
Implicit Types (s t w a b : pystr).

Lemma notGT_forallb w :
  forallb (fun c => negb (c =? GT)) w = true <-> GT ∉ w.
Proof.
  induction w as [|c w IH]; simpl.
  - split; [intros _ H; by apply elem_of_nil in H|done].
  - rewrite andb_true_iff, negb_true_iff, N.eqb_neq, IH, not_elem_of_cons.
    split; intros [? ?]; split; auto; congruence.
Qed.

Lemma tag_exec_unfold {R} subject s caps (k : pystr -> list pystr -> option R) :
  exec subject tag_pattern s caps k
  = one (fun c => c =? LT) s (fun s1 =>
      plus Greedy (fun c => negb (c =? GT)) s1 (fun s2 =>
        one (fun c => c =? GT) s2 (fun s3 => k s3 caps))).
Proof. reflexivity. Qed.

(** What [<[^>]+>] matches at the head of [s]. *)
Lemma tag_exec_Some {R} subject s caps (k : pystr -> list pystr -> option R) r :
  exec subject tag_pattern s caps k = Some r ->
  exists w rest, s = LT :: w ++ GT :: rest /\ w <> [] /\ (GT ∉ w)
                 /\ k rest caps = Some r.
Proof.
  rewrite tag_exec_unfold. intros H.
  apply one_Some in H as (c & s1 & -> & Hc & H). apply N.eqb_eq in Hc as ->.
  apply plus_Some in H as (w & s2 & -> & Hne & Hw & H).
  apply one_Some in H as (c & rest & -> & Hc & H). apply N.eqb_eq in Hc as ->.
  exists w, rest. by rewrite <- notGT_forallb.
Qed.

Lemma tag_exec_None subject s :
  exec subject tag_pattern s [] (fun rest _ => Some rest) = None -> ~ tag_at s.
Proof.
  intros H (w & rest & -> & Hne & Hw).
  assert (is_Some (exec subject tag_pattern (LT :: w ++ GT :: rest) []
                     (fun rest _ => Some rest))) as [r Hr]; [|congruence].
  rewrite tag_exec_unfold, one_cons by done.
  apply plus_is_Some; [done|by apply notGT_forallb|].
  rewrite one_cons by done. eauto.
Qed.

Lemma sub_from_cons fuel subject (r : re) repl c s :
  sub_from (S fuel) subject r repl (c :: s)
  = match exec subject r (c :: s) [] (fun rest _ => Some rest) with
    | Some rest => repl ++ sub_from fuel subject r repl rest
    | None => c :: sub_from fuel subject r repl s
    end.
Proof. reflexivity. Qed.

Lemma sub_from_nil fuel subject (r : re) repl :
  sub_from fuel subject r repl [] = [].
Proof. by destruct fuel. Qed.

(** Removing tags adds no character. *)
Lemma sub_from_elem subject fuel : forall s c,
  c ∈ sub_from fuel subject tag_pattern [] s -> c ∈ s.
Proof.
  induction fuel as [|fuel IH]; intros s c; [done|].
  destruct s as [|x s]; [done|]. rewrite sub_from_cons.
  destruct (exec subject tag_pattern (x :: s) [] (fun rest _ => Some rest))
    as [rest|] eqn:He.
  - apply tag_exec_Some in He as (w & rest' & -> & _ & _ & [= ->]).
    simpl. intros H%IH. right. apply elem_of_app. right. by right.
  - intros [->|H]%elem_of_cons; [left|right; auto].
Qed.

Lemma has_tag_nil : ~ has_tag [].
Proof.
  intros (pre & suf & Heq & w & rest & -> & _). symmetry in Heq.
  by apply app_eq_nil in Heq as [_ ?].
Qed.

Lemma has_tag_cons c s : has_tag (c :: s) -> tag_at (c :: s) \/ has_tag s.
Proof.
  intros ([|c' pre] & suf & Heq & Ht); simpl in Heq.
  - left. by rewrite Heq.
  - injection Heq as <- ->. right. by exists pre, suf.
Qed.

(** After the substitution no tag is left. *)
Lemma sub_from_no_tag subject fuel : forall s,
  (length s <= fuel)%nat -> ~ has_tag (sub_from fuel subject tag_pattern [] s).
Proof.
  induction fuel as [|fuel IH]; intros s Hlen.
  - destruct s; [|simpl in Hlen; lia]. apply has_tag_nil.
  - destruct s as [|x s]; [apply has_tag_nil|]. rewrite sub_from_cons.
    simpl in Hlen.
    destruct (exec subject tag_pattern (x :: s) [] (fun rest _ => Some rest))
      as [rest|] eqn:He.
    + apply tag_exec_Some in He as (w & rest' & Heq & _ & _ & [= ->]).
      simpl. apply IH. apply (f_equal (@length N)) in Heq.
      simpl in Heq. rewrite length_app in Heq. simpl in Heq. lia.
    + intros [Ht|Hs]%has_tag_cons; [|by apply (IH s); [lia|]].
      apply (tag_exec_None _ _ He).
      destruct Ht as (w & rest & [= -> Heq] & Hne & Hw).
      destruct w as [|y w]; [done|]. simpl in Heq.
      apply not_elem_of_cons in Hw as [Hy Hw].
      assert (GT ∈ s) as Hin.
      { apply (sub_from_elem subject fuel). rewrite Heq.
        right. apply elem_of_app. right. left. }
      destruct s as [|z s]; [by apply elem_of_nil in Hin|].
      destruct fuel as [|fuel]; [simpl in Hlen; lia|].
      assert (z <> GT) as Hz.
      { intros ->. rewrite sub_from_cons in Heq.
        destruct (exec subject tag_pattern (GT :: s) [] (fun rest _ => Some rest))
          as [rest'|] eqn:He'.
        - by apply tag_exec_Some in He' as (? & ? & [=] & _).
        - by injection Heq as <-. }
      apply list_elem_of_split_l in Hin as (l1 & l2 & Hs & Hl1).
      destruct l1 as [|z' l1]; simpl in Hs.
      { by injection Hs as ->. }
      exists (z' :: l1), l2. rewrite Hs. done.
Qed.

Lemma has_tag_infix a t b : has_tag t -> has_tag (a ++ t ++ b).
Proof.
  intros (pre & suf & -> & w & rest & -> & Hne & Hw).
  exists (a ++ pre), (LT :: w ++ GT :: rest ++ b). split.
  - rewrite <- !app_assoc. simpl. by rewrite <- app_assoc.
  - exists w, (rest ++ b). done.
Qed.

Lemma lstrip_split s : exists a, s = a ++ lstrip s /\ forallb isspace a = true.
Proof.
  induction s as [|c s (a & Hs & Ha)]; simpl.
  - by exists [].
  - destruct (isspace c) eqn:Hc.
    + exists (c :: a). simpl. rewrite Hc, Ha. by rewrite Hs at 1.
    + by exists [].
Qed.

Lemma lstrip_head s c s' : lstrip s = c :: s' -> isspace c = false.
Proof.
  induction s as [|x s IH]; simpl; [done|].
  destruct (isspace x) eqn:Hx; [done|]. by intros [= <- _].
Qed.

Lemma rstrip_split s : exists b, s = rstrip s ++ b /\ forallb isspace b = true.
Proof.
  unfold rstrip. destruct (lstrip_split (rev s)) as (a & Hs & Ha).
  exists (rev a). split.
  - rewrite <- rev_app_distr, <- Hs. by rewrite rev_involutive.
  - by rewrite forallb_rev.
Qed.

Lemma strip_infix s : exists a b, s = a ++ strip s ++ b.
Proof.
  unfold strip. destruct (lstrip_split s) as (a & Hs & _).
  destruct (rstrip_split (lstrip s)) as (b & Hb & _).
  exists a, b. by rewrite <- Hb.
Qed.

Lemma strip_stripped s : stripped (strip s).
Proof.
  unfold strip. split.
  - intros c s' Heq.
    destruct (rstrip_split (lstrip s)) as (b & Hb & _). rewrite Heq in Hb.
    simpl in Hb. by apply lstrip_head in Hb.
  - intros c s' Heq. unfold rstrip in Heq.
    apply (f_equal (@rev N)) in Heq.
    rewrite rev_involutive, rev_app_distr in Heq. simpl in Heq.
    by apply lstrip_head in Heq.
Qed.

(** What a note row adds is not empty, has no tag and no blank at either
    end. *)
Lemma clean_note_clean note n :
  clean_note note = Some n -> n <> [] /\ ~ has_tag n /\ stripped n.
Proof.
  unfold clean_note. destruct note as [n0|]; [|done].
  destruct (truthy n0); [|done].
  destruct (truthy (strip (re_sub tag_pattern [] n0))) eqn:Ht; [|done].
  intros [= <-]. split; [by destruct (strip _)|]. split; [|apply strip_stripped].
  intros Htag.
  destruct (strip_infix (re_sub tag_pattern [] n0)) as (a & b & Heq).
  apply (has_tag_infix a _ b) in Htag. rewrite <- Heq in Htag.
  by apply (sub_from_no_tag n0 (length n0) n0) in Htag.
Qed.

(** X18. [_load_notes] only appends to the notes, and every note it appends
    is non-empty, contains no tag [<...>] and neither begins nor ends with
    a blank. *)
Theorem load_notes_clean lib item_id m :
  exists added,
    notes (_load_notes lib item_id m) = notes m ++ added
    /\ Forall (fun n => n <> [] /\ ~ has_tag n /\ stripped n) added.
Proof.
  exists (omap clean_note (note_rows lib item_id)). split; [done|].
  apply Forall_forall. intros n (note & _ & Hn)%list_elem_of_omap.
  by apply clean_note_clean in Hn.
Qed.

End Notes.

(** ** [_load_attachments] and [build_attachment_mapping] *)

Section Attachments.
Import ZoteroItems.
Implicit Types (lib : Library) (m md : PaperMetadata) (k f att : pystr).

Lemma is_prefix_spec (p s : pystr) :
  is_prefix p s = true <-> exists rest, s = p ++ rest.
Proof.
  revert s. induction p as [|x p IH]; intros s; simpl.
  - split; [eauto|done].
  - destruct s as [|y s].
    + split; [done|]. by intros [rest [=]].
    + rewrite andb_true_iff, N.eqb_eq, IH. split.
      * intros [-> [rest ->]]. eauto.
      * intros [rest [= -> ->]]. eauto.
Qed.

(** [(k + "/" + f).split('/')[0]] is [k] when [k] has no slash. *)
Lemma before_slash_app k f : SLASH ∉ k -> before_slash (k ++ [SLASH] ++ f) = k.
Proof.
  induction k as [|c k IH]; simpl; [done|].
  intros [Hc Hk]%not_elem_of_cons.
  destruct (N.eqb_spec c SLASH) as [->|_]; [done|]. simpl in IH. by rewrite IH.
Qed.

Lemma attachment_entry_spec row att :
  attachment_entry row = Some att
  <-> exists f, fst row = Some (str "storage:" ++ f)
                /\ att = snd row ++ [SLASH] ++ f.
Proof.
  unfold attachment_entry. destruct (fst row) as [p|].
  - destruct (is_prefix (str "storage:") p) eqn:Hp.
    + apply is_prefix_spec in Hp as [f ->]. split.
      * intros [= <-]. by exists f.
      * by intros (f' & [= <-] & ->).
    + rewrite andb_false_r. split; [done|].
      intros (f & Heq & _).
      assert (is_prefix (str "storage:") p = true) as Ht.
      { apply is_prefix_spec. exists f. congruence. }
      by rewrite Hp in Ht.
  - split; [done|]. by intros (f & [=] & _).
Qed.

Lemma attachment_rows_spec lib id p k :
  (p, k) ∈ attachment_rows lib id
  <-> exists a i, a ∈ itemAttachments lib /\ i ∈ items lib
        /\ ia_itemID a = itemID i /\ ia_parentItemID a = Some id
        /\ (itemID i ∉ deletedItems lib) /\ key i = k /\ path a = p.
Proof.
  unfold attachment_rows. rewrite list_elem_of_In, in_flat_map. split.
  - intros (a & Ha & H). apply in_flat_map in H as (i & Hi & H).
    destruct (bool_decide_reflect (ia_itemID a = itemID i)) as [Hid|]; [|done].
    destruct (bool_decide_reflect (ia_parentItemID a = Some id)) as [Hp|];
      [|done].
    unfold not_deleted in H.
    destruct (bool_decide_reflect (itemID i ∈ deletedItems lib)) as [|Hdel];
      [done|].
    simpl in H. destruct H as [[= <- <-]|[]].
    exists a, i. rewrite <- !list_elem_of_In in *. done.
  - intros (a & i & Ha & Hi & Hid & Hp & Hdel & <- & <-).
    exists a. split; [by apply list_elem_of_In|].
    apply in_flat_map. exists i. split; [by apply list_elem_of_In|].
    unfold not_deleted.
    rewrite (bool_decide_eq_true_2 _ Hid), (bool_decide_eq_true_2 _ Hp),
      (bool_decide_eq_false_2 _ Hdel). simpl. by left.
Qed.

(** What [_load_attachments] appends. *)
Lemma attachment_added lib item_id att :
  att ∈ omap attachment_entry (attachment_rows lib item_id)
  <-> exists k f, stored_attachment lib item_id k f /\ att = k ++ [SLASH] ++ f.
Proof.
  rewrite list_elem_of_omap. split.
  - intros ([p k] & Hrow & (f & Hp & ->)%attachment_entry_spec).
    simpl in *. subst p.
    apply attachment_rows_spec in Hrow as (a & i & Ha & Hi & ? & ? & ? & ? & ?).
    exists k, f. split; [|done]. by exists a, i.
  - intros (k & f & (a & i & Ha & Hi & Hid & Hp & Hdel & Hk & Hpath) & ->).
    exists (Some (str "storage:" ++ f), k). split.
    + apply attachment_rows_spec. by exists a, i.
    + apply attachment_entry_spec. by exists f.
Qed.

(** X19. [_load_attachments] only appends to the attachments.  What it
    appends are the strings [key/filename], one for each attachment of
    the item whose own item, of key [key], is not deleted and whose path is
    [storage:filename]; an attachment with another path, or without one,
    adds nothing. *)
Theorem load_attachments_spec lib item_id m :
  exists added,
    attachments (_load_attachments lib item_id m) = attachments m ++ added
    /\ forall att,
         att ∈ added
         <-> exists k f, stored_attachment lib item_id k f
                         /\ att = k ++ [SLASH] ++ f.
Proof.
  exists (omap attachment_entry (attachment_rows lib item_id)).
  split; [done|]. apply attachment_added.
Qed.

Lemma dict_find_inner k md (atts : list pystr) :
  forall d : list (pystr * PaperMetadata),
  dict_find k (fold_left (fun mapping attachment =>
                            dict_set (before_slash attachment) md mapping)
                 atts d)
  = if existsb (fun a => bool_decide (before_slash a = k)) atts
    then Some md else dict_find k d.
Proof.
  intros d.
  rewrite (dict_find_fold before_slash (fun _ => md)).
  induction atts as [|a atts IH]; simpl; [done|].
  destruct (bool_decide (before_slash a = k)); simpl; [|done].
  rewrite last_cons. by destruct (last _).
Qed.

Lemma dict_find_outer k (items : list (pystr * PaperMetadata)) : forall d,
  dict_find k (fold_left (fun mapping item =>
                 fold_left (fun mapping attachment =>
                              dict_set (before_slash attachment) (snd item) mapping)
                   (attachments (snd item)) mapping) items d)
  = match last_owner k items with
    | Some md => Some md
    | None => dict_find k d
    end.
Proof.
  unfold last_owner.
  induction items as [|item items IH]; intros d; simpl; [done|].
  rewrite IH, dict_find_inner.
  destruct (existsb _ (attachments (snd item))); simpl; [|done].
  rewrite last_cons. by destruct (last _).
Qed.

(** X20. [build_attachment_mapping] sends a key to the metadata of the last
    entry, in the order of the dictionary it is given, one of whose
    attachments begins with that key and a slash, or is that key; a key of
    no attachment is not in the mapping. *)
Theorem build_attachment_mapping_lookup items k :
  dict_find k (build_attachment_mapping items) = last_owner k items.
Proof.
  unfold build_attachment_mapping. rewrite dict_find_outer.
  by destruct (last_owner k items).
Qed.

End Attachments.

(** ** From an attachment to its parent *)

Section AttachmentParent.
Import ZoteroItems.
Variable isdecimal : N -> bool.
Implicit Types (lib : Library) (m md : PaperMetadata) (k f att : pystr).

Lemma NoDup_map_inj {X Y} (g : X -> Y) (l : list X) x y :
  NoDup (List.map g l) -> x ∈ l -> y ∈ l -> g x = g y -> x = y.
Proof.
  induction l as [|z l IH]; simpl; intros Hnd Hx Hy Heq.
  - by apply elem_of_nil in Hx.
  - apply NoDup_cons in Hnd as [Hz Hnd].
    assert (forall u, u ∈ l -> g u <> g z) as Hne.
    { intros u Hu Hg. apply Hz. rewrite <- Hg.
      apply list_elem_of_In, in_map. by apply list_elem_of_In. }
    apply elem_of_cons in Hx as [->|Hx]; apply elem_of_cons in Hy as [->|Hy];
      auto.
    + symmetry in Heq. by apply Hne in Heq.
    + by apply Hne in Heq.
Qed.

Lemma dict_set_keys {X} k (v : X) (d : list (pystr * X)) :
  List.map fst (dict_set k v d)
  = if bool_decide (k ∈ List.map fst d) then List.map fst d
    else List.map fst d ++ [k].
Proof.
  induction d as [|[k0 v0] d IH]; simpl; [done|].
  destruct (bool_decide_reflect (k0 = k)) as [->|Hne]; simpl.
  - rewrite bool_decide_eq_true_2; [done|left].
  - rewrite IH. destruct (bool_decide_reflect (k ∈ List.map fst d)) as [Hin|Hin].
    + rewrite bool_decide_eq_true_2; [done|by right].
    + rewrite bool_decide_eq_false_2; [done|].
      intros [?|?]%elem_of_cons; congruence.
Qed.

Lemma dict_set_NoDup {X} k (v : X) (d : list (pystr * X)) :
  NoDup (List.map fst d) -> NoDup (List.map fst (dict_set k v d)).
Proof.
  intros Hnd. rewrite dict_set_keys.
  destruct (bool_decide_reflect (k ∈ List.map fst d)) as [Hin|Hin]; [done|].
  apply NoDup_app. split; [done|]. split; [|apply NoDup_singleton].
  intros x Hx ->%list_elem_of_singleton. done.
Qed.

Lemma dict_find_NoDup {X} k (v : X) (d : list (pystr * X)) :
  NoDup (List.map fst d) -> (k, v) ∈ d -> dict_find k d = Some v.
Proof.
  induction d as [|[k0 v0] d IH]; simpl; intros Hnd Hin.
  - by apply elem_of_nil in Hin.
  - apply NoDup_cons in Hnd as [Hk0 Hnd].
    apply elem_of_cons in Hin as [[= -> ->]|Hin].
    + by rewrite bool_decide_eq_true_2.
    + rewrite bool_decide_eq_false_2; [auto|].
      intros ->. apply Hk0.
      apply list_elem_of_In, (in_map fst) in Hin. by apply list_elem_of_In.
Qed.

(** A dictionary has each key once. *)
Lemma get_all_items_NoDup lib :
  NoDup (List.map fst (get_all_items isdecimal lib)).
Proof.
  unfold get_all_items. generalize (item_rows lib). intros rows.
  assert (NoDup (List.map fst ([] : list (pystr * PaperMetadata)))) as H
    by constructor.
  revert H. generalize ([] : list (pystr * PaperMetadata)).
  induction rows as [|row rows IH]; intros d Hd; simpl; [done|].
  apply IH. by apply dict_set_NoDup.
Qed.

Lemma set_field_attachments row m :
  attachments (set_field row m) = attachments m.
Proof. unfold set_field. repeat case_bool_decide; done. Qed.

Lemma parse_year_attachments m :
  attachments (parse_year isdecimal m) = attachments m.
Proof.
  unfold parse_year. destruct (truthy (date m)); [|reflexivity].
  destruct (re_search _ _); reflexivity.
Qed.

Lemma item_metadata_attachments lib id k ty :
  attachments (item_metadata isdecimal lib (id, k, ty))
  = omap attachment_entry (attachment_rows lib id).
Proof.
  unfold item_metadata. rewrite parse_year_attachments.
  simpl. unfold _load_fields. generalize (field_rows lib id). intros rows.
  enough (forall m, attachments (fold_left (fun m row => set_field row m) rows m)
                    = attachments m) as -> by done.
  induction rows as [|row rows IH]; intros m; simpl; [done|].
  by rewrite IH, set_field_attachments.
Qed.

(** The attachments an entry of [get_all_items] lists. *)
Lemma item_metadata_attachment lib id k ty att :
  att ∈ attachments (item_metadata isdecimal lib (id, k, ty))
  <-> exists k' f, stored_attachment lib id k' f /\ att = k' ++ [SLASH] ++ f.
Proof.
  rewrite item_metadata_attachments. apply attachment_added.
Qed.

Lemma existsb_elem {X} (g : X -> bool) (l : list X) :
  existsb g l = true <-> exists x, x ∈ l /\ g x = true.
Proof.
  rewrite existsb_exists. by setoid_rewrite list_elem_of_In.
Qed.

Section Parent.
Context (lib : Library) (i : items_row) (ty k f : pystr).
Hypothesis Hkeyed : well_keyed lib.
Hypothesis Hlisted : listed lib i ty.
Hypothesis Hstored : stored_attachment lib (itemID i) k f.

Lemma same_key i1 i2 : i1 ∈ items lib -> i2 ∈ items lib -> key i1 = key i2 -> i1 = i2.
Proof.
  destruct Hkeyed as (_ & Hkeys & _). apply (NoDup_map_inj key (items lib) _ _ Hkeys).
Qed.

Lemma same_itemID i1 i2 :
  i1 ∈ items lib -> i2 ∈ items lib -> itemID i1 = itemID i2 -> i1 = i2.
Proof.
  destruct Hkeyed as (Hids & _). apply (NoDup_map_inj itemID (items lib) _ _ Hids).
Qed.

Lemma same_attachment a1 a2 :
  a1 ∈ itemAttachments lib -> a2 ∈ itemAttachments lib ->
  ia_itemID a1 = ia_itemID a2 -> a1 = a2.
Proof.
  destruct Hkeyed as (_ & _ & Hatts & _).
  apply (NoDup_map_inj ia_itemID (itemAttachments lib) _ _ Hatts).
Qed.

Lemma no_slash i1 : i1 ∈ items lib -> SLASH ∉ key i1.
Proof.
  destruct Hkeyed as (_ & _ & _ & Hslash). rewrite Forall_forall in Hslash. auto.
Qed.

(** An attachment row of an item of key [k] is the stored one. *)
Lemma attachment_of_key a i' :
  a ∈ itemAttachments lib -> i' ∈ items lib -> ia_itemID a = itemID i' ->
  key i' = k -> ia_parentItemID a = Some (itemID i).
Proof.
  intros Ha Hi' Hid Hk.
  destruct Hstored as (a1 & i1 & Ha1 & Hi1 & Hid1 & Hp1 & _ & Hk1 & _).
  assert (i' = i1) as -> by (apply same_key; congruence).
  assert (a = a1) as -> by (apply same_attachment; congruence).
  done.
Qed.

(** The entry of the parent. *)
Lemma parent_entry :
  exists md, dict_find (key i) (get_all_items isdecimal lib) = Some md
    /\ existsb (fun a => bool_decide (before_slash a = k)) (attachments md) = true.
Proof.
  destruct (get_all_items_listed isdecimal lib i ty Hlisted) as [md Hmd].
  exists md. split; [done|].
  apply dict_find_elem, get_all_items_elem in Hmd as (id & ty' & Hrow & ->).
  apply item_rows_listed in Hrow as (i' & Hi' & <- & Hk').
  assert (i' = i) as ->.
  { destruct Hi' as (Hi'in & _). destruct Hlisted as (Hiin & _).
    by apply same_key. }
  apply existsb_elem. exists (k ++ [SLASH] ++ f). split.
  - apply item_metadata_attachment. eauto.
  - apply bool_decide_eq_true. apply before_slash_app.
    destruct Hstored as (a1 & i1 & _ & Hi1 & _ & _ & _ & <- & _).
    by apply no_slash.
Qed.

(** Whoever lists an attachment under [k] is the parent. *)
Lemma owner_is_parent k' md' :
  (k', md') ∈ get_all_items isdecimal lib ->
  existsb (fun a => bool_decide (before_slash a = k)) (attachments md') = true ->
  k' = key i.
Proof.
  intros (id' & ty' & Hrow & ->)%get_all_items_elem
    (att & Hatt' & Hk%bool_decide_eq_true)%existsb_elem.
  apply item_metadata_attachment in Hatt' as (k2 & f2 & Hst & ->).
  apply item_rows_listed in Hrow as (i' & Hi' & <- & <-).
  destruct Hst as (a2 & i2 & Ha2 & Hi2 & Hid2 & Hp2 & Hdel2 & Hk2 & Hpath2).
  rewrite before_slash_app in Hk by (rewrite <- Hk2; by apply no_slash).
  assert (Some (itemID i') = Some (itemID i)) as [= Hid].
  { rewrite <- Hp2. apply (attachment_of_key a2 i2); congruence. }
  destruct Hi' as (Hi'in & _). destruct Hlisted as (Hiin & _).
  by rewrite (same_itemID i' i).
Qed.

Lemma mapping_parent md :
  dict_find (key i) (get_all_items isdecimal lib) = Some md ->
  dict_find k (build_attachment_mapping (get_all_items isdecimal lib)) = Some md.
Proof.
  intros Hmd. destruct parent_entry as (md0 & Hmd0 & Hmine).
  assert (md0 = md) as -> by congruence.
  pose proof (dict_find_elem _ _ _ Hmd) as Hin.
  unfold build_attachment_mapping. rewrite dict_find_outer. unfold last_owner.
  destruct (last _) as [md'|] eqn:Hl.
  - apply last_Some in Hl as [l' Hl].
    assert (In md' (List.map snd (List.filter (fun item =>
               existsb (fun a => bool_decide (before_slash a = k))
                 (attachments (snd item))) (get_all_items isdecimal lib))))
      as Hin'.
    { rewrite Hl. apply in_or_app. right. by left. }
    apply in_map_iff in Hin' as ([k' md2] & [= ->] & [Hin2 Hex]%filter_In).
    simpl in Hex. apply list_elem_of_In in Hin2.
    rewrite (owner_is_parent _ _ Hin2 Hex) in Hin2.
    apply (dict_find_NoDup _ _ _ (get_all_items_NoDup lib)) in Hin2.
    congruence.
  - apply last_None, map_eq_nil in Hl.
    pose proof (filter_nil_inv _ _ Hl _ Hin) as Hf. simpl in Hf. congruence.
Qed.

Lemma by_key_parent :
  itemID i <> 0%Z ->
  get_item_by_attachment_key isdecimal lib k
  = dict_find (key i) (get_all_items isdecimal lib).
Proof.
  intros Hnz. unfold get_item_by_attachment_key.
  match goal with |- context [match ?r with [] => _ | _ => _ end] =>
    set (rows := r) end.
  assert (forall x, In x rows -> x = Some (itemID i)) as Hall.
  { intros x (a & Ha & (i' & Hi' & H)%in_flat_map)%in_flat_map.
    destruct (bool_decide_reflect (ia_itemID a = itemID i')) as [Hid|]; [|done].
    destruct (bool_decide_reflect (key i' = k)) as [Hk|]; [|done].
    destruct H as [<-|[]].
    apply (attachment_of_key a i'); auto; by apply list_elem_of_In. }
  assert (In (Some (itemID i)) rows) as Hin.
  { destruct Hstored as (a1 & i1 & Ha1 & Hi1 & Hid1 & Hp1 & _ & Hk1 & _).
    apply in_flat_map. exists a1. split; [by apply list_elem_of_In|].
    apply in_flat_map. exists i1. split; [by apply list_elem_of_In|].
    rewrite (bool_decide_eq_true_2 _ Hid1), (bool_decide_eq_true_2 _ Hk1).
    simpl. left. done. }
  destruct rows as [|x rows']; [done|].
  rewrite (Hall x) by (by left).
  rewrite bool_decide_eq_false_2 by done.
  destruct Hlisted as (Hiin & _).
  assert (In i (List.filter (fun i0 => bool_decide (itemID i0 = itemID i))
                  (items lib))) as Hfi.
  { apply filter_In. split; [by apply list_elem_of_In|].
    by apply bool_decide_eq_true. }
  destruct (List.filter _ (items lib)) as [|parent rest] eqn:Hf; [done|].
  assert (In parent (List.filter (fun i0 => bool_decide (itemID i0 = itemID i))
                       (items lib))) as [Hpin Hpid%bool_decide_eq_true]%filter_In.
  { rewrite Hf. by left. }
  by rewrite (same_itemID parent i) by (auto; by apply list_elem_of_In).
Qed.

End Parent.

(** X21. In a database whose keys are what Zotero keeps them to be, the
    mapping built from the extracted items leads from the key of a stored
    attachment to the metadata of its parent item: the metadata
    [get_all_items] files under the parent's own key. *)
Theorem attachment_mapping_parent lib i ty k f :
  well_keyed lib ->
  listed lib i ty ->
  stored_attachment lib (itemID i) k f ->
  exists md,
    dict_find (key i) (get_all_items isdecimal lib) = Some md
    /\ dict_find k (build_attachment_mapping (get_all_items isdecimal lib))
       = Some md.
Proof.
  intros Hkeyed Hlisted Hstored.
  destruct (parent_entry lib i ty k f Hkeyed Hlisted Hstored) as (md & Hmd & _).
  exists md. split; [done|]. by apply (mapping_parent lib i ty k f).
Qed.

(** X22. On the key of a stored attachment of a listed item,
    [get_item_by_attachment_key] and the mapping of
    [build_attachment_mapping] agree: both return the metadata of the
    parent item. *)
Theorem get_item_by_attachment_key_agrees lib i ty k f :
  well_keyed lib ->
  listed lib i ty ->
  stored_attachment lib (itemID i) k f ->
  itemID i <> 0%Z ->
  exists md,
    get_item_by_attachment_key isdecimal lib k = Some md
    /\ dict_find k (build_attachment_mapping (get_all_items isdecimal lib))
       = Some md
    /\ item_key md = key i.
Proof.
  intros Hkeyed Hlisted Hstored Hnz.
  destruct (parent_entry lib i ty k f Hkeyed Hlisted Hstored) as (md & Hmd & _).
  exists md. split; [|split].
  - by rewrite (by_key_parent lib i ty k f).
  - by apply (mapping_parent lib i ty k f).
  - apply dict_find_elem, get_all_items_elem in Hmd as (id & ty' & _ & ->).
    apply item_metadata_keeps.
Qed.

End AttachmentParent.

(** ** Instances on the library of the examples *)

Section ItemInstances.
Import ZoteroItems ItemsExamples.

Lemma get_all_items_entries_witness :
  item_key article_metadata = str "PARENT01"
  /\ exists i, listed lib_demo i (item_type article_metadata)
               /\ key i = str "PARENT01"
               /\ article_metadata
                  = item_metadata Indexer.ascii_digit lib_demo
                      (itemID i, str "PARENT01", item_type article_metadata).
Proof.
  apply (get_all_items_entries Indexer.ascii_digit lib_demo).
  vm_compute. left.
Defined.

Lemma get_all_items_year_witness :
  leftmost_year Indexer.ascii_digit (date article_metadata) (year article_metadata)
  \/ (no_year Indexer.ascii_digit (date article_metadata)
      /\ year article_metadata = []).
Proof.
  apply (get_all_items_year Indexer.ascii_digit lib_demo (str "PARENT01")).
  vm_compute. left.
Defined.

Lemma attachment_mapping_parent_witness :
  exists md,
    dict_find (key article) (get_all_items Indexer.ascii_digit lib_demo) = Some md
    /\ dict_find (str "ATTACH01")
         (build_attachment_mapping (get_all_items Indexer.ascii_digit lib_demo))
       = Some md.
Proof.
  apply (attachment_mapping_parent Indexer.ascii_digit lib_demo article
           (str "journalArticle") (str "ATTACH01") (str "lee.pdf")).
  - repeat split; try (apply (bool_decide_unpack _); vm_compute; exact I).
  - split; [left|]. split; [apply (bool_decide_unpack _); vm_compute; exact I|].
    split; [apply (bool_decide_unpack _); vm_compute; exact I|].
    exists {| it_itemTypeID := 2; typeName := str "journalArticle" |}.
    split; [|done]. right. left.
  - exists {| ia_itemID := 2; ia_parentItemID := Some 1%Z;
              path := Some (str "storage:lee.pdf") |},
           {| itemID := 2; key := str "ATTACH01"; itemTypeID := 14 |}.
    split; [left|]. split; [right; left|].
    repeat split; try done. apply (bool_decide_unpack _); vm_compute; exact I.
Defined.

Lemma get_item_by_attachment_key_agrees_witness :
  exists md,
    get_item_by_attachment_key Indexer.ascii_digit lib_demo (str "ATTACH01")
    = Some md
    /\ dict_find (str "ATTACH01")
         (build_attachment_mapping (get_all_items Indexer.ascii_digit lib_demo))
       = Some md
    /\ item_key md = key article.
Proof.
  apply (get_item_by_attachment_key_agrees Indexer.ascii_digit lib_demo article
           (str "journalArticle") (str "ATTACH01") (str "lee.pdf")).
  - repeat split; try (apply (bool_decide_unpack _); vm_compute; exact I).
  - split; [left|]. split; [apply (bool_decide_unpack _); vm_compute; exact I|].
    split; [apply (bool_decide_unpack _); vm_compute; exact I|].
    exists {| it_itemTypeID := 2; typeName := str "journalArticle" |}.
    split; [|done]. right. left.
  - exists {| ia_itemID := 2; ia_parentItemID := Some 1%Z;
              path := Some (str "storage:lee.pdf") |},
           {| itemID := 2; key := str "ATTACH01"; itemTypeID := 14 |}.
    split; [left|]. split; [right; left|].
    repeat split; try done. apply (bool_decide_unpack _); vm_compute; exact I.
  - done.
Defined.

End ItemInstances.

(** * Further properties: the statistics of the index *)

Section StatsFacts.
Import Indexer Stats.
Implicit Types (years : gmap pystr nat) (f : IndexedFileRecord) (y : pystr).

Lemma count_year_lookup years f y :
  default O (count_year years f !! y)
  = (default O (years !! y) + if bool_decide (rec_year f = y) then 1 else 0)%nat.
Proof.
  unfold count_year. destruct (decide (rec_year f = y)) as [->|Hne].
  - rewrite lookup_insert_eq, bool_decide_eq_true_2 by done. done.
  - rewrite lookup_insert_ne, bool_decide_eq_false_2 by done. lia.
Qed.

Lemma count_year_positive years f :
  (forall y n, years !! y = Some n -> (0 < n)%nat) ->
  forall y n, count_year years f !! y = Some n -> (0 < n)%nat.
Proof.
  intros Hpos y n. unfold count_year.
  destruct (decide (rec_year f = y)) as [->|Hne].
  - rewrite lookup_insert_eq. intros [= <-]. lia.
  - rewrite lookup_insert_ne by done. apply Hpos.
Qed.

Lemma by_year_fold (l : list IndexedFileRecord) : forall years,
  (forall y n, years !! y = Some n -> (0 < n)%nat) ->
  (forall y, default O (fold_left count_year l years !! y)
             = (default O (years !! y)
                + length (List.filter (fun f => bool_decide (rec_year f = y)) l))%nat)
  /\ (forall y n, fold_left count_year l years !! y = Some n -> (0 < n)%nat).
Proof.
  induction l as [|f l IH]; intros years Hpos; simpl.
  - split; [intros y; lia|done].
  - destruct (IH (count_year years f) (count_year_positive years f Hpos))
      as [Hcount Hpos'].
    split; [|done]. intros y. rewrite Hcount, count_year_lookup.
    destruct (bool_decide (rec_year f = y)); simpl; lia.
Qed.

(** X23. [get_index_stats] counts under [by_year] each year with the number
    of recorded documents of that year; a year of no recorded document is
    not a key of [by_year]. *)
Theorem get_index_stats_by_year d y :
  by_year (get_index_stats d) !! y
  = match of_year y (indexed_files (load_index_state d)) with
    | O => None
    | n => Some n
    end.
Proof.
  unfold get_index_stats, of_year. simpl.
  destruct (by_year_fold (values (indexed_files (load_index_state d))) ∅)
    as [Hcount Hpos]; [intros ? ? H; by rewrite lookup_empty in H|].
  specialize (Hcount y). rewrite lookup_empty in Hcount. simpl in Hcount.
  destruct (fold_left count_year _ ∅ !! y) as [n|] eqn:Hy; simpl in Hcount.
  - apply Hpos in Hy. rewrite <- Hcount. by destruct n; [lia|].
  - by rewrite <- Hcount.
Qed.

End StatsFacts.

Section StatsAfterRun.
Import Indexer Stats.
Context (isdecimal : N -> bool) (posix : bool)
  (fitz_open : list byte -> exn + list (exn + pystr))
  (embed : list Document -> option exn) (now : nat -> pystr).

Local Abbreviation index_loop := (index_loop fitz_open now).
Local Abbreviation find_all_pdfs := (find_all_pdfs isdecimal posix).
Local Abbreviation index_papers := (index_papers isdecimal posix fitz_open embed now).

(** Each document the loop counts adds at most one record, and none is
    removed. *)
Lemma index_loop_size root (force : bool) papers : forall s os s',
  index_loop root force papers s = inr (os, s') ->
  (size (files s) <= size (files s'))%nat
  /\ (size (files s') + indexed_count s <= size (files s) + indexed_count s')%nat.
Proof.
  induction papers as [|paper rest IH]; intros s os s' H.
  - injection H as <- <-. lia.
  - apply index_loop_cons_inv in H as (o & s1 & os1 & -> & H1 & Hrest).
    apply IH in Hrest as [Hlo Hhi].
    apply index_one_inv in H1
      as (h & _ & [(_ & -> & _)|[(_ & -> & _)|(_ & _ & pg & r & _ & _ & Hf & _ & Hc)]]);
      [lia|lia|].
    rewrite Hf, Hc in *. rewrite map_size_insert in Hlo, Hhi.
    destruct (files s !! zotero_key paper); simpl in *; lia.
Qed.

(** X24. A run of [index_papers] that returns [n] adds at most [n] records
    to what [get_index_stats] counts as [total_papers], and without
    [force] it removes none. *)
Theorem index_papers_stats d (force : bool) n d' :
  index_papers d force = (inr n, d') ->
  (total_papers (get_index_stats d') <= total_papers (get_index_stats d) + n)%nat
  /\ (force = false ->
      (total_papers (get_index_stats d) <= total_papers (get_index_stats d'))%nat).
Proof.
  intros Hrun.
  destruct (find_all_pdfs (storage d)) as [e|papers] eqn:Hfind.
  { unfold Indexer.index_papers in Hrun. by rewrite Hfind in Hrun. }
  destruct (decide (papers = [])) as [->|Hne].
  - rewrite index_papers_empty in Hrun by done. injection Hrun as <- <-.
    split; [lia|done].
  - rewrite (index_papers_nonempty _ _ _ _ _ _ _ _ Hfind Hne) in Hrun.
    destruct (index_loop (storage d) force papers _) as [e|[os s1]] eqn:Hloop;
      [done|].
    apply index_loop_size in Hloop as [Hlo Hhi]. simpl in Hlo, Hhi.
    destruct (match all_documents s1 with [] => None | _ => _ end); [done|].
    injection Hrun as <- <-. unfold get_index_stats, load_index_state at 1 3.
    simpl. split.
    + destruct force; simpl in *; [|lia].
      rewrite map_size_empty in Hhi. lia.
    + intros ->. simpl in *. lia.
Qed.

End StatsAfterRun.

(** * Further properties: what [query] cites *)

Section QueryMore.
Import Query.

Lemma sublist_map {X Y} (g : X -> Y) (l1 l2 : list X) :
  l1 `sublist_of` l2 -> List.map g l1 `sublist_of` List.map g l2.
Proof. induction 1; simpl; by constructor. Qed.

Lemma score_or_zero_le c q : (c <= q)%Q -> (c <= score_or_zero (Some q))%Q.
Proof.
  intros Hc. simpl. destruct (Qeq_bool q 0) eqn:Hq; [|exact Hc].
  apply Qeq_bool_iff in Hq. by rewrite <- Hq.
Qed.

(** X25. Whatever [query] cites, [retrieve_only] returns too when asked for
    the configured [top_k], in the same order; with no cutoff configured
    the two lists are equal, and with a cutoff every citation of [query]
    has a score that is not below it. *)
Theorem query_citations rag question :
  citations (query rag question)
    `sublist_of` retrieve_only rag question (top_k (rag_config rag))
  /\ (similarity_threshold (rag_config rag) = None ->
      citations (query rag question)
      = retrieve_only rag question (top_k (rag_config rag)))
  /\ (forall c, similarity_threshold (rag_config rag) = Some c ->
      Forall (fun cit => (c <= c_score cit)%Q) (citations (query rag question))).
Proof.
  unfold query, retrieve_only. simpl. split; [|split].
  - apply sublist_map. unfold similarity_postprocess.
    destruct (similarity_threshold (rag_config rag)); [|done].
    apply List_filter_sublist.
  - by intros ->.
  - intros c ->. simpl. apply Forall_forall.
    intros cit (n & <- & [_ Hn]%filter_In)%list_elem_of_In%in_map_iff.
    destruct (score n) as [q|] eqn:Hs; [|done].
    apply Qle_bool_iff in Hn. unfold citation_of. simpl. rewrite Hs.
    by apply score_or_zero_le.
Qed.

End QueryMore.

(** ** Instances *)

Section StatsInstances.
Import Indexer Examples MoreExamples Stats.

Lemma index_papers_stats_witness :
  (total_papers (get_index_stats (snd (run (disk_fresh storage_one) false)))
   <= total_papers (get_index_stats (disk_fresh storage_one)) + 1)%nat
  /\ (false = false ->
      (total_papers (get_index_stats (disk_fresh storage_one))
       <= total_papers (get_index_stats (snd (run (disk_fresh storage_one) false))))%nat).
Proof.
  apply (index_papers_stats ascii_digit true fitz_demo embed_ok clock
           (disk_fresh storage_one) false 1%nat).
  apply injective_projections; [vm_compute; reflexivity | reflexivity].
Defined.

Lemma query_citations_witness :
  Forall (fun cit => (1 # 2 <= Query.c_score cit)%Q)
    (Query.citations (Query.query rag_demo (str "dropout"))).
Proof.
  exact (proj2 (proj2 (query_citations rag_demo (str "dropout")))
           (1 # 2)%Q eq_refl).
Defined.

End StatsInstances.
